(** * WebSocket load benchmark: wire codec, session state machine,
      metrics aggregation and orchestration

    A shallow embedding of [websocket_benchmark.py].  Python floats are
    IEEE-754 binary64 values and are modelled by the Standard Library's
    [spec_float] with [prec = 53] and [emax = 1024]; Python integers are
    [Z]; an operation that can raise returns a [res]. *)

From Stdlib Require Import ZArith List Lia Bool String Ascii.
From Stdlib Require Import Strings.Byte.
From Stdlib Require Import DecimalString Sorting.Sorted.
From Stdlib Require Import DecimalZ Sorting.Permutation.
From Stdlib Require Import Floats.SpecFloat Floats.PrimFloat Floats.FloatOps.
Import ListNotations.
Open Scope Z_scope.

Set Warnings "-inexact-float".

(** ** Exceptions and results *)

Inductive exn : Type :=
| ZeroDivisionError
| IndexError
| OverflowError
| ValueError
| StructError
| EOFError
| KeyboardInterrupt.

Inductive res (A : Type) : Type :=
| Ok (a : A)
| Raise (e : exn).

Arguments Ok {A} a.
Arguments Raise {A} e.

Definition bind {A B : Type} (r : res A) (k : A -> res B) : res B :=
  match r with
  | Ok a => k a
  | Raise e => Raise e
  end.

Notation "x <- r ;; k" := (bind r (fun x => k))
  (at level 61, r at next level, right associativity).

(** ** Python floats *)

Module PyFloat.

Definition float : Type := spec_float.

Definition prec : Z := 53.
Definition emax : Z := 1024.

Definition fadd : float -> float -> float := SFadd prec emax.
Definition fsub : float -> float -> float := SFsub prec emax.
Definition fmul : float -> float -> float := SFmul prec emax.
Definition fdiv : float -> float -> float := SFdiv prec emax.

(** [x < y] and [x <= y] on floats; both are false when an operand is NaN. *)
Definition flt : float -> float -> bool := SFltb.
Definition fle : float -> float -> bool := SFleb.

Definition is_nan (x : float) : bool :=
  match x with S754_nan => true | _ => false end.

Definition is_inf (x : float) : bool :=
  match x with S754_infinity _ => true | _ => false end.

(** The conversion of an [int] operand of a float operation: the nearest
    binary64 value (ties to even), [OverflowError] beyond the range. *)
Definition float_of_int (n : Z) : res float :=
  match binary_normalize prec emax n 0 false with
  | S754_infinity _ => Raise OverflowError
  | f => Ok f
  end.

(** [n * x] for an int [n] and a float [x]. *)
Definition int_mul_float (n : Z) (x : float) : res float :=
  f <- float_of_int n ;; Ok (fmul f x).

(** [x * n], [x + n] for a float [x] and an int [n]. *)
Definition float_mul_int (x : float) (n : Z) : res float :=
  f <- float_of_int n ;; Ok (fmul x f).

Definition float_add_int (x : float) (n : Z) : res float :=
  f <- float_of_int n ;; Ok (fadd x f).

(** [x / n] for a float [x] and an int [n]. *)
Definition float_div_int (x : float) (n : Z) : res float :=
  f <- float_of_int n ;;
  match f with
  | S754_zero _ => Raise ZeroDivisionError
  | _ => Ok (fdiv x f)
  end.

(** An integer as an unrounded mantissa with exponent 0. *)
Definition exact_int (n : Z) : float :=
  match n with
  | Z0 => S754_zero false
  | Zpos p => S754_finite false p 0
  | Zneg p => S754_finite true p 0
  end.

(** [a / b] for two ints: the correctly rounded quotient. *)
Definition int_truediv (a b : Z) : res float :=
  if b =? 0 then Raise ZeroDivisionError
  else match fdiv (exact_int a) (exact_int b) with
       | S754_infinity _ => Raise OverflowError
       | q => Ok q
       end.

(** [int(x)]: truncation toward zero. *)
Definition int_of_float (x : float) : res Z :=
  match x with
  | S754_zero _ => Ok 0
  | S754_finite s m e =>
      Ok (cond_Zopp s (match e with
                       | Zneg p => Z.pos m / 2 ^ Z.pos p
                       | _ => Z.pos m * 2 ^ e
                       end))
  | S754_infinity _ => Raise OverflowError
  | S754_nan => Raise ValueError
  end.

(** The float literals of the source, as the binary64 values nearest to
    the decimal numerals. *)
Definition lit_0_95 : float := S754_finite false 8556839292003942 (-53).
Definition lit_0_99 : float := S754_finite false 8917127262193582 (-53).
Definition lit_0_995 : float := S754_finite false 8962163258467287 (-53).

End PyFloat.

Import PyFloat.

(** ** Wire codec *)

Module Wire.

Inductive ServerBound : Type := Init | Input | Spawn.

Definition ServerBound_value (t : ServerBound) : Z :=
  match t with
  | Init => 0
  | Input => 1
  | Spawn => 2
  end.

Inductive InputFlags : Type := LeftClick | Up | Left | Down | Right.

Definition InputFlags_value (f : InputFlags) : Z :=
  match f with
  | LeftClick => Z.shiftl 1 0
  | Up => Z.shiftl 1 1
  | Left => Z.shiftl 1 2
  | Down => Z.shiftl 1 3
  | Right => Z.shiftl 1 4
  end.

Definition byte_of_Z (z : Z) : byte :=
  match Byte.of_N (Z.to_N (z mod 256)) with
  | Some b => b
  | None => x00
  end.

(** The [n] low-order bytes of [v], least significant first. *)
Fixpoint le_bytes (n : nat) (v : Z) : list byte :=
  match n with
  | O => []
  | S n' => byte_of_Z v :: le_bytes n' (v / 256)
  end.

(** [s.encode('utf-8')]: a [string] holds the UTF-8 bytes of the text. *)
Definition encode_utf8 (s : string) : list byte := list_byte_of_string s.

(** [str(n)] for an int. *)
Definition str_of_int (n : Z) : string := NilZero.string_of_int (Z.to_int n).

(** *** [struct.pack] with byte order [<] (little-endian, no padding) *)

(** Format [B]: unsigned char, one byte. *)
Definition pack_B (v : Z) : res (list byte) :=
  if (0 <=? v) && (v <=? 255) then Ok (le_bytes 1 v) else Raise StructError.

(** Format [i]: signed int, four bytes, two's complement. *)
Definition pack_i (v : Z) : res (list byte) :=
  if (- 2 ^ 31 <=? v) && (v <? 2 ^ 31) then Ok (le_bytes 4 (v mod 2 ^ 32))
  else Raise StructError.

(** The C cast [(float) x]: rounding of a binary64 value to binary32. *)
Definition to_binary32 (x : float) : float :=
  match x with
  | S754_finite s m e => binary_round 24 128 s m e
  | _ => x
  end.

Definition b2z (b : bool) : Z := if b then 1 else 0.

(** The 32-bit pattern of a binary32 value: sign, biased exponent, and
    the 23 stored bits of the mantissa. *)
Definition bits_of_binary32 (y : float) : Z :=
  match y with
  | S754_zero s => b2z s * 2 ^ 31
  | S754_infinity s => b2z s * 2 ^ 31 + 255 * 2 ^ 23
  | S754_nan => 255 * 2 ^ 23 + 2 ^ 22
  | S754_finite s m e =>
      if Z.pos m <? 2 ^ 23 then b2z s * 2 ^ 31 + Z.pos m
      else b2z s * 2 ^ 31 + (e + 150) * 2 ^ 23 + (Z.pos m - 2 ^ 23)
  end.

(** Format [f]: a four-byte float; a finite value that rounds to a
    binary32 infinity is refused. *)
Definition pack_f (x : float) : res (list byte) :=
  let y := to_binary32 x in
  if is_inf y && negb (is_inf x) then Raise OverflowError
  else Ok (le_bytes 4 (bits_of_binary32 y)).

(** [struct.pack('<Biffff', tag, flags, a, b, c, d)]. *)
Definition pack_Biffff (tag flags : Z) (a b c d : float) : res (list byte) :=
  bt <- pack_B tag ;;
  bf <- pack_i flags ;;
  ba <- pack_f a ;;
  bb <- pack_f b ;;
  bc <- pack_f c ;;
  bd <- pack_f d ;;
  Ok (bt ++ bf ++ ba ++ bb ++ bc ++ bd).

Definition build_hash : string := "6f59094d60f98fafc14371671d3ff31ef4d75d9e".
Definition password : string := "".

(** The frames built in [measure_latency] and [spawn_bot]. *)
Definition init_packet : res (list byte) :=
  bt <- pack_B (ServerBound_value Init) ;;
  Ok (bt ++ encode_utf8 build_hash ++ [x00] ++ encode_utf8 password ++ [x00]).

Definition spawn_packet (bot_id : Z) : res (list byte) :=
  let bot_name := ("bot" ++ str_of_int bot_id)%string in
  bt <- pack_B (ServerBound_value Spawn) ;;
  Ok (bt ++ encode_utf8 bot_name ++ [x00]).

(** [flags] is a member of [InputFlags] or the int [0]. *)
Definition flags_value (flags : option InputFlags) : Z :=
  match flags with
  | Some f => InputFlags_value f
  | None => 0
  end.

Definition input_packet (flags : option InputFlags) (a b c d : float) : res (list byte) :=
  pack_Biffff (ServerBound_value Input) (flags_value flags) a b c d.

(** The Input frame laid out as the protocol table words it: a tag byte,
    a one-byte flags field, four four-byte floats. *)
Definition table_input_frame (flags : option InputFlags) (fa fb fc fd : list byte) : list byte :=
  le_bytes 1 (ServerBound_value Input) ++ le_bytes 1 (flags_value flags) ++ fa ++ fb ++ fc ++ fd.

(** The leading tag byte of a frame, when it has one. *)
Definition frame_tag (msg : list byte) : option Z :=
  match msg with
  | [] => None
  | b :: _ => Some (Z.of_N (Byte.to_N b))
  end.

End Wire.

Import Wire.

(** ** Connection session *)

Module Session.

(** The attributes of a [BenchmarkBot] object; [websocket] tells whether
    the attribute holds a connection (it is [None] until [connect]
    succeeds). *)
Record BenchmarkBot : Type := mkBot {
  bot_id : Z;
  url : string;
  websocket : bool;
  running : bool;
  connected : bool;
  spawned : bool;
  latencies : list float;
  start_time : float;
  packets_sent : Z;
  packets_received : Z
}.

(** [BenchmarkBot.__init__]. *)
Definition BenchmarkBot_init (bot_id : Z) (url : string) : BenchmarkBot :=
  mkBot bot_id url false true false false [] (S754_zero false) 0 0.

(** The [await] at which the coroutine [measure_latency] is suspended.
    [MAccept k]: in the handshake poll, [k] iterations left after the
    current one. *)
Inductive main_pc : Type :=
| MNew
| MConnect
| MSendInit
| MAccept (k : nat)
| MSettle
| MSpawn1
| MSleep1
| MSpawn2
| MSleep2
| MSendInput
| MTick
| MClose
| MDone.

(** The task running [receive_loop]: not created, created but not yet
    run, suspended in [recv], finished or cancelled. *)
Inductive recv_pc : Type :=
| RIdle
| RNew
| RRecv
| RDone.

(** How an awaited operation completes: normally, with a received
    frame, with [asyncio.TimeoutError], or with another exception. *)
Inductive outcome : Type :=
| Done
| Frame (msg : list byte)
| Timeout
| Failed.

(** What a resumed block of [measure_latency] reads from its
    environment: up to three successive readings of [time.time()] and
    the random draws of one Input command. *)
Record draws : Type := mkDraws {
  clock1 : float;
  clock2 : float;
  clock3 : float;
  flags : option InputFlags;
  axis1x : float;
  axis1y : float;
  axis2x : float;
  axis2y : float
}.

(** One session: the bot object, the two tasks, the locals of
    [measure_latency] that live across an [await], and the history of
    the connection: the frames handed to the server so far, the number
    of [connect] calls and the number of [spawn_bot] calls. *)
Record state : Type := mkState {
  bot : BenchmarkBot;
  main_task : main_pc;
  receive_task : recv_pc;
  duration : Z;
  end_time : float;
  send_time : float;
  pending : list byte;
  wire : list (list byte);
  connects : nat;
  spawn_calls : nat
}.

Definition initial (b : BenchmarkBot) (duration : Z) : state :=
  mkState b MNew RIdle duration (S754_zero false) (S754_zero false) [] [] 0 0.

Definition with_bot (s : state) (b : BenchmarkBot) : state :=
  mkState b (main_task s) (receive_task s) (duration s) (end_time s) (send_time s)
          (pending s) (wire s) (connects s) (spawn_calls s).

Definition with_main (s : state) (pc : main_pc) : state :=
  mkState (bot s) pc (receive_task s) (duration s) (end_time s) (send_time s)
          (pending s) (wire s) (connects s) (spawn_calls s).

Definition with_receiver (s : state) (pc : recv_pc) : state :=
  mkState (bot s) (main_task s) pc (duration s) (end_time s) (send_time s)
          (pending s) (wire s) (connects s) (spawn_calls s).

Definition set_running (b : BenchmarkBot) (v : bool) : BenchmarkBot :=
  mkBot (bot_id b) (url b) (websocket b) v (connected b) (spawned b)
        (latencies b) (start_time b) (packets_sent b) (packets_received b).

Definition set_connected (b : BenchmarkBot) : BenchmarkBot :=
  mkBot (bot_id b) (url b) true (running b) true (spawned b)
        (latencies b) (start_time b) (packets_sent b) (packets_received b).

Definition set_spawned (b : BenchmarkBot) : BenchmarkBot :=
  mkBot (bot_id b) (url b) (websocket b) (running b) (connected b) true
        (latencies b) (start_time b) (packets_sent b) (packets_received b).

Definition set_start_time (b : BenchmarkBot) (t : float) : BenchmarkBot :=
  mkBot (bot_id b) (url b) (websocket b) (running b) (connected b) (spawned b)
        (latencies b) t (packets_sent b) (packets_received b).

Definition append_latency (b : BenchmarkBot) (x : float) : BenchmarkBot :=
  mkBot (bot_id b) (url b) (websocket b) (running b) (connected b) (spawned b)
        (latencies b ++ [x]) (start_time b) (packets_sent b) (packets_received b).

Definition incr_sent (b : BenchmarkBot) : BenchmarkBot :=
  mkBot (bot_id b) (url b) (websocket b) (running b) (connected b) (spawned b)
        (latencies b) (start_time b) (packets_sent b + 1) (packets_received b).

Definition incr_received (b : BenchmarkBot) : BenchmarkBot :=
  mkBot (bot_id b) (url b) (websocket b) (running b) (connected b) (spawned b)
        (latencies b) (start_time b) (packets_sent b) (packets_received b + 1).

(** [await self.websocket.send(pkt)] begins: the frame waits in
    [pending] and the coroutine is suspended at [pc]. *)
Definition begin_send (s : state) (pkt : list byte) (pc : main_pc) : state :=
  mkState (bot s) pc (receive_task s) (duration s) (end_time s) (send_time s)
          pkt (wire s) (connects s) (spawn_calls s).

(** A send completed: the frame is on the wire and
    [self.packets_sent += 1] runs. *)
Definition sent (s : state) : state :=
  mkState (incr_sent (bot s)) (main_task s) (receive_task s) (duration s) (end_time s)
          (send_time s) [] (wire s ++ [pending s]) (connects s) (spawn_calls s).

(** [disconnect], up to its [await]. *)
Definition disconnect (s : state) : state :=
  let s1 := with_bot s (set_running (bot s) false) in
  if websocket (bot s) then with_main s1 MClose else with_main s1 MDone.

(** [spawn_bot], up to its [await]; whatever fails inside is caught
    there, and the caller goes on to the sleep [after]. *)
Definition spawn_bot (s : state) (sending after : main_pc) : state :=
  let s1 := mkState (bot s) (main_task s) (receive_task s) (duration s) (end_time s)
                    (send_time s) (pending s) (wire s) (connects s)
                    (S (spawn_calls s)) in
  match spawn_packet (bot_id (bot s)) with
  | Ok pkt => begin_send s1 pkt sending
  | Raise _ => with_main s1 after
  end.

(** [receive_task.cancel()]. *)
Definition cancel (pc : recv_pc) : recv_pc :=
  match pc with
  | RIdle => RIdle
  | _ => RDone
  end.

(** After the [while] loop: the receive task is cancelled, then the
    [finally] clause disconnects. *)
Definition after_loop (s : state) : state :=
  disconnect (with_receiver s (cancel (receive_task s))).

(** The head of the [while] loop and the body up to the [await] of the
    send; an exception in the body leaves the loop. *)
Definition loop_head (s : state) (t_check t_send : float) (d : draws) : state :=
  if flt t_check (end_time s) && running (bot s) then
    let s1 := mkState (bot s) (main_task s) (receive_task s) (duration s) (end_time s)
                      t_send (pending s) (wire s) (connects s) (spawn_calls s) in
    match input_packet (flags d) (axis1x d) (axis1y d) (axis2x d) (axis2y d) with
    | Ok pkt => begin_send s1 pkt MSendInput
    | Raise _ => after_loop s1
    end
  else after_loop s.

(** The next iteration of [for _ in range(10)], or the sleep after it. *)
Definition poll_next (k : nat) : main_pc :=
  match k with
  | O => MSettle
  | S k' => MAccept k'
  end.

Definition is_accept (msg : list byte) : bool :=
  match frame_tag msg with
  | Some t => t =? 7
  | None => false
  end.

Definition is_spawn_or_update (msg : list byte) : bool :=
  match frame_tag msg with
  | Some t => (t =? 0) || (t =? 2)
  | None => false
  end.

(** [measure_latency] resumed at its current [await], run to the next. *)
Definition measure_latency (o : outcome) (d : draws) (s : state) : option state :=
  match main_task s, o with
  | MNew, Done =>
      Some (mkState (bot s) MConnect (receive_task s) (duration s) (end_time s)
                    (send_time s) (pending s) (wire s) (S (connects s))
                    (spawn_calls s))
  | MConnect, Done =>
      let s1 := with_bot s (set_connected (bot s)) in
      match init_packet with
      | Ok pkt => Some (begin_send s1 pkt MSendInit)
      | Raise _ => Some (disconnect s1)
      end
  | MConnect, Timeout | MConnect, Failed => Some (with_main s MDone)
  | MSendInit, Done => Some (with_main (sent s) (MAccept 9))
  | MSendInit, Failed => Some (disconnect s)
  | MAccept k, Frame msg =>
      let s1 := with_bot s (incr_received (bot s)) in
      if is_accept msg then Some (with_main s1 MSettle)
      else Some (with_main s1 (poll_next k))
  | MAccept k, Timeout => Some (with_main s (poll_next k))
  | MAccept k, Failed => Some (disconnect s)
  | MSettle, Done =>
      let s1 := with_bot s (set_start_time (bot s) (clock1 d)) in
      Some (spawn_bot (with_receiver s1 RNew) MSpawn1 MSleep1)
  | MSpawn1, Done => Some (with_main (sent s) MSleep1)
  | MSpawn1, Failed => Some (with_main s MSleep1)
  | MSleep1, Done => Some (spawn_bot s MSpawn2 MSleep2)
  | MSpawn2, Done => Some (with_main (sent s) MSleep2)
  | MSpawn2, Failed => Some (with_main s MSleep2)
  | MSleep2, Done =>
      match float_add_int (clock1 d) (duration s) with
      | Ok e =>
          let s1 := mkState (bot s) (main_task s) (receive_task s) (duration s) e
                            (send_time s) (pending s) (wire s) (connects s)
                            (spawn_calls s) in
          Some (loop_head s1 (clock2 d) (clock3 d) d)
      | Raise _ => Some (disconnect s)
      end
  | MSendInput, Done => Some (with_main (sent s) MTick)
  | MSendInput, Failed => Some (after_loop s)
  | MTick, Done =>
      match float_mul_int (fsub (clock1 d) (send_time s)) 1000 with
      | Ok latency =>
          let s1 := with_bot s (append_latency (bot s) latency) in
          Some (loop_head s1 (clock2 d) (clock3 d) d)
      | Raise _ => Some (after_loop s)
      end
  | MClose, Done | MClose, Timeout | MClose, Failed => Some (with_main s MDone)
  | _, _ => None
  end.

(** The head of [while self.running] in [receive_loop]. *)
Definition receive_loop_head (s : state) : state :=
  if running (bot s) then with_receiver s RRecv else with_receiver s RDone.

(** [receive_loop] resumed, run to its next [await] or to its end. *)
Definition receive_loop (o : outcome) (s : state) : option state :=
  match receive_task s, o with
  | RNew, Done => Some (receive_loop_head s)
  | RRecv, Frame msg =>
      let b1 := incr_received (bot s) in
      let b2 := if is_spawn_or_update msg
                then (if negb (spawned b1) then set_spawned b1 else b1)
                else b1 in
      Some (receive_loop_head (with_bot s b2))
  | RRecv, Timeout => Some (receive_loop_head s)
  | RRecv, Failed => Some (with_receiver s RDone)
  | _, _ => None
  end.

(** What the scheduler and the driver can do to a session: resume the
    main task, resume the receive task, or ([run_benchmark], "stop all
    bots") clear [running]. *)
Inductive event : Type :=
| MainResumes (o : outcome) (d : draws)
| ReceiverResumes (o : outcome)
| DriverStops.

Definition step (e : event) (s : state) : option state :=
  match e with
  | MainResumes o d => measure_latency o d s
  | ReceiverResumes o => receive_loop o s
  | DriverStops => Some (with_bot s (set_running (bot s) false))
  end.

Fixpoint run (evs : list event) (s : state) : option state :=
  match evs with
  | [] => Some s
  | e :: evs' =>
      match step e s with
      | Some s' => run evs' s'
      | None => None
      end
  end.

Definition reachable (s0 s : state) : Prop := exists evs, run evs s0 = Some s.

(** The Spawn frames among the frames sent so far. *)
Definition spawn_frames_sent (s : state) : nat :=
  List.length (filter (fun f => match frame_tag f with
                                | Some t => t =? ServerBound_value Spawn
                                | None => false
                                end) (wire s)).

End Session.

Import Session.

(** ** Metrics aggregator *)

Module Aggregator.

(** A statistic is the int [0] when there is no sample and a float
    otherwise. *)
Inductive pyval : Type :=
| PInt (n : Z)
| PFloat (x : float).

(** [list.sort()] on floats: a stable sort by [<].  On a list without
    NaN every stable comparison sort returns this list, and so does
    [list.sort()].  With a NaN in the list, [<] is no order, what
    [list.sort()] returns depends on its merge strategy, and this
    function does not predict it: what is proved about the order of the
    result is proved for lists without NaN. *)
Fixpoint insert (x : float) (l : list float) : list float :=
  match l with
  | [] => [x]
  | y :: l' => if flt x y then x :: y :: l' else y :: insert x l'
  end.

Definition list_sort (l : list float) : list float :=
  fold_left (fun acc x => insert x acc) l [].

(** [min(l)] and [max(l)]: the first smallest, the first largest. *)
Definition py_min (l : list float) : res float :=
  match l with
  | [] => Raise ValueError
  | x :: l' => Ok (fold_left (fun m y => if flt y m then y else m) l' x)
  end.

Definition py_max (l : list float) : res float :=
  match l with
  | [] => Raise ValueError
  | x :: l' => Ok (fold_left (fun m y => if flt m y then y else m) l' x)
  end.

(** [l[i]]: a negative index counts from the end. *)
Definition index (l : list float) (i : Z) : res float :=
  let n := Z.of_nat (List.length l) in
  let j := if i <? 0 then i + n else i in
  if (0 <=? j) && (j <? n) then
    match nth_error l (Z.to_nat j) with
    | Some x => Ok x
    | None => Raise IndexError
    end
  else Raise IndexError.

(** [int(len(all_latencies) * p)] for a float literal [p]. *)
Definition percentile_index (n : Z) (p : float) : res Z :=
  f <- int_mul_float n p ;; int_of_float f.

Record LatencyStats : Type := mkStats {
  avg_latency : pyval;
  median_latency : pyval;
  p95_latency : pyval;
  p99_latency : pyval;
  p99_5_latency : pyval;
  min_latency : pyval;
  max_latency : pyval
}.

Record LevelResult : Type := mkResult {
  users : Z;
  total_duration : float;
  connected_count : Z;
  spawned_count : Z;
  total_packets_sent : Z;
  total_packets_received : Z;
  stats : LatencyStats;
  success_rate : float
}.

(** [sum(1 for bot in bots if pred(bot))]. *)
Definition count (pred : BenchmarkBot -> bool) (bots : list BenchmarkBot) : Z :=
  fold_left (fun acc b => if pred b then acc + 1 else acc) bots 0.

(** The collection loop of [run_benchmark]: [all_latencies.extend],
    [total_packets_sent +=], [total_packets_received +=]. *)
Definition pool (bots : list BenchmarkBot) : list float * Z * Z :=
  fold_left (fun acc b =>
               let '(all_latencies, sent, received) := acc in
               (all_latencies ++ latencies b,
                sent + packets_sent b,
                received + packets_received b))
            bots ([], 0, 0).

(** [bots = [BenchmarkBot(i, url) for i in range(num_users)]]. *)
Definition benchmark_url : string := "ws://localhost:8080/ffa".

Definition make_bots (num_users : Z) : list BenchmarkBot :=
  map (fun i => BenchmarkBot_init (Z.of_nat i) benchmark_url)
      (seq 0 (Z.to_nat num_users)).

(** [x / n * 100] for ints [x] and [n], as printed and as stored in
    ['success_rate']. *)
Definition percent (x n : Z) : res float :=
  q <- int_truediv x n ;; float_mul_int q 100.

Section Summary.

(** The builtin [sum] on a list of floats; how it rounds depends on the
    interpreter version, so it is a parameter. *)
Variable py_sum : list float -> float.

(** The statistics block of [run_benchmark]. *)
Definition latency_stats (all_latencies : list float) : res LatencyStats :=
  match all_latencies with
  | [] => Ok (mkStats (PInt 0) (PInt 0) (PInt 0) (PInt 0) (PInt 0) (PInt 0) (PInt 0))
  | _ :: _ =>
      let sorted := list_sort all_latencies in
      let n := Z.of_nat (List.length sorted) in
      avg <- float_div_int (py_sum sorted) n ;;
      median <- index sorted (n / 2) ;;
      i95 <- percentile_index n lit_0_95 ;;
      p95 <- index sorted i95 ;;
      i99 <- percentile_index n lit_0_99 ;;
      p99 <- index sorted i99 ;;
      i995 <- percentile_index n lit_0_995 ;;
      p995 <- index sorted i995 ;;
      mn <- py_min sorted ;;
      mx <- py_max sorted ;;
      Ok (mkStats (PFloat avg) (PFloat median) (PFloat p95) (PFloat p99)
                  (PFloat p995) (PFloat mn) (PFloat mx))
  end.

(** [run_benchmark] from what it reads of its bots: [settled] is the
    list of bots as the driver sees it after the connection settle
    delay, where it counts [connected] and [spawned]; [final] is the
    same list after the bots are stopped, where it collects samples and
    packet counters.  [duration] is the measured wall-clock time.  Of
    the console output only the evaluation of the two percentages is
    kept. *)
Definition run_benchmark (num_users : Z) (duration : float)
    (settled final : list BenchmarkBot) : res LevelResult :=
  let connected := count Session.connected settled in
  let spawned := count Session.spawned settled in
  let '(all_latencies, sent, received) := pool final in
  st <- latency_stats all_latencies ;;
  _ <- percent connected num_users ;;
  _ <- percent spawned num_users ;;
  rate <- percent connected num_users ;;
  Ok (mkResult num_users duration connected spawned sent received st rate).

End Summary.

End Aggregator.

Import Aggregator.

(** ** Benchmark orchestrator *)

Module Orchestrator.

(** How the pre-flight connection attempt ends. *)
Inductive probe : Type :=
| ProbeOk
| ProbeTimeout
| ProbeRefused
| ProbeError (e : string).

(** [check_server_connection]: its verdict and the lines it prints. *)
Definition check_server_connection (p : probe) : bool * list string :=
  let head := ["🔍 檢查伺服器連接...";
               "   嘗試連接: ws://localhost:8080/ffa"]%string in
  match p with
  | ProbeOk => (true, head ++ ["   ✅ 伺服器連接成功！"]%string)
  | ProbeTimeout =>
      (false, head ++ ["   ❌ 連接超時！";
                       "請檢查:";
                       "   1. 遊戲伺服器是否正在運行:";
                       "      sudo systemctl status shooter-game";
                       "   2. 端口 8080 是否開放:";
                       "      netstat -tuln | grep 8080";
                       "   3. 嘗試手動啟動:";
                       "      cd ~/minimal-shooter-game && npm start"]%string)
  | ProbeRefused =>
      (false, head ++ ["   ❌ 連接被拒絕！";
                       "伺服器未運行，請啟動:";
                       "   sudo systemctl start shooter-game";
                       "   或手動啟動:";
                       "   cd ~/minimal-shooter-game && npm start"]%string)
  | ProbeError e => (false, head ++ [("   ❌ 連接失敗: " ++ e)%string])
  end.

Definition abort_notice : string := "⚠️  無法連接到伺服器，測試中止。".

(** [range(start, stop, step)] for a positive step. *)
Definition range (start stop step : Z) : list Z :=
  map (fun k => start + step * Z.of_nat k)
      (seq 0 (Z.to_nat ((stop - start + step - 1) / step))).

(** [test_cases = [1] + list(range(100, 1001, 100))]. *)
Definition test_cases : list Z := [1] ++ range 100 1001 100.

(** What one call of [run_benchmark] observes: the measured duration
    and its bots at the two moments it reads them. *)
Record level_env : Type := mkLevelEnv {
  env_duration : float;
  env_settled : list BenchmarkBot;
  env_final : list BenchmarkBot
}.

(** How [input("...")] at the start prompt returns: with a line, with
    [EOFError], or with [KeyboardInterrupt]. *)
Inductive prompt : Type :=
| Enter
| EndOfInput
| Interrupt.

(** The operator at the terminal: the answer to the start prompt, and
    whether Ctrl-C arrives while the level with a given user count runs. *)
Record operator : Type := mkOperator {
  at_prompt : prompt;
  interrupts : Z -> bool
}.

(** What a run leaves behind: the lines printed by the pre-flight check
    and the notices, the user counts of the levels that completed, the
    rows written to the CSV file, whether the charts were generated, and
    the exception that ended [main], if any.  Writing the file and
    drawing the charts are taken to succeed. *)
Record report : Type := mkReport {
  printed : list string;
  levels_run : list Z;
  rows : list LevelResult;
  charts : bool;
  raised : option exn
}.

Definition interrupt_notice : string := "⚠️  測試已中斷".

Section Main.

Variable py_sum : list float -> float.

(** The [for] loop of [main]: the results appended so far, and the
    exception that left the loop, if any (nothing in [main] catches
    one). *)
Fixpoint sweep (op : operator) (env : Z -> level_env) (cases : list Z)
    (results : list LevelResult) : list LevelResult * option exn :=
  match cases with
  | [] => (results, None)
  | num_users :: cases' =>
      if interrupts op num_users then (results, Some KeyboardInterrupt)
      else
        let e := env num_users in
        match run_benchmark py_sum num_users (env_duration e)
                            (env_settled e) (env_final e) with
        | Ok result => sweep op env cases' (results ++ [result])
        | Raise x => (results, Some x)
        end
  end.

Definition main (p : probe) (op : operator) (env : Z -> level_env) : report :=
  let '(ok, lines) := check_server_connection p in
  if negb ok then mkReport (lines ++ [abort_notice]) [] [] false None
  else
    match at_prompt op with
    | Interrupt => mkReport lines [] [] false (Some KeyboardInterrupt)
    | EndOfInput => mkReport lines [] [] false (Some EOFError)
    | Enter =>
        let '(results, x) := sweep op env test_cases [] in
        match x with
        | None => mkReport lines (map users results) results true None
        | Some _ => mkReport lines (map users results) [] false x
        end
    end.

(** The [__main__] block: [KeyboardInterrupt] is caught and reported. *)
Definition entry_point (p : probe) (op : operator) (env : Z -> level_env) : report :=
  let r := main p op env in
  match raised r with
  | Some KeyboardInterrupt =>
      mkReport (printed r ++ [interrupt_notice]) (levels_run r) (rows r) (charts r)
               (raised r)
  | _ => r
  end.

End Main.

End Orchestrator.

Import Orchestrator.

(** ** Load driver: launching and waiting *)

Module Driver.

Definition batch_size : Z := 50.

(** A bound of the slice [l[a:b]]: a negative bound counts from the
    end, and every bound is clipped to the list. *)
Definition slice_bound (len i : Z) : Z :=
  if i <? 0 then Z.max (i + len) 0 else Z.min i len.

(** [l[a:b]]. *)
Definition slice {A : Type} (l : list A) (a b : Z) : list A :=
  let len := Z.of_nat (List.length l) in
  let lo := slice_bound len a in
  let hi := slice_bound len b in
  firstn (Z.to_nat (hi - lo)) (skipn (Z.to_nat lo) l).

(** The launch loop of [run_benchmark]: for each batch the two numbers
    it prints ([batch_start + 1] and [batch_end]) and the bots whose
    tasks it creates; one second of sleep follows each batch. *)
Definition launch_batches (num_users : Z) (bots : list BenchmarkBot)
    : list (Z * Z * list BenchmarkBot) :=
  map (fun batch_start =>
         let batch_end := Z.min (batch_start + batch_size) num_users in
         (batch_start + 1, batch_end, slice bots batch_start batch_end))
      (range 0 num_users batch_size).

(** [range(start, stop, step)] for a negative step. *)
Definition range_down (start stop step : Z) : list Z :=
  map (fun k => start + step * Z.of_nat k)
      (seq 0 (Z.to_nat ((start - stop - step - 1) / (- step)))).

(** The progress loop of [run_benchmark]: the values of [remaining];
    each round prints one line and sleeps ten seconds. *)
Definition progress_rounds (duration : Z) : list Z := range_down duration 0 (-10).

End Driver.

Import Driver.

(** ** Charts *)

Module Charts.

(** [l[i]] on any list: a negative index counts from the end. *)
Definition subscript {A : Type} (l : list A) (i : Z) : res A :=
  let n := Z.of_nat (List.length l) in
  let j := if i <? 0 then i + n else i in
  if (0 <=? j) && (j <? n) then
    match nth_error l (Z.to_nat j) with
    | Some x => Ok x
    | None => Raise IndexError
    end
  else Raise IndexError.

(** [key_indices = [0, len(users)//2, -1]]. *)
Definition key_indices (users : list Z) : list Z :=
  [0; Z.of_nat (List.length users) / 2; -1].

(** The annotation loop of [generate_charts]: for each key index below
    [len(users)], the value that is formatted as the label and the point
    it is attached to. *)
Fixpoint annotate (users : list Z) (avg_latency : list pyval) (indices : list Z)
    : res (list (pyval * (Z * pyval))) :=
  match indices with
  | [] => Ok []
  | i :: indices' =>
      if i <? Z.of_nat (List.length users) then
        label <- subscript avg_latency i ;;
        x <- subscript users i ;;
        y <- subscript avg_latency i ;;
        rest <- annotate users avg_latency indices' ;;
        Ok ((label, (x, y)) :: rest)
      else annotate users avg_latency indices'
  end.

(** The annotations of the latency chart of [generate_charts]. *)
Definition annotations (results : list LevelResult) : res (list (pyval * (Z * pyval))) :=
  let users := map Aggregator.users results in
  let avg_latency := map (fun r => Aggregator.avg_latency (stats r)) results in
  annotate users avg_latency (key_indices users).

End Charts.

Import Charts.

(** ** The CSV file *)

Module CsvOutput.

(** The dict that [run_benchmark] returns, in the order of its keys. *)
Definition result_dict (r : LevelResult) : list (string * pyval) :=
  [ ("users", PInt (users r));
    ("duration", PFloat (total_duration r));
    ("connected", PInt (connected_count r));
    ("spawned", PInt (spawned_count r));
    ("packets_sent", PInt (total_packets_sent r));
    ("packets_received", PInt (total_packets_received r));
    ("avg_latency", avg_latency (stats r));
    ("median_latency", median_latency (stats r));
    ("min_latency", min_latency (stats r));
    ("max_latency", max_latency (stats r));
    ("p95_latency", p95_latency (stats r));
    ("p99_latency", p99_latency (stats r));
    ("p99_5_latency", p99_5_latency (stats r));
    ("success_rate", PFloat (success_rate r)) ]%string.

(** The columns of the CSV file written by [main]. *)
Definition fieldnames : list string :=
  [ "users"; "duration"; "connected"; "spawned"; "success_rate";
    "packets_sent"; "packets_received";
    "avg_latency"; "median_latency"; "min_latency"; "max_latency";
    "p95_latency"; "p99_latency"; "p99_5_latency" ]%string.

(** [rowdict.get(key)]. *)
Fixpoint dict_get (key : string) (rowdict : list (string * pyval)) : option pyval :=
  match rowdict with
  | [] => None
  | (k, v) :: rest => if String.eqb k key then Some v else dict_get key rest
  end.

(** [csv.DictWriter(f, fieldnames).writerow(rowdict)] with the default
    [extrasaction='raise'] and [restval='']: a key that is not a field
    name raises [ValueError]; a field without a key is written as the
    empty [restval], here [None]. *)
Definition writerow (fields : list string) (rowdict : list (string * pyval))
    : res (list (option pyval)) :=
  if forallb (fun kv => existsb (String.eqb (fst kv)) fields) rowdict
  then Ok (map (fun key => dict_get key rowdict) fields)
  else Raise ValueError.

(** The rows [main] writes after the header. *)
Fixpoint write_rows (results : list LevelResult) : res (list (list (option pyval))) :=
  match results with
  | [] => Ok []
  | r :: results' =>
      row <- writerow fieldnames (result_dict r) ;;
      rest <- write_rows results' ;;
      Ok (row :: rest)
  end.

End CsvOutput.

Import CsvOutput.

(** ** Predicates and sample data used in the statements *)

(** [sys.maxsize]: no list is longer. *)
Definition max_len : Z := 2 ^ 63 - 1.

(** Up to this many samples the float product [len * p] keeps enough
    fraction bits to truncate to the exact floor.  (A run pools far
    fewer: at most 1000 sessions, each adding one sample per 50 ms tick
    of a 120 s window.) *)
Definition max_samples : Z := 2 ^ 46.

(** A finite float of magnitude below 2^127 (the axes drawn by
    [random.uniform(-1, 1)] and [random.uniform(-0.5, 0.5)] are). *)
Definition moderate (x : float) : Prop :=
  match x with
  | S754_zero _ => True
  | S754_finite _ m e => Z.pos (digits2_pos m) + e <= 127
  | _ => False
  end.

Definition no_nan (l : list float) : Prop := Forall (fun x => is_nan x = false) l.

(** [sum] as a left-to-right float addition starting from the int [0]. *)
Definition naive_sum (l : list float) : float := fold_left fadd l (S754_zero false).

Definition zero_stats : LatencyStats :=
  mkStats (PInt 0) (PInt 0) (PInt 0) (PInt 0) (PInt 0) (PInt 0) (PInt 0).

(** The floats 10.0, 20.0, 30.0, 40.0, 100.0, 1.0 and 0.5. *)
Definition f10 : float := S754_finite false 5629499534213120 (-49).
Definition f20 : float := S754_finite false 5629499534213120 (-48).
Definition f30 : float := S754_finite false 8444249301319680 (-48).
Definition f40 : float := S754_finite false 5629499534213120 (-47).
Definition f100 : float := S754_finite false 7036874417766400 (-46).
Definition f1 : float := S754_finite false 4503599627370496 (-52).
Definition f0_5 : float := S754_finite false 4503599627370496 (-53).

Definition sum_Z (l : list Z) : Z := fold_right Z.add 0 l.

(** After [k >= 1] right shifts of the exact record of [X], the record
    holds the quotient, the last bit shifted out and whether anything
    below it was set. *)
Definition shr_inv (X k : Z) (mrs : shr_record) : Prop :=
  0 <= shr_m mrs /\
  exists t, 0 <= t < 2 ^ (k - 1) /\
            X = shr_m mrs * 2 ^ k + b2z (shr_r mrs) * 2 ^ (k - 1) + t /\
            shr_s mrs = negb (t =? 0).

(** The position of a float that is not NaN in the order of [<]: its
    class (negative infinity, negative, zero, positive, positive
    infinity), then exponent and mantissa, reversed for negatives. *)
Definition key (x : float) : Z * Z * Z :=
  match x with
  | S754_infinity true => (-2, 0, 0)
  | S754_finite true m e => (-1, - e, - Z.pos m)
  | S754_zero _ => (0, 0, 0)
  | S754_nan => (0, 0, 0)
  | S754_finite false m e => (1, e, Z.pos m)
  | S754_infinity false => (2, 0, 0)
  end.

Definition lex_lt (a b : Z * Z * Z) : Prop :=
  let '(a1, a2, a3) := a in
  let '(b1, b2, b3) := b in
  a1 < b1 \/ (a1 = b1 /\ (a2 < b2 \/ (a2 = b2 /\ a3 < b3))).

Definition lex_le (a b : Z * Z * Z) : Prop := lex_lt a b \/ a = b.

(** Sorted by [<=] on floats. *)
Definition sorted (l : list float) : Prop :=
  StronglySorted (fun x y => fle x y = true) l.

(** Sorted by [<] on floats: ascending with no two equal values. *)
Definition strictly_sorted (l : list float) : Prop :=
  StronglySorted (fun x y => flt x y = true) l.

(** A session on which nothing has happened beyond the connect attempt. *)
Definition untouched (s : state) : Prop :=
  receive_task s = RIdle /\ websocket (bot s) = false /\
  connected (bot s) = false /\ spawned (bot s) = false /\
  latencies (bot s) = [] /\
  packets_sent (bot s) = 0 /\ packets_received (bot s) = 0 /\ wire s = [].

(** Before the connect attempt completes the session is untouched. *)
Definition connecting_inv (s : state) : Prop :=
  (main_task s = MNew -> untouched s /\ connects s = 0%nat) /\
  (main_task s = MConnect -> untouched s /\ connects s = 1%nat).

(** A session whose only connect attempt has failed. *)
Definition connect_failed (s : state) : Prop :=
  main_task s = MDone /\ untouched s /\ connects s = 1%nat.

(** The main task is past a successful [connect] and before [disconnect]. *)
Definition in_protocol (pc : main_pc) : bool :=
  match pc with
  | MNew | MConnect | MClose | MDone => false
  | _ => true
  end.

(** What the receive task's effects presuppose. *)
Definition session_inv (s : state) : Prop :=
  (receive_task s = RIdle -> spawned (bot s) = false) /\
  (receive_task s <> RIdle -> connected (bot s) = true /\ (1 <= spawn_calls s)%nat) /\
  (in_protocol (main_task s) = true -> connected (bot s) = true).

(** ** Sample sessions, levels and runs *)

Definition f0 : float := S754_zero false.

Definition no_draws : draws := mkDraws f0 f0 f0 None f0 f0 f0 f0.

Definition fresh_session : state :=
  initial (BenchmarkBot_init 0 benchmark_url) 120.

(** The state a trace leads to (the start state if the trace is not
    enabled). *)
Definition final_of (evs : list event) (s0 : state) : state :=
  match run evs s0 with
  | Some s => s
  | None => s0
  end.

(** Connect and Init succeed, the server accepts, both Spawn sends fail,
    and the receive task then reads a frame tagged 2 that was already
    queued. *)
Definition failed_spawns_trace : list event :=
  [ MainResumes Done no_draws;
    MainResumes Done no_draws;
    MainResumes Done no_draws;
    MainResumes (Frame [x07]) no_draws;
    MainResumes Done no_draws;
    MainResumes Failed no_draws;
    MainResumes Done no_draws;
    MainResumes Failed no_draws;
    ReceiverResumes Done;
    ReceiverResumes (Frame [x02]) ].

(** The same with both Spawn sends succeeding. *)
Definition spawned_trace : list event :=
  [ MainResumes Done no_draws;
    MainResumes Done no_draws;
    MainResumes Done no_draws;
    MainResumes (Frame [x07]) no_draws;
    MainResumes Done no_draws;
    MainResumes Done no_draws;
    MainResumes Done no_draws;
    MainResumes Done no_draws;
    ReceiverResumes Done;
    ReceiverResumes (Frame [x02]) ].

(** The task starts and reaches the [await] of [connect]. *)
Definition connecting_trace : list event := [ MainResumes Done no_draws ].

(** A bot that connected, spawned and recorded the given samples. *)
Definition busy_bot (id : Z) (samples : list float) : BenchmarkBot :=
  mkBot id benchmark_url true false true true samples f0
        (3 + Z.of_nat (List.length samples)) 7.

(** Every level observed with bots that never left their initial state. *)
Definition idle_env (num_users : Z) : level_env :=
  mkLevelEnv f0 (make_bots num_users) (make_bots num_users).

Definition patient : operator := mkOperator Enter (fun _ => false).

(** Each level of the sweep observes as many bots as it has users, and
    its pool is a list. *)
Definition plausible (env : Z -> level_env) : Prop :=
  forall n, In n test_cases ->
    Z.of_nat (List.length (env_settled (env n))) = n /\
    Z.of_nat (List.length (List.concat (map latencies (env_final (env n))))) <= max_len.

(** The bots of a level as [run_benchmark] can observe them: the i-th
    is the bot of a session reachable from the initial state of
    [BenchmarkBot(i, url)]. *)
Definition observed (num_users duration : Z) (bots : list BenchmarkBot) : Prop :=
  Forall2 (fun b0 b => exists s, reachable (initial b0 duration) s /\ bot s = b)
          (make_bots num_users) bots.

(** Clock readings and draws for two rounds of the input loop. *)
Definition draws_at (t : float) : draws := mkDraws t t t (Some Up) f1 f1 f0_5 f0_5.

(** A whole session: spawn, two Input rounds, stop by the driver, close. *)
Definition active_trace : list event :=
  spawned_trace ++
  [ MainResumes Done (draws_at f10);
    MainResumes Done no_draws;
    MainResumes Done (draws_at f20);
    MainResumes Done no_draws;
    DriverStops;
    MainResumes Done (draws_at f30);
    MainResumes Done no_draws ].

(** A session whose connect attempt times out, and the driver's stop
    later on. *)
Definition connect_timeout_trace : list event :=
  [ MainResumes Done no_draws; MainResumes Timeout no_draws ].

Definition session_of (id : Z) : state := initial (BenchmarkBot_init id benchmark_url) 120.

Definition bot_after (evs : list event) (id : Z) : BenchmarkBot :=
  bot (final_of evs (session_of id)).

Definition impatient : operator := mkOperator Interrupt (fun _ => false).

(** The session of bot 1 at the [await] of [connect], after the connect
    timeout, and after the driver's stop. *)
Definition connecting_session : state := final_of connecting_trace (session_of 1).

Definition failed_session : state := final_of connect_timeout_trace (session_of 1).

Definition stopped_failed_session : state :=
  final_of (connect_timeout_trace ++ [DriverStops]) (session_of 1).

(** A float that is neither an infinity nor NaN, as every reading of
    [time.time()] is. *)
Definition is_finite (x : float) : bool :=
  match x with
  | S754_zero _ | S754_finite _ _ _ => true
  | _ => false
  end.

(** The clock readings an event hands to the main task are finite. *)
Definition finite_clocks (e : event) : bool :=
  match e with
  | MainResumes _ d =>
      is_finite (clock1 d) && is_finite (clock2 d) && is_finite (clock3 d)
  | _ => true
  end.

(** What the latency samples of a session rest on. *)
Definition timed (s : state) : Prop :=
  is_finite (send_time s) = true /\ no_nan (latencies (bot s)).

(** A bot as a load level leaves it: the bot of some session that ran
    from [BenchmarkBot(id, url)] with finite clock readings. *)
Definition session_bot (b : BenchmarkBot) : Prop :=
  exists id u dur evs s,
    forallb finite_clocks evs = true /\
    run evs (initial (BenchmarkBot_init id u) dur) = Some s /\ bot s = b.

(** A level of three sessions: one ran the input loop, one failed to
    connect, one spawned and stopped. *)
Definition sample_level : list BenchmarkBot :=
  [bot_after active_trace 0; bot_after connect_timeout_trace 1;
   bot_after spawned_trace 2].

(** A session whose three samples come out of order: 30 s, 10 s, 60 s. *)
Definition uneven_trace : list event :=
  spawned_trace ++
  [ MainResumes Done (draws_at f0);
    MainResumes Done (draws_at f0);
    MainResumes Done (draws_at f30);
    MainResumes Done (draws_at f30);
    MainResumes Done (draws_at f40);
    MainResumes Done (draws_at f40);
    MainResumes Done (draws_at f100) ].

(** A level of two sessions whose pool is not in ascending order. *)
Definition uneven_level : list BenchmarkBot :=
  [bot_after uneven_trace 0; bot_after active_trace 1].

(** The integer part of [T * 2^E] for [T >= 0]. *)
Definition floor_scaled (T E : Z) : Z :=
  if E <? 0 then T / 2 ^ (- E) else T * 2 ^ E.

(** ** Predicates and sample data of the further properties *)

(** A character of a decimal numeral: a digit or the minus sign. *)
Definition numeral_char (c : ascii) : bool :=
  match c with
  | "-"%char | "0"%char | "1"%char | "2"%char | "3"%char | "4"%char
  | "5"%char | "6"%char | "7"%char | "8"%char | "9"%char => true
  | _ => false
  end.

(** Every character of a string satisfies [p]. *)
Fixpoint string_forall (p : ascii -> bool) (s : string) : bool :=
  match s with
  | EmptyString => true
  | String c s' => p c && string_forall p s'
  end.

(** A frame shaped as an Input message: tag 1, 21 bytes. *)
Definition input_frame (f : list byte) : Prop :=
  frame_tag f = Some (ServerBound_value Input) /\ List.length f = 21%nat.

(** The Input frames among the frames sent so far. *)
Definition input_frames_sent (s : state) : nat :=
  List.length (filter (fun f => match frame_tag f with
                                | Some t => t =? ServerBound_value Input
                                | None => false
                                end) (wire s)).

(** Frames in protocol order: the Init frame, [k] Spawn frames naming
    the bot, then [n] Input frames. *)
Definition sent_shape (id : Z) (k n : nat) (w : list (list byte)) : Prop :=
  exists i sn ins,
    init_packet = Ok i /\ spawn_packet id = Ok sn /\
    List.length ins = n /\ Forall input_frame ins /\
    w = i :: repeat sn k ++ ins.

(** What is on the wire, what waits to be sent and how many samples are
    recorded, by the position of the main task. *)
Definition wire_inv (s : state) : Prop :=
  let id := bot_id (bot s) in
  let w := wire s in
  let n := List.length (latencies (bot s)) in
  let sc := spawn_calls s in
  match main_task s with
  | MNew | MConnect => w = [] /\ n = 0%nat /\ sc = 0%nat
  | MSendInit => w = [] /\ n = 0%nat /\ sc = 0%nat /\ init_packet = Ok (pending s)
  | MAccept _ | MSettle => sent_shape id 0 0 w /\ n = 0%nat /\ sc = 0%nat
  | MSpawn1 =>
      sent_shape id 0 0 w /\ n = 0%nat /\ sc = 1%nat /\ spawn_packet id = Ok (pending s)
  | MSleep1 => (exists k, (k <= 1)%nat /\ sent_shape id k 0 w) /\ n = 0%nat /\ sc = 1%nat
  | MSpawn2 =>
      (exists k, (k <= 1)%nat /\ sent_shape id k 0 w) /\ n = 0%nat /\ sc = 2%nat /\
      spawn_packet id = Ok (pending s)
  | MSleep2 => (exists k, (k <= 2)%nat /\ sent_shape id k 0 w) /\ n = 0%nat /\ sc = 2%nat
  | MSendInput =>
      (exists k, (k <= 2)%nat /\ sent_shape id k n w) /\ sc = 2%nat /\
      input_frame (pending s)
  | MTick => (exists k, (k <= 2)%nat /\ sent_shape id k (S n) w) /\ sc = 2%nat
  | MClose | MDone =>
      (w = [] /\ n = 0%nat /\ sc = 0%nat) \/
      ((exists k, (k <= sc)%nat /\ sent_shape id k n w) /\ (sc <= 2)%nat /\
       (n = 0%nat \/ sc = 2%nat))
  end.

(** The main task has left the measuring code: it is in [disconnect]
    or has returned. *)
Definition finished (pc : main_pc) : bool :=
  match pc with
  | MClose | MDone => true
  | _ => false
  end.

(** The main task has not come back from [connect] yet. *)
Definition connecting (pc : main_pc) : bool :=
  match pc with
  | MNew | MConnect => true
  | _ => false
  end.

(** How the bookkeeping attributes of a session hang together. *)
Definition lifecycle_inv (s : state) : Prop :=
  websocket (bot s) = connected (bot s) /\
  packets_sent (bot s) = Z.of_nat (List.length (wire s)) /\
  (in_protocol (main_task s) = true -> connected (bot s) = true) /\
  (main_task s = MClose -> connected (bot s) = true) /\
  (connecting (main_task s) = true -> connected (bot s) = false) /\
  (finished (main_task s) = true -> connected (bot s) = true -> running (bot s) = false) /\
  (connected (bot s) = false ->
   latencies (bot s) = [] /\ spawned (bot s) = false /\ receive_task s = RIdle).

(** The driver's stop is not among the events. *)
Definition undisturbed (e : event) : bool :=
  match e with
  | DriverStops => false
  | _ => true
  end.

(** [running] while nobody but the session itself writes it. *)
Definition running_inv (s : state) : Prop :=
  running (bot s) = negb (connected (bot s) && finished (main_task s)) /\
  (in_protocol (main_task s) = true -> connected (bot s) = true) /\
  (connecting (main_task s) = true -> connected (bot s) = false) /\
  websocket (bot s) = connected (bot s).

(** The frames an event delivers to the session. *)
Definition delivers (e : event) : nat :=
  match e with
  | MainResumes (Frame _) _ | ReceiverResumes (Frame _) => 1
  | _ => 0
  end.

(** The later state of a session only adds to the earlier one. *)
Definition extends (s s' : state) : Prop :=
  bot_id (bot s') = bot_id (bot s) /\ url (bot s') = url (bot s) /\
  (connected (bot s) = true -> connected (bot s') = true) /\
  (spawned (bot s) = true -> spawned (bot s') = true) /\
  (running (bot s) = false -> running (bot s') = false) /\
  packets_sent (bot s) <= packets_sent (bot s') /\
  packets_received (bot s) <= packets_received (bot s') /\
  (exists more, latencies (bot s') = latencies (bot s) ++ more) /\
  (exists more, wire s' = wire s ++ more).

(** A stopped session has at most one sample left to record. *)
Definition winding_down (bound : nat) (s : state) : Prop :=
  running (bot s) = false /\
  (List.length (latencies (bot s)) + (if finished (main_task s) then 0 else 1) <= bound)%nat.

(** The handshake poll reads at most ten frames, all of them before the
    receive task exists. *)
Definition handshake_inv (s : state) : Prop :=
  match main_task s with
  | MNew | MConnect | MSendInit => packets_received (bot s) = 0 /\ receive_task s = RIdle
  | MAccept k =>
      (k <= 9)%nat /\ 0 <= packets_received (bot s) <= 9 - Z.of_nat k /\
      receive_task s = RIdle
  | MSettle => 0 <= packets_received (bot s) <= 10 /\ receive_task s = RIdle
  | _ => receive_task s = RIdle -> 0 <= packets_received (bot s) <= 10
  end.

(** A poll of the handshake that brings no Accept: a timeout, or a
    frame that is not tagged 7. *)
Definition unanswered (o : outcome) : bool :=
  match o with
  | Timeout => true
  | Frame msg => negb (is_accept msg)
  | _ => false
  end.

(** The frames among some outcomes. *)
Definition frames_among (os : list outcome) : nat :=
  List.length (filter (fun o => match o with Frame _ => true | _ => false end) os).

(** A reading of [time.time()]: a finite double in canonical form. *)
Definition clock_reading (t : float) : bool :=
  is_finite t && valid_binary prec emax t.

(** Zero or above (an infinity included). *)
Definition nonneg (x : float) : bool :=
  match x with
  | S754_zero _ | S754_finite false _ _ | S754_infinity false => true
  | _ => false
  end.

(** The clock fields of an event, in the order the main task reads
    them.  (The fields of an event at which the task reads no clock, or
    fewer, play no part in the run.) *)
Definition readings (e : event) : list float :=
  match e with
  | MainResumes _ d => [clock1 d; clock2 d; clock3 d]
  | _ => []
  end.

(** No element is above a later one. *)
Fixpoint ascending (l : list float) : bool :=
  match l with
  | [] => true
  | x :: l' => forallb (fle x) l' && ascending l'
  end.

(** The clock never steps back along the events. *)
Definition steady_clock (evs : list event) : bool :=
  forallb clock_reading (flat_map readings evs) && ascending (flat_map readings evs).

(** What the samples of a session rest on when the clock is steady:
    [future] are the readings still to come. *)
Definition clocked (future : list float) (s : state) : Prop :=
  Forall (fun x => nonneg x = true) (latencies (bot s)) /\
  (match main_task s with MSendInput | MTick => True | _ => False end ->
   clock_reading (send_time s) = true /\
   forallb (fle (send_time s)) future = true).

(** The session of [active_trace] with a clock that advances. *)
Definition steady_trace : list event :=
  spawned_trace ++
  [ MainResumes Done (draws_at f10);
    MainResumes Done (draws_at f10);
    MainResumes Done (draws_at f20);
    MainResumes Done (draws_at f20);
    DriverStops;
    MainResumes Done (draws_at f30);
    MainResumes Done (draws_at f30) ].

(** The event hands the receive loop a frame tagged 0 or 2. *)
Definition announces (e : event) : bool :=
  match e with
  | ReceiverResumes (Frame msg) => is_spawn_or_update msg
  | _ => false
  end.

(** A session that gave up before its receive task was created: the
    main task is in [disconnect] or has returned, and what it leaves
    behind. *)
Definition gave_up (w : list (list byte)) (s : state) : Prop :=
  finished (main_task s) = true /\ receive_task s = RIdle /\
  connected (bot s) = true /\ running (bot s) = false /\
  spawned (bot s) = false /\ latencies (bot s) = [] /\
  spawn_calls s = 0%nat /\ wire s = w.

(** The session of bot 0 waiting for its Init frame to be sent. *)
Definition init_pending_session : state := final_of (firstn 2 spawned_trace) (session_of 0).


(** * Proofs *)

(** ** The float literals *)

Lemma literals_are_nearest_doubles :
  Prim2SF 0.95%float = lit_0_95 /\
  Prim2SF 0.99%float = lit_0_99 /\
  Prim2SF 0.995%float = lit_0_995 /\
  Prim2SF 10%float = f10 /\ Prim2SF 20%float = f20 /\ Prim2SF 30%float = f30 /\
  Prim2SF 40%float = f40 /\ Prim2SF 100%float = f100 /\
  Prim2SF 1%float = f1 /\ Prim2SF 0.5%float = f0_5.
Proof. repeat split; vm_compute; reflexivity. Qed.

(** ** Rounding: shifting a mantissa right *)

Lemma iter_pos_nat {A} (f : A -> A) p x :
  iter_pos f p x = Nat.iter (Pos.to_nat p) f x.
Proof.
  revert x. induction p as [p IH | p IH |]; intro x; cbn [iter_pos].
  - rewrite !IH, Pos2Nat.inj_xI.
    replace (S (2 * Pos.to_nat p)) with (Pos.to_nat p + (Pos.to_nat p + 1))%nat by lia.
    rewrite !Nat.iter_add. reflexivity.
  - rewrite !IH, Pos2Nat.inj_xO.
    replace (2 * Pos.to_nat p)%nat with (Pos.to_nat p + Pos.to_nat p)%nat by lia.
    rewrite Nat.iter_add. reflexivity.
  - reflexivity.
Qed.

Lemma pow2_pred k : 1 <= k -> 2 ^ k = 2 * 2 ^ (k - 1).
Proof.
  intro Hk. replace k with (Z.succ (k - 1)) at 1 by lia.
  apply Z.pow_succ_r. lia.
Qed.

Lemma shr_1_halves mrs :
  0 <= shr_m mrs ->
  exists m' r', shr_1 mrs = {| shr_m := m'; shr_r := r'; shr_s := shr_r mrs || shr_s mrs |}
                /\ 0 <= m' /\ shr_m mrs = 2 * m' + b2z r'.
Proof.
  destruct mrs as [m r s]. cbn [shr_m shr_r shr_s]. intro Hm.
  destruct m as [| [p | p |] |]; cbn [shr_1]; try lia.
  - exists 0, false. cbn [b2z]. repeat split; lia.
  - exists (Z.pos p), true. cbn [b2z]. repeat split; lia.
  - exists (Z.pos p), false. cbn [b2z]. repeat split; lia.
  - exists 0, true. cbn [b2z]. repeat split; lia.
Qed.

Lemma shr_1_first X : 0 <= X -> shr_inv X 1 (shr_1 (Build_shr_record X false false)).
Proof.
  intro HX.
  destruct (shr_1_halves (Build_shr_record X false false) HX) as [m' [r' [-> [Hm' Em]]]].
  cbn [shr_m shr_r shr_s orb] in *. split; [exact Hm' |].
  exists 0. cbn [shr_m shr_r shr_s]. change (2 ^ (1 - 1)) with 1. change (2 ^ 1) with 2.
  repeat split; try lia.
Qed.

Lemma shr_1_step X k mrs : 1 <= k -> shr_inv X k mrs -> shr_inv X (k + 1) (shr_1 mrs).
Proof.
  intros Hk [Hm [t [Ht [HX Hs]]]].
  destruct (shr_1_halves mrs Hm) as [m' [r' [-> [Hm' Em]]]].
  pose proof (pow2_pred k Hk) as E1.
  assert (E2 : 2 ^ (k + 1) = 2 * 2 ^ k) by (apply Z.pow_succ_r; lia).
  assert (Hp : 0 < 2 ^ (k - 1)) by (apply Z.pow_pos_nonneg; lia).
  split; [exact Hm' |]. cbn [shr_m shr_r shr_s].
  replace (k + 1 - 1) with k by lia.
  exists (b2z (shr_r mrs) * 2 ^ (k - 1) + t). repeat split.
  - destruct (shr_r mrs); cbn [b2z]; lia.
  - destruct (shr_r mrs); cbn [b2z]; lia.
  - rewrite HX, Em. destruct r'; cbn [b2z]; lia.
  - rewrite Hs. destruct (shr_r mrs); cbn [b2z orb].
    + symmetry. apply negb_true_iff. apply Z.eqb_neq. lia.
    + rewrite Z.mul_0_l, Z.add_0_l. reflexivity.
Qed.

Lemma shr_iter_nat X n : 0 <= X ->
  shr_inv X (Z.of_nat (S n)) (Nat.iter (S n) shr_1 (Build_shr_record X false false)).
Proof.
  intro HX. induction n as [| n IH].
  - apply shr_1_first. exact HX.
  - change (Nat.iter (S (S n)) shr_1 ?x) with (shr_1 (Nat.iter (S n) shr_1 x)).
    replace (Z.of_nat (S (S n))) with (Z.of_nat (S n) + 1) by lia.
    apply shr_1_step; [lia | exact IH].
Qed.

Lemma shr_iter X p : 0 <= X ->
  shr_inv X (Z.pos p) (iter_pos shr_1 p (Build_shr_record X false false)).
Proof.
  intro HX. rewrite iter_pos_nat.
  destruct (Pos2Nat.is_succ p) as [n Hn].
  rewrite <- (positive_nat_Z p), Hn.
  apply shr_iter_nat. exact HX.
Qed.

(** Rounding to nearest even moves the shifted mantissa by at most half
    a unit of the last place kept. *)
Lemma rne_bound X k mrs : 1 <= k -> shr_inv X k mrs ->
  let m2 := round_nearest_even (shr_m mrs) (loc_of_shr_record mrs) in
  shr_m mrs <= m2 <= shr_m mrs + 1 /\
  2 * m2 * 2 ^ k - 2 ^ k <= 2 * X <= 2 * m2 * 2 ^ k + 2 ^ k.
Proof.
  intros Hk [Hm [t [Ht [HX Hs]]]].
  pose proof (pow2_pred k Hk) as E1.
  destruct mrs as [m r s]. cbn [shr_m shr_r shr_s] in *.
  destruct r, s; cbn [b2z round_nearest_even loc_of_shr_record] in *;
    try destruct (Z.even m); lia.
Qed.

(** ** Bit lengths *)

Lemma digits2_pos_size p : digits2_pos p = Pos.size p.
Proof. induction p; cbn; congruence. Qed.

Lemma digits2_pos_bounds p :
  2 ^ (Z.pos (digits2_pos p) - 1) <= Z.pos p < 2 ^ Z.pos (digits2_pos p).
Proof.
  rewrite digits2_pos_size.
  pose proof (Pos.size_gt p) as Hgt. pose proof (Pos.size_le p) as Hle.
  apply Pos2Z.pos_lt_pos in Hgt. apply Pos2Z.pos_le_pos in Hle.
  rewrite Pos2Z.inj_pow in Hgt, Hle. rewrite Pos2Z.inj_xO in Hle.
  change ((2 * 1) ^ Z.pos (Pos.size p)) with (2 ^ Z.pos (Pos.size p)) in Hle.
  pose proof (pow2_pred (Z.pos (Pos.size p)) ltac:(lia)). lia.
Qed.

Lemma pow2_le_1 d : d <= 0 -> 2 ^ d <= 1.
Proof.
  intro Hd. destruct (Z.eq_dec d 0) as [-> | Hne]; [simpl; lia |].
  rewrite Z.pow_neg_r by lia. lia.
Qed.

Lemma digits2_pos_unique p d :
  2 ^ (d - 1) <= Z.pos p < 2 ^ d -> Z.pos (digits2_pos p) = d.
Proof.
  intros [Hlo Hhi]. pose proof (digits2_pos_bounds p) as [Blo Bhi].
  set (g := Z.pos (digits2_pos p)) in *.
  assert (Hg : 1 <= g) by (subst g; lia).
  assert (Hd : 1 <= d).
  { destruct (Z_lt_le_dec d 1) as [Hlt |]; [| assumption].
    pose proof (pow2_le_1 d ltac:(lia)). lia. }
  destruct (Z_lt_le_dec g d) as [Hlt | Hge].
  - assert (2 ^ g <= 2 ^ (d - 1)) by (apply Z.pow_le_mono_r; lia). lia.
  - destruct (Z_lt_le_dec d g) as [Hlt' | Hge']; [| lia].
    assert (2 ^ d <= 2 ^ (g - 1)) by (apply Z.pow_le_mono_r; lia). lia.
Qed.

Lemma digits2_pos_le p d : 0 <= d -> Z.pos p < 2 ^ d -> Z.pos (digits2_pos p) <= d.
Proof.
  intros Hd Hp. pose proof (digits2_pos_bounds p) as [Blo _].
  destruct (Z_lt_le_dec d (Z.pos (digits2_pos p))) as [Hlt |]; [| lia].
  assert (2 ^ d <= 2 ^ (Z.pos (digits2_pos p) - 1)) by (apply Z.pow_le_mono_r; lia).
  lia.
Qed.

Lemma iter_xO_pow p k : Z.pos (Pos.iter xO p k) = Z.pos p * 2 ^ Z.pos k.
Proof.
  induction k as [| k IH] using Pos.peano_ind.
  - cbn [Pos.iter]. rewrite Pos2Z.inj_xO. change (2 ^ 1) with 2. lia.
  - rewrite Pos.iter_succ, Pos2Z.inj_xO, IH, Pos2Z.inj_succ, Z.pow_succ_r by lia. lia.
Qed.

(** ** Rounding a binary64 mantissa *)

(** A 53-bit mantissa in the exponent range is returned as it is. *)
Lemma round_aux_exact s pm E :
  Z.pos (digits2_pos pm) = 53 -> -1074 <= E <= 971 ->
  binary_round_aux prec emax s (Z.pos pm) E loc_Exact = S754_finite s pm E.
Proof.
  intros Hd HE.
  unfold binary_round_aux, shr_fexp, fexp, emin, Zdigits2, prec, emax.
  rewrite Hd.
  replace (Z.max (53 + E - 53) (3 - 1024 - 53) - E) with 0 by lia.
  cbn [shr shr_record_of_loc shr_m loc_of_shr_record round_nearest_even].
  rewrite Hd.
  replace (Z.max (53 + E - 53) (3 - 1024 - 53) - E) with 0 by lia.
  cbn [shr shr_record_of_loc shr_m].
  replace (E <=? 1024 - 53) with true by (symmetry; apply Z.leb_le; lia).
  reflexivity.
Qed.

(** A mantissa of [53 + n1] bits is rounded to nearest at bit [n1]; the
    integer part of the result is the rounded mantissa shifted by the
    (negative) exponent. *)
Lemma round_aux_shift pm E n1 :
  Z.pos (digits2_pos pm) = 53 + n1 -> 1 <= n1 -> -1074 <= E + n1 < 0 ->
  exists m2,
    (2 * m2 * 2 ^ n1 - 2 ^ n1 <= 2 * Z.pos pm <= 2 * m2 * 2 ^ n1 + 2 ^ n1) /\
    int_of_float (binary_round_aux prec emax false (Z.pos pm) E loc_Exact)
    = Ok (m2 / 2 ^ (- (E + n1))).
Proof.
  intros Hd Hn HE.
  pose proof (digits2_pos_bounds pm) as [Blo Bhi]. rewrite Hd in Blo, Bhi.
  replace (53 + n1 - 1) with (52 + n1) in Blo by lia.
  rewrite Z.pow_add_r in Blo, Bhi by lia.
  unfold binary_round_aux, shr_fexp, fexp, emin, prec, emax.
  cbn [Zdigits2]. rewrite Hd.
  replace (Z.max (53 + n1 + E - 53) (3 - 1024 - 53) - E) with n1 by lia.
  destruct n1 as [| pn |]; try lia.
  cbn [shr shr_record_of_loc].
  pose proof (shr_iter (Z.pos pm) pn ltac:(lia)) as Hinv.
  pose proof (rne_bound _ _ _ Hn Hinv) as [Hm2 Hb]. cbn zeta in Hm2, Hb.
  destruct Hinv as [Hm0 [t [Ht [HX _]]]].
  set (mrs := iter_pos shr_1 pn _) in *.
  set (m2 := round_nearest_even (shr_m mrs) (loc_of_shr_record mrs)) in *.
  set (Y := 2 ^ Z.pos pn) in *.
  assert (HY : 0 < Y) by (subst Y; apply Z.pow_pos_nonneg; lia).
  assert (E1 : Y = 2 * 2 ^ (Z.pos pn - 1)) by (subst Y; apply pow2_pred; lia).
  assert (Hr : 0 <= b2z (shr_r mrs) <= 1) by (destruct (shr_r mrs); cbn; lia).
  assert (Hlo : 2 ^ 52 <= shr_m mrs) by nia.
  assert (Hhi : shr_m mrs < 2 ^ 53) by nia.
  exists m2. split; [exact Hb |].
  destruct (Z.eq_dec m2 (2 ^ 53)) as [Heq | Hne].
  - (* the rounding carried into a 54th bit: one more exact shift *)
    rewrite Heq.
    cbn [Zdigits2 Z.pow Z.pow_pos Pos.iter Z.mul Pos.mul digits2_pos Pos.succ].
    replace (Z.max (54 + (E + Z.pos pn) - 53) (3 - 1024 - 53) - (E + Z.pos pn))
      with 1 by lia.
    cbn [shr iter_pos shr_1 shr_m].
    replace (E + Z.pos pn + 1 <=? 1024 - 53) with true by (symmetry; apply Z.leb_le; lia).
    cbn [int_of_float cond_Zopp]. f_equal.
    destruct (Z.eq_dec (E + Z.pos pn + 1) 0) as [E0 | E0].
    + rewrite E0. replace (- (E + Z.pos pn)) with 1 by lia. reflexivity.
    + destruct (E + Z.pos pn + 1) as [| q | q] eqn:Eq; try lia.
      replace (- (E + Z.pos pn)) with (Z.pos q + 1) by lia.
      rewrite Z.pow_add_r by lia.
      change 9007199254740992 with (4503599627370496 * 2 ^ 1).
      rewrite Z.div_mul_cancel_r; [reflexivity | | lia].
      apply Z.pow_nonzero; lia.
  - assert (Hm2' : 2 ^ 52 <= m2 < 2 ^ 53) by lia.
    destruct m2 as [| pm2 |] eqn:Em2; try lia.
    assert (Hd2 : Z.pos (digits2_pos pm2) = 53) by (apply digits2_pos_unique; simpl; lia).
    cbn [Zdigits2]. rewrite Hd2.
    replace (Z.max (53 + (E + Z.pos pn) - 53) (3 - 1024 - 53) - (E + Z.pos pn))
      with 0 by lia.
    cbn [shr shr_record_of_loc shr_m].
    replace (E + Z.pos pn <=? 1024 - 53) with true by (symmetry; apply Z.leb_le; lia).
    cbn [int_of_float cond_Zopp]. f_equal.
    destruct (E + Z.pos pn) as [| q | q] eqn:Eq; try lia.
    reflexivity.
Qed.

(** ** Converting an int below 2^53 *)

Lemma float_of_int_normal pN :
  Z.pos pN < 2 ^ 53 ->
  let d := Z.pos (digits2_pos pN) in
  exists pw,
    Z.pos pw = Z.pos pN * 2 ^ (53 - d) /\ 2 ^ 52 <= Z.pos pw < 2 ^ 53 /\ 1 <= d <= 53 /\
    float_of_int (Z.pos pN) = Ok (S754_finite false pw (d - 53)).
Proof.
  intros HN d.
  pose proof (digits2_pos_bounds pN) as [Blo Bhi]. fold d in Blo, Bhi.
  assert (Hd1 : 1 <= d) by (subst d; lia).
  assert (Hd53 : d <= 53) by (apply digits2_pos_le; lia).
  assert (Hpow : 2 ^ (d - 1) * 2 ^ (53 - d) = 2 ^ 52).
  { rewrite <- Z.pow_add_r by lia. f_equal. lia. }
  assert (Hpow' : 2 ^ d * 2 ^ (53 - d) = 2 ^ 53).
  { rewrite <- Z.pow_add_r by lia. f_equal. lia. }
  assert (HP : 0 < 2 ^ (53 - d)) by (apply Z.pow_pos_nonneg; lia).
  unfold float_of_int, binary_normalize, binary_round, fexp, emin, prec, emax.
  fold d.
  replace (Z.max (d + 0 - 53) (3 - 1024 - 53)) with (d - 53) by lia.
  unfold shl_align.
  destruct (d - 53 - 0) as [| k | k] eqn:Ek; try lia.
  - assert (d = 53) by lia.
    exists pN. replace (53 - d) with 0 by lia. rewrite Z.pow_0_r, Z.mul_1_r.
    repeat split; try lia.
    + replace (d - 1) with 52 in Blo by lia. exact Blo.
    + replace (d - 53) with 0 by lia.
      rewrite round_aux_exact; [reflexivity | subst d; lia | lia].
  - exists (Pos.iter xO pN k).
    assert (Ek' : 53 - d = Z.pos k) by lia.
    assert (Hw : Z.pos (Pos.iter xO pN k) = Z.pos pN * 2 ^ (53 - d)).
    { rewrite iter_xO_pow, Ek'. reflexivity. }
    assert (Hwb : 2 ^ 52 <= Z.pos (Pos.iter xO pN k) < 2 ^ 53).
    { rewrite Hw. nia. }
    repeat split; try lia.
    rewrite round_aux_exact; [reflexivity | | lia].
    apply digits2_pos_unique. simpl. lia.
Qed.

(** ** The percentile index is the exact floor *)

(** For a literal [pc * 2^-53] just below the fraction [a / b], and a
    sample count below 2^46, the float product truncates to the floor of
    the exact product [a * N / b]. *)
Lemma percentile_index_floor (pc : positive) (a b : Z) :
  2 ^ 52 <= Z.pos pc < 2 ^ 53 ->
  0 < a < b -> b < 2 ^ 8 ->
  0 <= a * 2 ^ 53 - b * Z.pos pc ->
  (a * 2 ^ 53 - b * Z.pos pc) * 2 ^ 54 < b * Z.pos pc ->
  forall N, 1 <= N < 2 ^ 46 ->
  percentile_index N (S754_finite false pc (-53)) = Ok (a * N / b).
Proof.
  intros Hpc Hab Hb256 Hr0 Hr1 N [HN1 HN2].
  destruct N as [| pN |]; try lia.
  destruct (float_of_int_normal pN ltac:(lia)) as [pw [Hw [Hwb [Hd Hf]]]].
  set (d := Z.pos (digits2_pos pN)) in *.
  pose proof (digits2_pos_bounds pN) as [Blo Bhi]. fold d in Blo, Bhi.
  assert (Hd46 : d <= 46) by (apply digits2_pos_le; lia).
  unfold percentile_index, int_mul_float. rewrite Hf. cbn [bind].
  unfold fmul. cbn [SFmul xorb].
  set (pM := (pw * pc)%positive).
  set (mc := Z.pos pc) in *. set (W := Z.pos pw) in *.
  assert (HM : Z.pos pM = W * mc) by (subst pM W mc; lia).
  assert (HMb : 2 ^ 104 <= Z.pos pM < 2 ^ 106).
  { rewrite HM. change (2 ^ 104) with (2 ^ 52 * 2 ^ 52).
    change (2 ^ 106) with (2 ^ 53 * 2 ^ 53). split.
    - apply Z.mul_le_mono_nonneg; lia.
    - apply Z.mul_lt_mono_nonneg; lia. }
  pose proof (digits2_pos_bounds pM) as [Mlo Mhi].
  set (g := Z.pos (digits2_pos pM)) in *.
  assert (Hg : g = 105 \/ g = 106).
  { destruct (Z_lt_le_dec g 105) as [Hlt |].
    - assert (2 ^ g <= 2 ^ 104) by (apply Z.pow_le_mono_r; lia). lia.
    - destruct (Z_lt_le_dec 106 g) as [Hlt |]; [| lia].
      assert (2 ^ 106 <= 2 ^ (g - 1)) by (apply Z.pow_le_mono_r; lia). lia. }
  set (P := 2 ^ (53 - d)) in *.
  assert (HP : 2 ^ 7 <= P) by (subst P; apply Z.pow_le_mono_r; lia).
  set (q := a * Z.pos pN / b).
  assert (Hq : b * q <= a * Z.pos pN <= b * q + (b - 1)).
  { subst q. pose proof (Z.div_mod (a * Z.pos pN) b ltac:(lia)).
    pose proof (Z.mod_pos_bound (a * Z.pos pN) b ltac:(lia)). lia. }
  assert (Hq0 : 0 <= q)
    by (subst q; apply Z.div_pos; [apply Z.mul_nonneg_nonneg |]; lia).
  assert (HqP : b * (q * P) <= a * W <= b * (q * P) + (b - 1) * P).
  { rewrite Hw. split.
    - replace (b * (q * P)) with (b * q * P) by ring.
      replace (a * (Z.pos pN * P)) with (a * Z.pos pN * P) by ring.
      apply Z.mul_le_mono_nonneg_r; lia.
    - replace (b * (q * P) + (b - 1) * P) with ((b * q + (b - 1)) * P) by ring.
      replace (a * (Z.pos pN * P)) with (a * Z.pos pN * P) by ring.
      apply Z.mul_le_mono_nonneg_r; lia. }
  destruct (round_aux_shift pM (d - 53 + -53) (g - 53)) as [m2 [Hb Hr]];
    [subst g; lia | lia | lia |].
  rewrite Hr. f_equal. symmetry.
  replace (- (d - 53 + -53 + (g - 53))) with ((53 - d) + (106 - g)) by lia.
  rewrite Z.pow_add_r by lia. fold P.
  set (r := a * 2 ^ 53 - b * mc) in *.
  assert (HbM : b * Z.pos pM = a * W * 2 ^ 53 - r * W) by (rewrite HM; subst r; ring).
  set (QP := q * P) in *. set (M := Z.pos pM) in *.
  assert (HrW : 0 <= r * W) by (apply Z.mul_nonneg_nonneg; lia).
  (* the error of the literal stays below half an ulp of the product *)
  assert (Hsmall : r * W * 2 ^ 54 <= b * M).
  { rewrite HM. replace (b * (W * mc)) with (b * mc * W) by ring.
    replace (r * W * 2 ^ 54) with (r * 2 ^ 54 * W) by ring.
    apply Z.mul_le_mono_nonneg_r; lia. }
  assert (HbP : b < 2 * P) by lia.
  apply Z.div_unique with (r := m2 - P * 2 ^ (106 - g) * q); [left | lia].
  destruct Hg as [Eg | Eg]; rewrite Eg in *.
  - change (2 ^ (105 - 53)) with (2 ^ 52) in Hb. change (2 ^ (106 - 105)) with 2.
    change (2 ^ (105 - 1)) with (2 ^ 104) in Mlo.
    replace (P * 2 * q) with (2 * QP) by (subst QP; ring).
    assert (S1 : b * (2 * m2 * 2 ^ 52 - 2 ^ 52) <= b * (2 * M))
      by (apply Z.mul_le_mono_nonneg_l; lia).
    assert (S2 : b * (2 * M) <= b * (2 * m2 * 2 ^ 52 + 2 ^ 52))
      by (apply Z.mul_le_mono_nonneg_l; lia).
    assert (S3 : b * M < b * 2 ^ 105) by (apply Z.mul_lt_mono_pos_l; lia).
    split.
    + apply Z.le_0_sub. apply Z.nlt_ge. intro Hc.
      assert (b * m2 <= b * (2 * QP - 1)) by (apply Z.mul_le_mono_nonneg_l; lia).
      lia.
    + apply Z.nle_gt. intro Hc.
      assert (b * (2 * QP + 2 * P) <= b * m2) by (apply Z.mul_le_mono_nonneg_l; lia).
      lia.
  - change (2 ^ (106 - 53)) with (2 ^ 53) in Hb. change (2 ^ (106 - 106)) with 1.
    change (2 ^ (106 - 1)) with (2 ^ 105) in Mlo.
    replace (P * 1 * q) with QP by (subst QP; ring).
    assert (S1 : b * (2 * m2 * 2 ^ 53 - 2 ^ 53) <= b * (2 * M))
      by (apply Z.mul_le_mono_nonneg_l; lia).
    assert (S2 : b * (2 * M) <= b * (2 * m2 * 2 ^ 53 + 2 ^ 53))
      by (apply Z.mul_le_mono_nonneg_l; lia).
    assert (S3 : b * M < b * 2 ^ 106) by (apply Z.mul_lt_mono_pos_l; lia).
    split.
    + apply Z.le_0_sub. apply Z.nlt_ge. intro Hc.
      assert (b * m2 <= b * (QP - 1)) by (apply Z.mul_le_mono_nonneg_l; lia).
      lia.
    + apply Z.nle_gt. intro Hc.
      assert (b * (QP + P) <= b * m2) by (apply Z.mul_le_mono_nonneg_l; lia).
      lia.
Qed.

Lemma percentile_index_0_95 N : 1 <= N < max_samples ->
  percentile_index N lit_0_95 = Ok (95 * N / 100).
Proof.
  intro HN. unfold lit_0_95.
  rewrite (percentile_index_floor 8556839292003942 19 20) by (try exact HN; lia).
  f_equal. replace (95 * N) with (19 * N * 5) by lia.
  change 100 with (20 * 5). rewrite Z.div_mul_cancel_r by lia. reflexivity.
Qed.

Lemma percentile_index_0_99 N : 1 <= N < max_samples ->
  percentile_index N lit_0_99 = Ok (99 * N / 100).
Proof.
  intro HN. unfold lit_0_99.
  rewrite (percentile_index_floor 8917127262193582 99 100) by (try exact HN; lia).
  reflexivity.
Qed.

Lemma percentile_index_0_995 N : 1 <= N < max_samples ->
  percentile_index N lit_0_995 = Ok (995 * N / 1000).
Proof.
  intro HN. unfold lit_0_995.
  rewrite (percentile_index_floor 8962163258467287 199 200) by (try exact HN; lia).
  f_equal. replace (995 * N) with (199 * N * 5) by lia.
  change 1000 with (200 * 5). rewrite Z.div_mul_cancel_r by lia. reflexivity.
Qed.

(** ** Percentile indices for every length *)

Lemma int_of_float_finite pm k :
  int_of_float (S754_finite false pm k) = Ok (floor_scaled (Z.pos pm) k).
Proof.
  unfold int_of_float, floor_scaled. cbn [cond_Zopp].
  destruct k as [| q | q]; cbn [Z.ltb Z.compare Z.opp]; reflexivity.
Qed.

Lemma floor_scaled_shift x n E :
  0 <= n -> floor_scaled (x * 2 ^ n) E = floor_scaled x (E + n).
Proof.
  intro Hn. unfold floor_scaled.
  assert (Hp : 0 < 2 ^ n) by (apply Z.pow_pos_nonneg; lia).
  destruct (Z.ltb_spec E 0) as [HE | HE]; destruct (Z.ltb_spec (E + n) 0) as [HEn | HEn];
    try lia.
  - replace (- E) with (- (E + n) + n) by lia.
    rewrite Z.pow_add_r by lia.
    rewrite Z.div_mul_cancel_r; [reflexivity | apply Z.pow_nonzero; lia | lia].
  - replace n with ((E + n) + - E) at 1 by lia.
    rewrite Z.pow_add_r by lia. rewrite Z.mul_assoc.
    rewrite Z.div_mul; [reflexivity | apply Z.pow_nonzero; lia].
  - rewrite Z.pow_add_r by lia. ring.
Qed.

Lemma floor_scaled_mono T T' E : 0 <= T <= T' -> floor_scaled T E <= floor_scaled T' E.
Proof.
  intro H. unfold floor_scaled. destruct (Z.ltb_spec E 0).
  - apply Z.div_le_mono; [apply Z.pow_pos_nonneg; lia | lia].
  - apply Z.mul_le_mono_nonneg_r; [apply Z.pow_nonneg; lia | lia].
Qed.

(** The shape of a rounded mantissa of [53 + n1] bits. *)
Lemma round_aux_shape pm E n1 :
  Z.pos (digits2_pos pm) = 53 + n1 -> 1 <= n1 -> -1074 <= E + n1 ->
  exists m2,
    (2 * m2 * 2 ^ n1 - 2 ^ n1 <= 2 * Z.pos pm <= 2 * m2 * 2 ^ n1 + 2 ^ n1) /\
    ((2 ^ 52 <= m2 < 2 ^ 53 /\
      binary_round_aux prec emax false (Z.pos pm) E loc_Exact
      = if E + n1 <=? 971 then S754_finite false (Z.to_pos m2) (E + n1)
        else S754_infinity false) \/
     (m2 = 2 ^ 53 /\
      binary_round_aux prec emax false (Z.pos pm) E loc_Exact
      = if E + n1 + 1 <=? 971 then S754_finite false (Z.to_pos (2 ^ 52)) (E + n1 + 1)
        else S754_infinity false)).
Proof.
  intros Hd Hn HE.
  pose proof (digits2_pos_bounds pm) as [Blo Bhi]. rewrite Hd in Blo, Bhi.
  replace (53 + n1 - 1) with (52 + n1) in Blo by lia.
  rewrite Z.pow_add_r in Blo, Bhi by lia.
  unfold binary_round_aux, shr_fexp, fexp, emin, prec, emax.
  cbn [Zdigits2]. rewrite Hd.
  replace (Z.max (53 + n1 + E - 53) (3 - 1024 - 53) - E) with n1 by lia.
  destruct n1 as [| pn |]; try lia.
  cbn [shr shr_record_of_loc].
  pose proof (shr_iter (Z.pos pm) pn ltac:(lia)) as Hinv.
  pose proof (rne_bound _ _ _ Hn Hinv) as [Hm2 Hb]. cbn zeta in Hm2, Hb.
  destruct Hinv as [Hm0 [t [Ht [HX _]]]].
  set (mrs := iter_pos shr_1 pn _) in *.
  set (m2 := round_nearest_even (shr_m mrs) (loc_of_shr_record mrs)) in *.
  set (Y := 2 ^ Z.pos pn) in *.
  assert (HY : 0 < Y) by (subst Y; apply Z.pow_pos_nonneg; lia).
  assert (E1 : Y = 2 * 2 ^ (Z.pos pn - 1)) by (subst Y; apply pow2_pred; lia).
  assert (Hr : 0 <= b2z (shr_r mrs) <= 1) by (destruct (shr_r mrs); cbn; lia).
  assert (Hlo : 2 ^ 52 <= shr_m mrs) by nia.
  assert (Hhi : shr_m mrs < 2 ^ 53) by nia.
  exists m2. split; [exact Hb |].
  destruct (Z.eq_dec m2 (2 ^ 53)) as [Heq | Hne].
  - right. split; [exact Heq |]. rewrite Heq.
    cbn [Zdigits2 Z.pow Z.pow_pos Pos.iter Z.mul Pos.mul digits2_pos Pos.succ].
    replace (Z.max (54 + (E + Z.pos pn) - 53) (3 - 1024 - 53) - (E + Z.pos pn))
      with 1 by lia.
    cbn [shr iter_pos shr_1 shr_m].
    change (1024 - 53) with 971. reflexivity.
  - left. assert (Hm2' : 2 ^ 52 <= m2 < 2 ^ 53) by lia. split; [exact Hm2' |].
    destruct m2 as [| pm2 |] eqn:Em2; try lia.
    assert (Hd2 : Z.pos (digits2_pos pm2) = 53) by (apply digits2_pos_unique; simpl; lia).
    cbn [Zdigits2]. rewrite Hd2.
    replace (Z.max (53 + (E + Z.pos pn) - 53) (3 - 1024 - 53) - (E + Z.pos pn))
      with 0 by lia.
    cbn [shr shr_record_of_loc shr_m Z.to_pos].
    change (1024 - 53) with 971. reflexivity.
Qed.

(** The float of a positive int: exact below 2^53, within half a unit
    of the last place above, [OverflowError] from 2^1023 on at the
    earliest. *)
Lemma float_of_int_cases pN :
  (float_of_int (Z.pos pN) = Raise OverflowError /\ 2 ^ 1023 <= Z.pos pN) \/
  (exists pw e,
     float_of_int (Z.pos pN) = Ok (S754_finite false pw e) /\
     2 ^ 52 <= Z.pos pw < 2 ^ 53 /\ -52 <= e <= 971 /\
     ((e <= 0 /\ Z.pos pw = Z.pos pN * 2 ^ (- e)) \/
      (1 <= e /\ 2 * Z.pos pN - 2 ^ e <= 2 * (Z.pos pw * 2 ^ e) <= 2 * Z.pos pN + 2 ^ e))).
Proof.
  destruct (Z_lt_le_dec (Z.pos pN) (2 ^ 53)) as [Hsmall | Hbig].
  - right. destruct (float_of_int_normal pN Hsmall) as [pw [Hw [Hwb [Hd Hf]]]].
    exists pw, (Z.pos (digits2_pos pN) - 53).
    split; [exact Hf |]. split; [exact Hwb |]. split; [lia |].
    left. split; [lia |]. rewrite Hw. f_equal. f_equal. lia.
  - pose proof (digits2_pos_bounds pN) as [Blo Bhi].
    set (d := Z.pos (digits2_pos pN)) in *.
    assert (Hd : 54 <= d).
    { destruct (Z_lt_le_dec d 54) as [Hlt |]; [| lia].
      assert (2 ^ d <= 2 ^ 53) by (apply Z.pow_le_mono_r; lia). lia. }
    unfold float_of_int, binary_normalize, binary_round, fexp, emin, prec, emax.
    fold d.
    replace (Z.max (d + 0 - 53) (3 - 1024 - 53)) with (d - 53) by lia.
    unfold shl_align.
    destruct (d - 53 - 0) as [| k | k] eqn:Ek; try lia.
    destruct (round_aux_shape pN 0 (d - 53) ltac:(subst d; lia) ltac:(lia) ltac:(lia))
      as [m2 [Hb Hcase]].
    unfold prec, emax in Hcase.
    set (Y := 2 ^ (d - 53)) in *.
    assert (HY : 0 < Y) by (subst Y; apply Z.pow_pos_nonneg; lia).
    destruct Hcase as [[Hm2 ->] | [Hm2 ->]].
    + destruct (Z.leb_spec (0 + (d - 53)) 971) as [Hle | Hgt].
      * right. exists (Z.to_pos m2), (0 + (d - 53)).
        rewrite Z2Pos.id by lia.
        split; [reflexivity |]. split; [exact Hm2 |]. split; [lia |].
        right. split; [lia |]. replace (0 + (d - 53)) with (d - 53) by lia. fold Y. lia.
      * left. split; [reflexivity |].
        assert (2 ^ 1023 <= 2 ^ (d - 1)) by (apply Z.pow_le_mono_r; lia). lia.
    + destruct (Z.leb_spec (0 + (d - 53) + 1) 971) as [Hle | Hgt].
      * right. exists (Z.to_pos (2 ^ 52)), (0 + (d - 53) + 1).
        split; [reflexivity |]. split; [simpl; lia |]. split; [lia |].
        right. split; [lia |].
        replace (0 + (d - 53) + 1) with ((d - 53) + 1) by lia.
        rewrite Z.pow_add_r by lia. fold Y. change (2 ^ 1) with 2.
        rewrite Z2Pos.id by (simpl; lia). subst m2. lia.
      * left. split; [reflexivity |].
        assert (2 ^ 1023 <= 2 ^ (d - 1)) by (apply Z.pow_le_mono_r; lia). lia.
Qed.

(** The product of a normal float with a literal in [0.75, 0.996]: its
    integer part is that of a mantissa product off by at most 2^52. *)
Lemma product_index pw e pc :
  2 ^ 52 <= Z.pos pw < 2 ^ 53 -> -52 <= e <= 971 ->
  2 ^ 52 <= Z.pos pc <= 2 ^ 53 - 2 ^ 45 ->
  exists T,
    Z.pos pw * Z.pos pc - 2 ^ 52 <= T <= Z.pos pw * Z.pos pc + 2 ^ 52 /\
    int_of_float (fmul (S754_finite false pw e) (S754_finite false pc (-53)))
    = Ok (floor_scaled T (e - 53)).
Proof.
  intros Hw He Hc. unfold fmul. cbn [SFmul xorb].
  set (pM := (pw * pc)%positive).
  set (mc := Z.pos pc) in *. set (W := Z.pos pw) in *.
  assert (HM : Z.pos pM = W * mc) by (subst pM W mc; lia).
  assert (HMlo : 2 ^ 104 <= Z.pos pM).
  { rewrite HM. change (2 ^ 104) with (2 ^ 52 * 2 ^ 52). apply Z.mul_le_mono_nonneg; lia. }
  assert (HMhi : Z.pos pM <= 2 ^ 106 - 2 ^ 98).
  { rewrite HM. change (2 ^ 106 - 2 ^ 98) with (2 ^ 53 * (2 ^ 53 - 2 ^ 45)).
    apply Z.mul_le_mono_nonneg; lia. }
  pose proof (digits2_pos_bounds pM) as [Mlo Mhi].
  set (g := Z.pos (digits2_pos pM)) in *.
  assert (Hg : g = 105 \/ g = 106).
  { destruct (Z_lt_le_dec g 105) as [Hlt |].
    - assert (2 ^ g <= 2 ^ 104) by (apply Z.pow_le_mono_r; lia). lia.
    - destruct (Z_lt_le_dec 106 g) as [Hlt |]; [| lia].
      assert (2 ^ 106 <= 2 ^ (g - 1)) by (apply Z.pow_le_mono_r; lia). lia. }
  destruct (round_aux_shape pM (e + -53) (g - 53) ltac:(subst g; lia) ltac:(lia) ltac:(lia))
    as [m2 [Hb Hcase]].
  assert (Hn1 : 0 < 2 ^ (g - 53) <= 2 ^ 53).
  { split; [apply Z.pow_pos_nonneg; lia | apply Z.pow_le_mono_r; lia]. }
  exists (m2 * 2 ^ (g - 53)).
  rewrite <- HM.
  split; [lia |].
  replace (e - 53) with (e + -53) by lia.
  rewrite floor_scaled_shift by lia.
  destruct Hcase as [[Hm2 ->] | [Hm2 ->]].
  - replace (e + -53 + (g - 53) <=? 971) with true by (symmetry; apply Z.leb_le; lia).
    rewrite int_of_float_finite, Z2Pos.id by lia. reflexivity.
  - assert (Eg : g = 105).
    { destruct Hg as [Eg | Eg]; [exact Eg |]. exfalso.
      rewrite Eg in Hb. change (2 ^ (106 - 53)) with (2 ^ 53) in Hb. lia. }
    replace (e + -53 + (g - 53) + 1 <=? 971) with true by (symmetry; apply Z.leb_le; lia).
    rewrite int_of_float_finite, Z2Pos.id by (simpl; lia).
    rewrite Hm2. change (2 ^ 53) with (2 ^ 52 * 2 ^ 1).
    rewrite (floor_scaled_shift (2 ^ 52) 1) by lia. reflexivity.
Qed.

(** The integer part of such a product lies in [N // 2, N). *)
Lemma floor_scaled_bounds N W e mc T :
  1 <= N -> 2 ^ 52 <= W < 2 ^ 53 -> -52 <= e <= 971 ->
  ((e <= 0 /\ W = N * 2 ^ (- e)) \/
   (1 <= e /\ 2 * N - 2 ^ e <= 2 * (W * 2 ^ e) <= 2 * N + 2 ^ e)) ->
  2 ^ 52 + 2 ^ 51 <= mc <= 2 ^ 53 - 2 ^ 45 ->
  W * mc - 2 ^ 52 <= T <= W * mc + 2 ^ 52 ->
  N / 2 <= floor_scaled T (e - 53) < N.
Proof.
  intros HN HW He Happrox Hmc HT.
  assert (Hlo : W * (2 ^ 52 + 2 ^ 51) <= W * mc) by (apply Z.mul_le_mono_nonneg_l; lia).
  assert (Hhi : W * mc <= W * (2 ^ 53 - 2 ^ 45)) by (apply Z.mul_le_mono_nonneg_l; lia).
  assert (Hhalf : 0 <= N / 2 /\ 2 * (N / 2) <= N).
  { pose proof (Z.div_mod N 2 ltac:(lia)). pose proof (Z.mod_pos_bound N 2 ltac:(lia)). lia. }
  destruct Hhalf as [Hh0 Hh].
  unfold floor_scaled.
  destruct (Z.ltb_spec (e - 53) 0) as [HE | HE].
  - replace (- (e - 53)) with (53 - e) by lia.
    assert (HQ : 0 < 2 ^ (53 - e)) by (apply Z.pow_pos_nonneg; lia).
    destruct Happrox as [[He0 HWN] | [He1 Hb]].
    + (* the int is exact *)
      assert (EQ : 2 ^ (53 - e) = 2 ^ 53 * 2 ^ (- e)) by (rewrite <- Z.pow_add_r by lia; f_equal; lia).
      set (P := 2 ^ (- e)) in *.
      assert (HP : 0 < P) by (subst P; apply Z.pow_pos_nonneg; lia).
      rewrite EQ. split.
      * apply Z.div_le_lower_bound; [lia |].
        assert (P * (2 * (N / 2)) <= P * N) by (apply Z.mul_le_mono_nonneg_l; lia).
        replace (2 ^ 53 * P * (N / 2)) with (2 ^ 52 * (P * (2 * (N / 2)))) by ring.
        replace (P * N) with W in * by lia. lia.
      * apply Z.div_lt_upper_bound; [lia |].
        replace (2 ^ 53 * P * N) with (2 ^ 53 * W) by (rewrite HWN; ring). lia.
    + (* the int was rounded to W * 2^e, 1 <= e <= 52 *)
      set (Q := 2 ^ (53 - e)) in *. set (Y := 2 ^ e) in *.
      assert (HYQ : Y * Q = 2 ^ 53) by (subst Y Q; rewrite <- Z.pow_add_r by lia; f_equal; lia).
      assert (S1 : (2 * N - Y) * Q <= 2 * (W * Y) * Q) by (apply Z.mul_le_mono_nonneg_r; lia).
      assert (S2 : 2 * (W * Y) * Q <= (2 * N + Y) * Q) by (apply Z.mul_le_mono_nonneg_r; lia).
      replace (2 * (W * Y) * Q) with (2 * W * (Y * Q)) in S1, S2 by ring.
      replace ((2 * N - Y) * Q) with (2 * (Q * N) - Y * Q) in S1 by ring.
      replace ((2 * N + Y) * Q) with (2 * (Q * N) + Y * Q) in S2 by ring.
      rewrite HYQ in S1, S2.
      split.
      * apply Z.div_le_lower_bound; [lia |].
        assert (Q * (2 * (N / 2)) <= Q * N) by (apply Z.mul_le_mono_nonneg_l; lia).
        replace (Q * (2 * (N / 2))) with (2 * (Q * (N / 2))) in * by ring. lia.
      * apply Z.div_lt_upper_bound; lia.
  - destruct Happrox as [[He0 HWN] | [He1 Hb]]; [lia |].
    set (Z' := 2 ^ (e - 53)) in *.
    assert (HZ : 0 < Z') by (subst Z'; apply Z.pow_pos_nonneg; lia).
    assert (EY : 2 ^ e = 2 ^ 53 * Z').
    { subst Z'. rewrite <- Z.pow_add_r by lia. f_equal. lia. }
    rewrite EY in Hb.
    replace (W * (2 ^ 53 * Z')) with (2 ^ 53 * (W * Z')) in Hb by ring.
    assert (S1 : T * Z' <= (W * (2 ^ 53 - 2 ^ 45) + 2 ^ 52) * Z')
      by (apply Z.mul_le_mono_nonneg_r; lia).
    assert (S2 : (W * (2 ^ 52 + 2 ^ 51) - 2 ^ 52) * Z' <= T * Z')
      by (apply Z.mul_le_mono_nonneg_r; lia).
    assert (S3 : 2 ^ 52 * Z' <= W * Z') by (apply Z.mul_le_mono_nonneg_r; lia).
    replace ((W * (2 ^ 53 - 2 ^ 45) + 2 ^ 52) * Z')
      with ((2 ^ 53 - 2 ^ 45) * (W * Z') + 2 ^ 52 * Z') in S1 by ring.
    replace ((W * (2 ^ 52 + 2 ^ 51) - 2 ^ 52) * Z')
      with ((2 ^ 52 + 2 ^ 51) * (W * Z') - 2 ^ 52 * Z') in S2 by ring.
    lia.
Qed.

Lemma float_of_int_positive_ok N : 1 <= N < 2 ^ 1023 ->
  exists pw e, float_of_int N = Ok (S754_finite false pw e).
Proof.
  intros [HN1 HN2]. destruct N as [| pN |]; try lia.
  destruct (float_of_int_cases pN) as [[_ Hbig] | [pw [e [Hf _]]]]; [lia | eauto].
Qed.

Lemma float_of_int_positive_finite N f : 1 <= N -> float_of_int N = Ok f ->
  exists pw e, f = S754_finite false pw e.
Proof.
  intros HN Hf. destruct N as [| pN |]; try lia.
  destruct (float_of_int_cases pN) as [[Hr _] | [pw [e [Hf' _]]]]; [congruence |].
  rewrite Hf in Hf'. injection Hf' as ->. eauto.
Qed.

Lemma float_of_int_raises N e : float_of_int N = Raise e -> e = OverflowError.
Proof.
  unfold float_of_int. destruct (binary_normalize prec emax N 0 false); congruence.
Qed.

(** For every length that converts to a float, the three indices are
    computed and ordered within [N // 2, N). *)
Lemma percentile_indices_ordered N f :
  1 <= N -> float_of_int N = Ok f ->
  exists i95 i99 i995,
    percentile_index N lit_0_95 = Ok i95 /\
    percentile_index N lit_0_99 = Ok i99 /\
    percentile_index N lit_0_995 = Ok i995 /\
    N / 2 <= i95 /\ i95 <= i99 /\ i99 <= i995 /\ i995 < N.
Proof.
  intros HN1 Hok. destruct N as [| pN |]; try lia.
  destruct (float_of_int_cases pN) as [[Hr _] | [pw [e [Hf [Hw [He Happrox]]]]]];
    [congruence |].
  unfold percentile_index, int_mul_float. rewrite Hf. cbn [bind].
  unfold lit_0_95, lit_0_99, lit_0_995.
  destruct (product_index pw e 8556839292003942 Hw He ltac:(lia)) as [T1 [HT1 ->]].
  destruct (product_index pw e 8917127262193582 Hw He ltac:(lia)) as [T2 [HT2 ->]].
  destruct (product_index pw e 8962163258467287 Hw He ltac:(lia)) as [T3 [HT3 ->]].
  pose proof (floor_scaled_bounds (Z.pos pN) (Z.pos pw) e 8556839292003942 T1 HN1 Hw He
                Happrox ltac:(lia) HT1) as [B1 _].
  pose proof (floor_scaled_bounds (Z.pos pN) (Z.pos pw) e 8962163258467287 T3 HN1 Hw He
                Happrox ltac:(lia) HT3) as [_ B3].
  do 3 eexists. repeat (split; [reflexivity |]).
  split; [exact B1 |].
  split; [apply floor_scaled_mono; lia |].
  split; [apply floor_scaled_mono; lia | exact B3].
Qed.

(** ** The order of floats *)

Lemma SFcompare_key x y :
  is_nan x = false -> is_nan y = false ->
  exists c, SFcompare x y = Some c /\
            (c = Lt <-> lex_lt (key x) (key y)) /\
            (c = Eq <-> key x = key y) /\
            (c = Gt <-> lex_lt (key y) (key x)).
Proof.
  intros Hx Hy.
  destruct x as [sx | sx | | sx mx ex]; try discriminate Hx;
  destruct y as [sy | sy | | sy my ey]; try discriminate Hy;
  try destruct sx; try destruct sy; cbn [SFcompare key lex_lt];
  try (eexists; split; [reflexivity |];
       repeat split; intros; try discriminate; try reflexivity; try lia; try congruence;
       fail).
  all: change (Pos.compare_cont Eq ?a ?b) with (Pos.compare a b).
  all: destruct (Z.compare_spec ex ey) as [He | He | He];
    [ destruct (Pos.compare_spec mx my) as [Hm | Hm | Hm] | | ];
    cbn [CompOpp]; eexists; (split; [reflexivity |]);
    repeat split; intros H; try discriminate; try reflexivity;
    try (injection H; intros); subst; try lia; try congruence.
Qed.

Lemma lex_lt_trans a b c : lex_lt a b -> lex_lt b c -> lex_lt a c.
Proof.
  destruct a as [[a1 a2] a3], b as [[b1 b2] b3], c as [[c1 c2] c3].
  unfold lex_lt. lia.
Qed.

Lemma lex_total a b : lex_lt a b \/ a = b \/ lex_lt b a.
Proof.
  destruct a as [[a1 a2] a3], b as [[b1 b2] b3]. unfold lex_lt.
  destruct (Z.lt_total a1 b1) as [? | [? | ?]]; try lia.
  destruct (Z.lt_total a2 b2) as [? | [? | ?]]; try lia.
  destruct (Z.lt_total a3 b3) as [? | [? | ?]]; try lia.
  right. left. congruence.
Qed.

Lemma lex_lt_irrefl a : ~ lex_lt a a.
Proof. destruct a as [[a1 a2] a3]. unfold lex_lt. lia. Qed.

Lemma fle_iff x y : is_nan x = false -> is_nan y = false ->
  (fle x y = true <-> lex_le (key x) (key y)).
Proof.
  intros Hx Hy. destruct (SFcompare_key x y Hx Hy) as [c [Hc [HLt [HEq HGt]]]].
  unfold fle, SFleb, lex_le. rewrite Hc. split.
  - destruct c; intro H; try discriminate.
    + right. apply HEq. reflexivity.
    + left. apply HLt. reflexivity.
  - intros [H | H].
    + apply HLt in H. subst c. reflexivity.
    + apply HEq in H. subst c. reflexivity.
Qed.

Lemma flt_iff x y : is_nan x = false -> is_nan y = false ->
  (flt x y = true <-> lex_lt (key x) (key y)).
Proof.
  intros Hx Hy. destruct (SFcompare_key x y Hx Hy) as [c [Hc [HLt _]]].
  unfold flt, SFltb. rewrite Hc. split.
  - destruct c; intro H; try discriminate. apply HLt. reflexivity.
  - intro H. apply HLt in H. subst c. reflexivity.
Qed.

Lemma fle_refl x : is_nan x = false -> fle x x = true.
Proof. intro Hx. apply fle_iff; auto. right. reflexivity. Qed.

Lemma fle_trans x y z :
  is_nan x = false -> is_nan y = false -> is_nan z = false ->
  fle x y = true -> fle y z = true -> fle x z = true.
Proof.
  intros Hx Hy Hz Hxy Hyz.
  apply fle_iff in Hxy; auto. apply fle_iff in Hyz; auto. apply fle_iff; auto.
  destruct Hxy as [Hxy | Hxy], Hyz as [Hyz | Hyz]; unfold lex_le.
  - left. eapply lex_lt_trans; eauto.
  - left. rewrite <- Hyz. exact Hxy.
  - left. rewrite Hxy. exact Hyz.
  - right. congruence.
Qed.

Lemma flt_fle x y : is_nan x = false -> is_nan y = false ->
  flt x y = true -> fle x y = true.
Proof.
  intros Hx Hy H. apply flt_iff in H; auto. apply fle_iff; auto. left. exact H.
Qed.

Lemma not_flt_fle x y : is_nan x = false -> is_nan y = false ->
  flt x y = false -> fle y x = true.
Proof.
  intros Hx Hy H. apply fle_iff; auto.
  destruct (lex_total (key x) (key y)) as [Hlt | [Heq | Hgt]].
  - apply flt_iff in Hlt; auto. congruence.
  - right. congruence.
  - left. exact Hgt.
Qed.

Lemma flt_not_fle x y : is_nan x = false -> is_nan y = false ->
  flt x y = true -> fle y x = true -> False.
Proof.
  intros Hx Hy Hlt Hle.
  apply flt_iff in Hlt; auto. apply fle_iff in Hle; auto.
  destruct Hle as [H | H].
  - exact (lex_lt_irrefl _ (lex_lt_trans _ _ _ Hlt H)).
  - rewrite H in Hlt. exact (lex_lt_irrefl _ Hlt).
Qed.

(** ** Sorting *)

Lemma insert_Forall (P : float -> Prop) x l :
  Forall P (insert x l) <-> P x /\ Forall P l.
Proof.
  induction l as [| y l IH]; cbn [insert].
  - split.
    + intro H. inversion H; subst. auto.
    + intros [Hx _]. constructor; auto.
  - destruct (flt x y).
    + split.
      * intro H. inversion H; subst. auto.
      * intros [Hx Hl]. constructor; auto.
    + split.
      * intro H. inversion H as [| ? ? Hy Hr]; subst. apply IH in Hr.
        destruct Hr as [Hx Hl]. split; [exact Hx | constructor; assumption].
      * intros [Hx Hl]. inversion Hl as [| ? ? Hy Hr]; subst.
        constructor; [exact Hy | apply IH; split; assumption].
Qed.

Lemma insert_length x l : List.length (insert x l) = S (List.length l).
Proof.
  induction l as [| y l IH]; cbn [insert]; [reflexivity |].
  destruct (flt x y); cbn [List.length]; congruence.
Qed.

Lemma insert_sorted x l :
  is_nan x = false -> no_nan l -> sorted l -> sorted (insert x l).
Proof.
  intros Hx Hl Hs. induction l as [| y l IH]; cbn [insert].
  - constructor; constructor.
  - inversion Hl as [| ? ? Hy Hl']; subst.
    inversion Hs as [| ? ? Hs' Hall]; subst.
    destruct (flt x y) eqn:Hxy.
    + constructor; [exact Hs |].
      assert (Hle : fle x y = true) by (apply flt_fle; assumption).
      constructor; [exact Hle |].
      rewrite Forall_forall in *. intros z Hz.
      apply fle_trans with y; auto.
    + constructor; [apply IH; assumption |].
      apply insert_Forall. split; [apply not_flt_fle; assumption | exact Hall].
Qed.

Lemma fold_insert_Forall (P : float -> Prop) l acc :
  Forall P (fold_left (fun acc x => insert x acc) l acc) <-> Forall P l /\ Forall P acc.
Proof.
  revert acc. induction l as [| x l IH]; intro acc; cbn [fold_left].
  - split; [intro H; split; [constructor | exact H] | intros [_ H]; exact H].
  - rewrite IH, insert_Forall. split.
    + intros [Hl [Hx Ha]]. split; [constructor; assumption | exact Ha].
    + intros [Hl Ha]. inversion Hl; subst. auto.
Qed.

Lemma fold_insert_length l acc :
  List.length (fold_left (fun acc x => insert x acc) l acc)
  = (List.length l + List.length acc)%nat.
Proof.
  revert acc. induction l as [| x l IH]; intro acc; cbn [fold_left List.length].
  - reflexivity.
  - rewrite IH, insert_length. lia.
Qed.

Lemma fold_insert_sorted l acc :
  no_nan l -> no_nan acc -> sorted acc ->
  sorted (fold_left (fun acc x => insert x acc) l acc).
Proof.
  revert acc. induction l as [| x l IH]; intros acc Hl Ha Hs; cbn [fold_left].
  - exact Hs.
  - inversion Hl; subst. apply IH; [assumption | | apply insert_sorted; assumption].
    apply insert_Forall. split; assumption.
Qed.

Lemma list_sort_length l : List.length (list_sort l) = List.length l.
Proof. unfold list_sort. rewrite fold_insert_length. cbn. lia. Qed.

Lemma list_sort_no_nan l : no_nan l -> no_nan (list_sort l).
Proof.
  intro H. unfold list_sort, no_nan. apply fold_insert_Forall.
  split; [exact H | constructor].
Qed.

Lemma list_sort_sorted l : no_nan l -> sorted (list_sort l).
Proof.
  intro H. unfold list_sort.
  apply fold_insert_sorted; [exact H | constructor | constructor].
Qed.

Lemma insert_perm x l : Permutation (x :: l) (insert x l).
Proof.
  induction l as [| y l IH]; cbn [insert].
  - apply Permutation_refl.
  - destruct (flt x y); [apply Permutation_refl |].
    apply perm_trans with (y :: x :: l); [apply perm_swap | apply perm_skip; exact IH].
Qed.

Lemma fold_insert_perm l acc :
  Permutation (acc ++ l) (fold_left (fun a x => insert x a) l acc).
Proof.
  revert acc. induction l as [| x l IH]; intro acc; cbn [fold_left].
  - rewrite app_nil_r. apply Permutation_refl.
  - apply perm_trans with (insert x acc ++ l); [| apply IH].
    apply perm_trans with ((x :: acc) ++ l).
    + apply Permutation_sym. apply (Permutation_middle acc l x).
    + apply Permutation_app_tail. apply insert_perm.
Qed.

Lemma list_sort_perm l : Permutation l (list_sort l).
Proof. exact (fold_insert_perm l []). Qed.

(** A list without NaN has one ascending arrangement only, when its
    elements are pairwise different in value. *)
Lemma sorted_perm_unique s t :
  no_nan t -> strictly_sorted t -> sorted s -> Permutation s t -> s = t.
Proof.
  intros Hn Ht. revert s.
  induction Ht as [| a t Ht IH Ha]; intros s Hs Hp.
  - apply Permutation_sym, Permutation_nil in Hp. exact Hp.
  - inversion Hn as [| ? ? Hna Hnt]; subst.
    destruct s as [| b s]; [apply Permutation_nil in Hp; discriminate |].
    inversion Hs as [| ? ? Hs' Hb]; subst.
    assert (Hba : In b (a :: t)) by (apply (Permutation_in b Hp); left; reflexivity).
    assert (Hab : In a (b :: s))
      by (apply (Permutation_in a (Permutation_sym Hp)); left; reflexivity).
    assert (E : b = a).
    { destruct Hba as [E | Hbt]; [symmetry; exact E |].
      destruct Hab as [E | Has]; [exact E | exfalso].
      rewrite Forall_forall in Ha, Hb, Hnt.
      apply (flt_not_fle a b Hna (Hnt b Hbt) (Ha b Hbt) (Hb a Has)). }
    subst b. f_equal. apply (IH Hnt s Hs').
    exact (Permutation_cons_inv Hp).
Qed.

Lemma scenario_sorted l5 :
  Permutation l5 [f10; f20; f30; f40; f100] -> list_sort l5 = [f10; f20; f30; f40; f100].
Proof.
  intro Hp.
  assert (Hn : no_nan [f10; f20; f30; f40; f100])
    by (repeat constructor).
  assert (Hn5 : no_nan l5).
  { unfold no_nan. rewrite Forall_forall. intros x Hx.
    unfold no_nan in Hn. rewrite Forall_forall in Hn.
    apply Hn. exact (Permutation_in x Hp Hx). }
  apply sorted_perm_unique.
  - exact Hn.
  - unfold strictly_sorted. repeat constructor.
  - apply list_sort_sorted. exact Hn5.
  - apply perm_trans with l5; [apply Permutation_sym, list_sort_perm | exact Hp].
Qed.

(** In a sorted list without NaN, positions are ordered as values. *)
Lemma sorted_nth l i j x y :
  no_nan l -> sorted l -> (i <= j)%nat ->
  nth_error l i = Some x -> nth_error l j = Some y -> fle x y = true.
Proof.
  intros Hn Hs. revert i j. induction Hs as [| a l Hs IH Hall]; intros i j Hij Hi Hj.
  - destruct i; discriminate.
  - inversion Hn as [| ? ? Ha Hn']; subst.
    destruct i as [| i], j as [| j]; cbn [nth_error] in *; try lia.
    + injection Hi as <-. injection Hj as <-. apply fle_refl. exact Ha.
    + injection Hi as <-. rewrite Forall_forall in Hall. apply Hall.
      eapply nth_error_In; eauto.
    + apply (IH Hn' i j); [lia | assumption | assumption].
Qed.

(** [min] and [max] bound every element. *)
Lemma fold_min_spec l m0 :
  is_nan m0 = false -> no_nan l ->
  let m := fold_left (fun m y => if flt y m then y else m) l m0 in
  is_nan m = false /\ fle m m0 = true /\ Forall (fun y => fle m y = true) l.
Proof.
  revert m0. induction l as [| y l IH]; intros m0 Hm Hl; cbn [fold_left].
  - split; [exact Hm |]. split; [apply fle_refl; exact Hm | constructor].
  - inversion Hl as [| ? ? Hy Hl']; subst.
    destruct (flt y m0) eqn:Hlt.
    + destruct (IH y Hy Hl') as [Hn [Hle Hall]]. cbn zeta in *.
      split; [exact Hn |].
      assert (Hym : fle y m0 = true) by (apply flt_fle; assumption).
      split; [apply fle_trans with y; assumption |].
      constructor; assumption.
    + destruct (IH m0 Hm Hl') as [Hn [Hle Hall]]. cbn zeta in *.
      split; [exact Hn |]. split; [exact Hle |].
      constructor; [| exact Hall].
      apply fle_trans with m0; auto. apply not_flt_fle; assumption.
Qed.

Lemma fold_max_spec l m0 :
  is_nan m0 = false -> no_nan l ->
  let m := fold_left (fun m y => if flt m y then y else m) l m0 in
  is_nan m = false /\ fle m0 m = true /\ Forall (fun y => fle y m = true) l.
Proof.
  revert m0. induction l as [| y l IH]; intros m0 Hm Hl; cbn [fold_left].
  - split; [exact Hm |]. split; [apply fle_refl; exact Hm | constructor].
  - inversion Hl as [| ? ? Hy Hl']; subst.
    destruct (flt m0 y) eqn:Hlt.
    + destruct (IH y Hy Hl') as [Hn [Hle Hall]]. cbn zeta in *.
      split; [exact Hn |].
      assert (Hym : fle m0 y = true) by (apply flt_fle; assumption).
      split; [apply fle_trans with y; assumption |].
      constructor; assumption.
    + destruct (IH m0 Hm Hl') as [Hn [Hle Hall]]. cbn zeta in *.
      split; [exact Hn |]. split; [exact Hle |].
      constructor; [| exact Hall].
      apply fle_trans with m0; auto. apply not_flt_fle; assumption.
Qed.

Lemma py_min_spec l : l <> [] -> no_nan l ->
  exists m, py_min l = Ok m /\ Forall (fun y => fle m y = true) l.
Proof.
  intros Hne Hn. destruct l as [| x l]; [congruence |].
  inversion Hn as [| ? ? Hx Hl]; subst.
  destruct (fold_min_spec l x Hx Hl) as [_ [Hle Hall]]. cbn zeta in *.
  eexists. split; [reflexivity |]. constructor; assumption.
Qed.

Lemma py_max_spec l : l <> [] -> no_nan l ->
  exists m, py_max l = Ok m /\ Forall (fun y => fle y m = true) l.
Proof.
  intros Hne Hn. destruct l as [| x l]; [congruence |].
  inversion Hn as [| ? ? Hx Hl]; subst.
  destruct (fold_max_spec l x Hx Hl) as [_ [Hle Hall]]. cbn zeta in *.
  eexists. split; [reflexivity |]. constructor; assumption.
Qed.

(** In-range indexing returns the element. *)
Lemma index_in_range l i :
  0 <= i < Z.of_nat (List.length l) ->
  exists x, index l i = Ok x /\ nth_error l (Z.to_nat i) = Some x.
Proof.
  intros [Hlo Hhi]. unfold index.
  replace (i <? 0) with false by (symmetry; apply Z.ltb_ge; lia).
  replace (0 <=? i) with true by (symmetry; apply Z.leb_le; lia).
  replace (i <? Z.of_nat (List.length l)) with true by (symmetry; apply Z.ltb_lt; lia).
  cbn [andb].
  destruct (nth_error l (Z.to_nat i)) as [x |] eqn:Hn.
  - exists x. split; reflexivity.
  - apply nth_error_None in Hn. lia.
Qed.

(** ** The statistics block *)

Lemma float_div_int_ok x n f :
  1 <= n -> float_of_int n = Ok f -> exists q, float_div_int x n = Ok q.
Proof.
  intros Hn Hf. destruct (float_of_int_positive_finite n f Hn Hf) as [pw [e ->]].
  unfold float_div_int. rewrite Hf. cbn [bind]. eexists. reflexivity.
Qed.

Lemma percentile_positions n : 1 <= n ->
  0 <= n / 2 <= 95 * n / 100 /\
  95 * n / 100 <= 99 * n / 100 /\
  99 * n / 100 <= 995 * n / 1000 /\
  995 * n / 1000 < n.
Proof.
  intro Hn.
  pose proof (Z.div_mod n 2 ltac:(lia)). pose proof (Z.mod_pos_bound n 2 ltac:(lia)).
  pose proof (Z.div_mod (95 * n) 100 ltac:(lia)).
  pose proof (Z.mod_pos_bound (95 * n) 100 ltac:(lia)).
  pose proof (Z.div_mod (99 * n) 100 ltac:(lia)).
  pose proof (Z.mod_pos_bound (99 * n) 100 ltac:(lia)).
  pose proof (Z.div_mod (995 * n) 1000 ltac:(lia)).
  pose proof (Z.mod_pos_bound (995 * n) 1000 ltac:(lia)).
  lia.
Qed.

(** On a non-empty list of fewer than [max_samples] samples the block
    succeeds, and every statistic is the element of the sorted list at
    the stated position. *)
Lemma latency_stats_nonempty py_sum l :
  l <> [] -> Z.of_nat (List.length l) < max_samples ->
  let n := Z.of_nat (List.length l) in
  let s := list_sort l in
  exists avg md p95 p99 p995 mn mx,
    latency_stats py_sum l
    = Ok (mkStats (PFloat avg) (PFloat md) (PFloat p95) (PFloat p99)
                  (PFloat p995) (PFloat mn) (PFloat mx)) /\
    nth_error s (Z.to_nat (n / 2)) = Some md /\
    nth_error s (Z.to_nat (95 * n / 100)) = Some p95 /\
    nth_error s (Z.to_nat (99 * n / 100)) = Some p99 /\
    nth_error s (Z.to_nat (995 * n / 1000)) = Some p995 /\
    py_min s = Ok mn /\ py_max s = Ok mx.
Proof.
  intros Hne Hlen n s.
  assert (Hn : 1 <= n) by (subst n; destruct l; [congruence | cbn [List.length]; lia]).
  assert (Hs : Z.of_nat (List.length s) = n) by (subst s n; rewrite list_sort_length; reflexivity).
  destruct (percentile_positions n Hn) as [H1 [H2 [H3 H4]]].
  unfold max_samples in Hlen. fold n in Hlen.
  destruct (float_of_int_positive_ok n ltac:(lia)) as [pw [e Hf]].
  destruct (float_div_int_ok (py_sum s) n _ ltac:(lia) Hf) as [avg Havg].
  destruct (index_in_range s (n / 2) ltac:(lia)) as [md [Imd Nmd]].
  destruct (index_in_range s (95 * n / 100) ltac:(lia)) as [p95 [I95 N95]].
  destruct (index_in_range s (99 * n / 100) ltac:(lia)) as [p99 [I99 N99]].
  destruct (index_in_range s (995 * n / 1000) ltac:(lia)) as [p995 [I995 N995]].
  assert (Hsne : exists x s', s = x :: s').
  { destruct s as [| x s']; [cbn in Hs; lia | eauto]. }
  destruct Hsne as [x [s' Es]].
  exists avg, md, p95, p99, p995.
  exists (fold_left (fun m y => if flt y m then y else m) s' x).
  exists (fold_left (fun m y => if flt m y then y else m) s' x).
  split.
  - unfold latency_stats. destruct l as [| a l']; [congruence |].
    fold s. rewrite Hs. rewrite Havg. cbn [bind]. rewrite Imd. cbn [bind].
    rewrite percentile_index_0_95 by (unfold max_samples; lia). cbn [bind].
    rewrite I95. cbn [bind].
    rewrite percentile_index_0_99 by (unfold max_samples; lia). cbn [bind].
    rewrite I99. cbn [bind].
    rewrite percentile_index_0_995 by (unfold max_samples; lia). cbn [bind].
    rewrite I995. cbn [bind].
    rewrite Es. cbn [py_min py_max bind]. reflexivity.
  - repeat split; try assumption; rewrite Es; reflexivity.
Qed.

(** On every non-empty list whose length converts to a float the block
    succeeds, with ordered in-range positions. *)
Lemma latency_stats_general py_sum l f :
  l <> [] -> float_of_int (Z.of_nat (List.length l)) = Ok f ->
  let n := Z.of_nat (List.length l) in
  let s := list_sort l in
  exists avg md p95 p99 p995 mn mx i95 i99 i995,
    latency_stats py_sum l
    = Ok (mkStats (PFloat avg) (PFloat md) (PFloat p95) (PFloat p99)
                  (PFloat p995) (PFloat mn) (PFloat mx)) /\
    (percentile_index n lit_0_95 = Ok i95 /\
     percentile_index n lit_0_99 = Ok i99 /\
     percentile_index n lit_0_995 = Ok i995) /\
    (0 <= n / 2 /\ n / 2 <= i95 /\ i95 <= i99 /\ i99 <= i995 /\ i995 < n) /\
    (index s (n / 2) = Ok md /\ index s i95 = Ok p95 /\
     index s i99 = Ok p99 /\ index s i995 = Ok p995) /\
    (nth_error s (Z.to_nat (n / 2)) = Some md /\
     nth_error s (Z.to_nat i95) = Some p95 /\
     nth_error s (Z.to_nat i99) = Some p99 /\
     nth_error s (Z.to_nat i995) = Some p995) /\
    py_min s = Ok mn /\ py_max s = Ok mx.
Proof.
  intros Hne Hf n s.
  assert (Hn : 1 <= n) by (subst n; destruct l; [congruence | cbn [List.length]; lia]).
  assert (Hs : Z.of_nat (List.length s) = n) by (subst s n; rewrite list_sort_length; reflexivity).
  fold n in Hf.
  destruct (percentile_indices_ordered n f Hn Hf)
    as [i95 [i99 [i995 [P95 [P99 [P995 [H1 [H2 [H3 H4]]]]]]]]].
  assert (H0 : 0 <= n / 2) by (apply Z.div_pos; lia).
  destruct (float_div_int_ok (py_sum s) n f Hn Hf) as [avg Havg].
  destruct (index_in_range s (n / 2) ltac:(lia)) as [md [Imd Nmd]].
  destruct (index_in_range s i95 ltac:(lia)) as [p95 [I95 N95]].
  destruct (index_in_range s i99 ltac:(lia)) as [p99 [I99 N99]].
  destruct (index_in_range s i995 ltac:(lia)) as [p995 [I995 N995]].
  assert (Hsne : exists x s', s = x :: s').
  { destruct s as [| x s']; [cbn in Hs; lia | eauto]. }
  destruct Hsne as [x [s' Es]].
  exists avg, md, p95, p99, p995.
  exists (fold_left (fun m y => if flt y m then y else m) s' x).
  exists (fold_left (fun m y => if flt m y then y else m) s' x).
  exists i95, i99, i995.
  split.
  - unfold latency_stats. destruct l as [| a l']; [congruence |].
    fold s. rewrite Hs. rewrite Havg. cbn [bind]. rewrite Imd. cbn [bind].
    rewrite P95. cbn [bind]. rewrite I95. cbn [bind].
    rewrite P99. cbn [bind]. rewrite I99. cbn [bind].
    rewrite P995. cbn [bind]. rewrite I995. cbn [bind].
    rewrite Es. cbn [py_min py_max bind]. reflexivity.
  - repeat split; try assumption; rewrite Es; reflexivity.
Qed.

(** The block never raises anything but the [OverflowError] of a length
    beyond the floats. *)
Lemma latency_stats_total py_sum l :
  (exists st, latency_stats py_sum l = Ok st) \/
  (latency_stats py_sum l = Raise OverflowError /\ 2 ^ 1023 <= Z.of_nat (List.length l)).
Proof.
  destruct l as [| x l'] eqn:El; [left; eexists; reflexivity |]. rewrite <- El.
  assert (Hne : l <> []) by (rewrite El; discriminate).
  destruct (float_of_int (Z.of_nat (List.length l))) as [f | e] eqn:Hf.
  - left.
    destruct (latency_stats_general py_sum l f Hne Hf)
      as [avg [md [p95 [p99 [p995 [mn [mx [i95 [i99 [i995 [H _]]]]]]]]]]].
    eexists. exact H.
  - right.
    assert (Hbig : 2 ^ 1023 <= Z.of_nat (List.length l)).
    { destruct (Z_lt_le_dec (Z.of_nat (List.length l)) (2 ^ 1023)) as [Hlt |]; [| assumption].
      assert (H1 : 1 <= Z.of_nat (List.length l))
        by (rewrite El; cbn [List.length]; lia).
      destruct (float_of_int_positive_ok _ (conj H1 Hlt)) as [pw [e' Hok]]. congruence. }
    split; [| exact Hbig].
    pose proof (float_of_int_raises _ _ Hf) as ->.
    unfold latency_stats. rewrite El. rewrite <- El.
    rewrite list_sort_length. unfold float_div_int. rewrite Hf. reflexivity.
Qed.

(** ** Rounding never overflows on moderate exponents *)

Lemma Zdigits2_nonneg m : 0 <= Zdigits2 m.
Proof. destruct m; cbn; lia. Qed.

Lemma Zdigits2_lt m : 0 <= m -> m < 2 ^ Zdigits2 m.
Proof.
  destruct m as [| p | p]; cbn [Zdigits2]; intro H; try lia.
  apply digits2_pos_bounds.
Qed.

Lemma Zdigits2_le m k : 0 <= m -> 0 <= k -> m < 2 ^ k -> Zdigits2 m <= k.
Proof.
  destruct m as [| p | p]; cbn [Zdigits2]; intros Hm Hk H; try lia.
  apply digits2_pos_le; assumption.
Qed.

Lemma shr_m_of_loc m l : shr_m (shr_record_of_loc m l) = m.
Proof. destruct l as [| []]; reflexivity. Qed.

Lemma shr_m_iter_nat n mrs :
  0 <= shr_m mrs -> shr_m (Nat.iter n shr_1 mrs) = shr_m mrs / 2 ^ Z.of_nat n.
Proof.
  intro Hm. induction n as [| n IH].
  - change (Nat.iter 0 shr_1 mrs) with mrs.
    change (2 ^ Z.of_nat 0) with 1. rewrite Z.div_1_r. reflexivity.
  - change (Nat.iter (S n) shr_1 mrs) with (shr_1 (Nat.iter n shr_1 mrs)).
    assert (H0 : 0 <= shr_m (Nat.iter n shr_1 mrs)).
    { rewrite IH. apply Z.div_pos; [exact Hm | apply Z.pow_pos_nonneg; lia]. }
    destruct (shr_1_halves _ H0) as [m' [r' [-> [Hm' Em]]]]. cbn [shr_m].
    rewrite Nat2Z.inj_succ, Z.pow_succ_r by lia.
    rewrite Z.mul_comm, <- Z.div_div by (try apply Z.pow_pos_nonneg; lia).
    rewrite <- IH, Em.
    apply Z.div_unique with (r := b2z r'); [| lia].
    left. destruct r'; cbn; lia.
Qed.

Lemma shr_m_iter p mrs :
  0 <= shr_m mrs -> shr_m (iter_pos shr_1 p mrs) = shr_m mrs / 2 ^ Z.pos p.
Proof.
  intro Hm. rewrite iter_pos_nat, shr_m_iter_nat by exact Hm.
  rewrite positive_nat_Z. reflexivity.
Qed.

Lemma shr_fexp_exponent p em m e l :
  snd (shr_fexp p em m e l) = Z.max e (fexp p em (Zdigits2 m + e)).
Proof.
  unfold shr_fexp, shr.
  destruct (fexp p em (Zdigits2 m + e) - e) as [| q | q] eqn:E; cbn [snd]; lia.
Qed.

Lemma shr_fexp_mantissa p em m e l :
  0 <= m ->
  let r := shr_fexp p em m e l in
  0 <= shr_m (fst r) /\
  Zdigits2 (shr_m (fst r)) + snd r <= Z.max (Zdigits2 m + e) (snd r).
Proof.
  intros Hm r. subst r. unfold shr_fexp, shr.
  destruct (fexp p em (Zdigits2 m + e) - e) as [| q | q] eqn:E; cbn [fst snd];
    try (rewrite shr_m_of_loc; lia).
  rewrite shr_m_iter by (rewrite shr_m_of_loc; exact Hm).
  rewrite shr_m_of_loc.
  assert (Hq : 0 < 2 ^ Z.pos q) by (apply Z.pow_pos_nonneg; lia).
  split; [apply Z.div_pos; lia |].
  pose proof (Zdigits2_lt m Hm) as Hlt.
  pose proof (Zdigits2_nonneg m) as H0.
  destruct (Z_le_gt_dec (Z.pos q) (Zdigits2 m)) as [Hle | Hgt].
  - assert (Zdigits2 (m / 2 ^ Z.pos q) <= Zdigits2 m - Z.pos q); [| lia].
    apply Zdigits2_le; [apply Z.div_pos; lia | lia |].
    apply Z.div_lt_upper_bound; [lia |].
    rewrite <- Z.pow_add_r by lia.
    replace (Z.pos q + (Zdigits2 m - Z.pos q)) with (Zdigits2 m) by lia. exact Hlt.
  - assert (Hpow : 2 ^ Zdigits2 m <= 2 ^ Z.pos q) by (apply Z.pow_le_mono_r; lia).
    rewrite Z.div_small by lia. cbn [Zdigits2]. lia.
Qed.

Lemma rne_range m l :
  0 <= m -> m <= round_nearest_even m l <= m + 1.
Proof.
  intro Hm. destruct l as [| []]; cbn [round_nearest_even];
    try destruct (Z.even m); lia.
Qed.

Lemma Zdigits2_succ_le m m' :
  0 <= m -> 0 <= m' <= m + 1 -> Zdigits2 m' <= Zdigits2 m + 1.
Proof.
  intros Hm Hm'. pose proof (Zdigits2_lt m Hm). pose proof (Zdigits2_nonneg m).
  apply Zdigits2_le; try lia.
  rewrite Z.pow_add_r by lia. change (2 ^ 1) with 2. lia.
Qed.

(** A rounded result is never an infinity when its exponent bound holds
    one binade above the operand. *)
Lemma round_aux_not_inf p em s m ex lx :
  1 <= p -> 0 <= m -> ex <= em - p ->
  fexp p em (Zdigits2 m + ex + 1) <= em - p ->
  is_inf (binary_round_aux p em s m ex lx) = false.
Proof.
  intros Hp Hm Hex Hf.
  unfold binary_round_aux.
  pose proof (shr_fexp_exponent p em m ex lx) as He1.
  pose proof (shr_fexp_mantissa p em m ex lx Hm) as [Hm1 Hd1]. cbn zeta in Hm1, Hd1.
  destruct (shr_fexp p em m ex lx) as [mrs' e'] eqn:E1. cbn [fst snd] in *.
  set (m2 := round_nearest_even (shr_m mrs') (loc_of_shr_record mrs')).
  pose proof (rne_range (shr_m mrs') (loc_of_shr_record mrs') Hm1) as Hm2. fold m2 in Hm2.
  pose proof (Zdigits2_succ_le (shr_m mrs') m2 Hm1 ltac:(lia)) as Hd2.
  pose proof (shr_fexp_exponent p em m2 e' loc_Exact) as He2.
  destruct (shr_fexp p em m2 e' loc_Exact) as [mrs'' e''] eqn:E2. cbn [fst snd] in *.
  assert (Hle : e'' <= em - p).
  { unfold fexp in *. lia. }
  destruct (shr_m mrs'') as [| q | q]; try reflexivity.
  replace (e'' <=? em - p) with true by (symmetry; apply Z.leb_le; exact Hle).
  reflexivity.
Qed.

(** ** Packing a float *)

Lemma digits_iter_xO m k :
  Z.pos (digits2_pos (Pos.iter xO m k)) = Z.pos (digits2_pos m) + Z.pos k.
Proof.
  induction k as [| k IH] using Pos.peano_ind.
  - cbn [Pos.iter digits2_pos]. lia.
  - rewrite Pos.iter_succ. cbn [digits2_pos]. rewrite Pos2Z.inj_succ, IH. lia.
Qed.

Lemma shl_align_spec m e e' :
  let r := shl_align m e e' in
  snd r = Z.min e e' /\
  Z.pos (digits2_pos (fst r)) + snd r = Z.pos (digits2_pos m) + e.
Proof.
  unfold shl_align. destruct (e' - e) as [| d | d] eqn:E; cbn [fst snd]; try lia.
  rewrite digits_iter_xO. lia.
Qed.

Lemma le_bytes_length n v : List.length (le_bytes n v) = n.
Proof.
  revert v. induction n as [| n IH]; intro v; cbn [le_bytes List.length]; congruence.
Qed.

Lemma to_binary32_moderate x : moderate x -> is_inf (to_binary32 x) = false.
Proof.
  destruct x as [s | s | | s m e]; cbn [moderate to_binary32]; intro H;
    try reflexivity; try contradiction.
  unfold binary_round.
  pose proof (shl_align_spec m e (fexp 24 128 (Z.pos (digits2_pos m) + e))) as [He Hd].
  cbn zeta in He, Hd.
  destruct (shl_align m e (fexp 24 128 (Z.pos (digits2_pos m) + e))) as [mz ez].
  cbn [fst snd] in *.
  apply round_aux_not_inf; try lia.
  - unfold fexp, emin in *. lia.
  - cbn [Zdigits2]. unfold fexp, emin in *. lia.
Qed.

Lemma pack_f_moderate x : moderate x ->
  exists bs, pack_f x = Ok bs /\ List.length bs = 4%nat.
Proof.
  intro H. unfold pack_f. rewrite (to_binary32_moderate x H). cbn [andb].
  eexists. split; [reflexivity | apply le_bytes_length].
Qed.

(** ** Percentages *)

Lemma SFdiv_core_bounds pa pb :
  (pa <= pb)%positive ->
  let '(q, e', l) := SFdiv_core_binary prec emax (Z.pos pa) 0 (Z.pos pb) 0 in
  0 <= q /\ e' <= 0 /\ Zdigits2 q + e' <= 1.
Proof.
  intro Hab. unfold SFdiv_core_binary.
  set (e' := Z.min (fexp prec emax (Zdigits2 (Z.pos pa) + 0 - (Zdigits2 (Z.pos pb) + 0))) (0 - 0)).
  assert (He' : e' <= 0) by (subst e'; lia).
  set (m' := match 0 - 0 - e' with
             | 0 => Z.pos pa
             | Z.pos _ => Z.shiftl (Z.pos pa) (0 - 0 - e')
             | Z.neg _ => 0
             end).
  assert (Hm' : m' = Z.pos pa * 2 ^ (- e')).
  { subst m'. destruct (0 - 0 - e') as [| s | s] eqn:Es; try lia.
    - replace (- e') with 0 by lia. lia.
    - rewrite Z.shiftl_mul_pow2 by lia. f_equal. f_equal. lia. }
  destruct (Z.div_eucl m' (Z.pos pb)) as [q r] eqn:Ediv.
  assert (Hq : q = m' / Z.pos pb) by (unfold Z.div; rewrite Ediv; reflexivity).
  assert (Hpow : 0 < 2 ^ (- e')) by (apply Z.pow_pos_nonneg; lia).
  assert (Hq0 : 0 <= q) by (rewrite Hq; apply Z.div_pos; nia).
  assert (Hq1 : q <= 2 ^ (- e')).
  { rewrite Hq, Hm'. apply Z.div_le_upper_bound; [lia |].
    apply Z.mul_le_mono_nonneg_r; lia. }
  repeat split; try assumption.
  assert (Zdigits2 q <= - e' + 1); [| lia].
  apply Zdigits2_le; try lia.
  rewrite Z.pow_add_r by lia. change (2 ^ 1) with 2. lia.
Qed.

Lemma int_truediv_ok a b : 0 <= a <= b -> 0 < b -> exists q, int_truediv a b = Ok q.
Proof.
  intros Ha Hb. unfold int_truediv.
  replace (b =? 0) with false by (symmetry; apply Z.eqb_neq; lia).
  destruct b as [| pb |]; try lia.
  destruct a as [| pa |]; try lia.
  - cbn. eexists. reflexivity.
  - cbn [exact_int]. unfold fdiv. cbn [SFdiv xorb].
    pose proof (SFdiv_core_bounds pa pb ltac:(lia)) as Hc.
    destruct (SFdiv_core_binary prec emax (Z.pos pa) 0 (Z.pos pb) 0) as [[q e'] l].
    destruct Hc as [Hq [He Hd]].
    pose proof (round_aux_not_inf prec emax false q e' l) as Hr.
    assert (Hni : is_inf (binary_round_aux prec emax false q e' l) = false).
    { apply Hr; unfold prec, emax, fexp, emin in *; lia. }
    destruct (binary_round_aux prec emax false q e' l); try discriminate Hni;
      eexists; reflexivity.
Qed.

Lemma percent_ok x n : 0 <= x <= n -> 0 < n -> exists r, percent x n = Ok r.
Proof.
  intros Hx Hn. unfold percent.
  destruct (int_truediv_ok x n Hx Hn) as [q ->]. cbn [bind].
  eexists. reflexivity.
Qed.

Lemma percent_zero_users x : percent x 0 = Raise ZeroDivisionError.
Proof. reflexivity. Qed.

(** ** Counting and pooling *)

Lemma count_filter pred bots :
  count pred bots = Z.of_nat (List.length (filter pred bots)).
Proof.
  unfold count.
  assert (G : forall acc, fold_left (fun a b => if pred b then a + 1 else a) bots acc
                          = acc + Z.of_nat (List.length (filter pred bots))).
  { induction bots as [| b bots IH]; intro acc; cbn [fold_left filter].
    - cbn. lia.
    - rewrite IH. destruct (pred b); cbn [List.length]; lia. }
  rewrite G. lia.
Qed.

Lemma count_bounds pred bots : 0 <= count pred bots <= Z.of_nat (List.length bots).
Proof.
  rewrite count_filter. pose proof (filter_length_le pred bots). lia.
Qed.

Lemma count_app pred l1 l2 : count pred (l1 ++ l2) = count pred l1 + count pred l2.
Proof. rewrite !count_filter, filter_app, length_app. lia. Qed.

Lemma pool_fold bots all sent received :
  fold_left (fun acc b =>
               let '(all_latencies, sent, received) := acc in
               (all_latencies ++ latencies b,
                sent + packets_sent b,
                received + packets_received b))
            bots (all, sent, received)
  = (all ++ List.concat (map latencies bots),
     sent + sum_Z (map packets_sent bots),
     received + sum_Z (map packets_received bots)).
Proof.
  revert all sent received.
  induction bots as [| b bots IH]; intros all sent received; cbn [fold_left map List.concat sum_Z fold_right].
  - rewrite app_nil_r, !Z.add_0_r. reflexivity.
  - rewrite IH. unfold sum_Z. rewrite <- app_assoc. f_equal; [f_equal |]; lia.
Qed.

Lemma pool_spec bots :
  pool bots = (List.concat (map latencies bots),
               sum_Z (map packets_sent bots),
               sum_Z (map packets_received bots)).
Proof. unfold pool. rewrite pool_fold. reflexivity. Qed.

Lemma latency_stats_ok py_sum l :
  Z.of_nat (List.length l) <= max_len -> exists st, latency_stats py_sum l = Ok st.
Proof.
  intro Hlen. destruct (latency_stats_total py_sum l) as [H | [_ Hbig]]; [exact H |].
  unfold max_len in Hlen.
  assert (2 ^ 63 <= 2 ^ 1023) by (apply Z.pow_le_mono_r; lia). lia.
Qed.

(** A level with at least one user and as many observed bots as users
    yields its result record. *)
Lemma run_benchmark_ok py_sum num_users dur settled final :
  1 <= num_users ->
  Z.of_nat (List.length settled) <= num_users ->
  Z.of_nat (List.length (List.concat (map latencies final))) <= max_len ->
  exists st rate,
    latency_stats py_sum (List.concat (map latencies final)) = Ok st /\
    percent (count connected settled) num_users = Ok rate /\
    run_benchmark py_sum num_users dur settled final
    = Ok (mkResult num_users dur (count connected settled) (count spawned settled)
                   (sum_Z (map packets_sent final))
                   (sum_Z (map packets_received final)) st rate).
Proof.
  intros Hn Hlen Hsamples.
  destruct (latency_stats_ok py_sum _ Hsamples) as [st Hst].
  pose proof (count_bounds connected settled) as Hc.
  pose proof (count_bounds spawned settled) as Hs.
  destruct (percent_ok (count connected settled) num_users ltac:(lia) ltac:(lia)) as [rate Hrate].
  destruct (percent_ok (count spawned settled) num_users ltac:(lia) ltac:(lia)) as [rate' Hrate'].
  exists st, rate. split; [exact Hst |]. split; [exact Hrate |].
  unfold run_benchmark. rewrite pool_spec, Hst. cbn [bind].
  rewrite Hrate, Hrate'. cbn [bind]. reflexivity.
Qed.

Lemma run_benchmark_zero_users py_sum dur settled final :
  Z.of_nat (List.length (List.concat (map latencies final))) <= max_len ->
  run_benchmark py_sum 0 dur settled final = Raise ZeroDivisionError.
Proof.
  intro Hsamples. destruct (latency_stats_ok py_sum _ Hsamples) as [st Hst].
  unfold run_benchmark. rewrite pool_spec, Hst. reflexivity.
Qed.

Lemma run_benchmark_fields py_sum num_users d settled final r :
  run_benchmark py_sum num_users d settled final = Ok r ->
  users r = num_users /\
  connected_count r = count connected settled /\
  spawned_count r = count spawned settled /\
  total_packets_sent r = sum_Z (map packets_sent final) /\
  total_packets_received r = sum_Z (map packets_received final) /\
  latency_stats py_sum (List.concat (map latencies final)) = Ok (stats r).
Proof.
  unfold run_benchmark. rewrite pool_spec.
  destruct (latency_stats py_sum (List.concat (map latencies final))) as [st | e];
    cbn [bind]; [| discriminate].
  destruct (percent (count connected settled) num_users); cbn [bind]; [| discriminate].
  destruct (percent (count spawned settled) num_users); cbn [bind]; [| discriminate].
  intro H. injection H as <-. cbn. repeat split; reflexivity.
Qed.

(** ** Session invariants *)

Ltac unfold_step H :=
  cbv beta iota zeta delta
    [step measure_latency receive_loop loop_head after_loop disconnect
     spawn_bot begin_send sent with_bot with_main with_receiver
     receive_loop_head cancel poll_next set_running set_connected set_spawned
     set_start_time append_latency incr_sent incr_received
     bot main_task receive_task duration end_time send_time pending wire connects
     spawn_calls bot_id url websocket running connected spawned latencies
     start_time packets_sent packets_received] in H.

Ltac break_step H :=
  repeat match type of H with
         | context [match ?x with _ => _ end] => destruct x eqn:?
         end;
  try discriminate H.

Ltac step_cases H :=
  unfold_step H; break_step H;
  injection H as <-;
  cbn [bot main_task receive_task duration end_time send_time pending wire connects
       spawn_calls bot_id url websocket running connected spawned latencies
       start_time packets_sent packets_received in_protocol].

Lemma run_app evs1 evs2 s :
  run (evs1 ++ evs2) s = match run evs1 s with
                         | Some s' => run evs2 s'
                         | None => None
                         end.
Proof.
  revert s. induction evs1 as [| e evs1 IH]; intro s; cbn [run app].
  - reflexivity.
  - destruct (step e s); [apply IH | reflexivity].
Qed.

Lemma reachable_refl s : reachable s s.
Proof. exists []. reflexivity. Qed.

Lemma reachable_trans s1 s2 s3 : reachable s1 s2 -> reachable s2 s3 -> reachable s1 s3.
Proof.
  intros [e1 H1] [e2 H2]. exists (e1 ++ e2). rewrite run_app, H1. exact H2.
Qed.

Lemma reachable_step e s s' : step e s = Some s' -> reachable s s'.
Proof. intro H. exists [e]. cbn [run]. rewrite H. reflexivity. Qed.

(** An invariant of every step holds in every reachable state. *)
Lemma reachable_ind (P : state -> Prop) :
  (forall e s s', P s -> step e s = Some s' -> P s') ->
  forall s0 s, P s0 -> reachable s0 s -> P s.
Proof.
  intros Hstep s0 s H0 [evs Hrun]. revert s0 H0 Hrun.
  induction evs as [| e evs IH]; intros s0 H0 Hrun; cbn [run] in Hrun.
  - injection Hrun as <-. exact H0.
  - destruct (step e s0) as [s1 |] eqn:E; [| discriminate].
    apply (IH s1); [eapply Hstep; eauto | exact Hrun].
Qed.

Lemma connecting_inv_step e s s' :
  connecting_inv s -> step e s = Some s' -> connecting_inv s'.
Proof.
  unfold connecting_inv, untouched.
  destruct s as [b pc rc dur et st pd w cn sc]. destruct b as [id u ws rn co sp la stt ps pr].
  cbn [bot main_task receive_task wire connects websocket connected spawned
       latencies packets_sent packets_received].
  intros [HN HC] H.
  destruct e as [o d | o |]; step_cases H;
    (split; intro Hpc; try discriminate Hpc);
    try (destruct HN as [HN1 HN2]; [reflexivity |]; intuition congruence);
    try (destruct HC as [HC1 HC2]; [reflexivity |]; intuition congruence);
    try (specialize (HN eq_refl)); try (specialize (HC eq_refl));
    intuition (try congruence; try discriminate).
Qed.

Lemma connect_failed_step e s s' :
  connect_failed s -> step e s = Some s' -> connect_failed s'.
Proof.
  unfold connect_failed, untouched.
  destruct s as [b pc rc dur et st pd w cn sc]. destruct b as [id u ws rn co sp la stt ps pr].
  cbn [bot main_task receive_task wire connects websocket connected spawned
       latencies packets_sent packets_received].
  intros [Hpc [[Hrc Hrest] Hcn]] H. subst pc rc.
  destruct e as [o d | o |]; step_cases H; intuition congruence.
Qed.

Lemma session_inv_step e s s' :
  session_inv s -> step e s = Some s' -> session_inv s'.
Proof.
  unfold session_inv.
  destruct s as [b pc rc dur et st pd w cn sc]. destruct b as [id u ws rn co sp la stt ps pr].
  cbn [bot main_task receive_task spawn_calls connected spawned].
  intros [H1 [H2 H3]] H.
  destruct e as [o d | o |]; step_cases H;
    cbn [in_protocol] in *;
    repeat split; intros; try discriminate; try congruence; try lia;
    try (apply H1; congruence); try (apply H2; congruence);
    try (apply H3; (reflexivity || assumption));
    try (destruct H2 as [? ?]; [congruence |]; (assumption || lia)).
Qed.

Lemma initial_connecting_inv id u dur :
  connecting_inv (initial (BenchmarkBot_init id u) dur).
Proof.
  unfold connecting_inv, untouched. cbn. split; intro H; [| discriminate].
  repeat split; reflexivity.
Qed.

Lemma initial_session_inv id u dur :
  session_inv (initial (BenchmarkBot_init id u) dur).
Proof.
  unfold session_inv. cbn. intuition (try congruence; try discriminate).
Qed.

(** No step changes the identity of the bot. *)
Lemma step_bot_id e s s' : step e s = Some s' -> bot_id (bot s') = bot_id (bot s).
Proof.
  destruct s as [b pc rc dur et st pd w cn sc]. destruct b as [id u ws rn co sp la stt ps pr].
  intro H. destruct e as [o d | o |]; step_cases H; reflexivity.
Qed.

Lemma reachable_bot_id s0 s : reachable s0 s -> bot_id (bot s) = bot_id (bot s0).
Proof.
  intro H.
  apply (reachable_ind (fun s => bot_id (bot s) = bot_id (bot s0))) with (s0 := s0);
    [| reflexivity | exact H].
  intros e s1 s2 IH Hs. rewrite (step_bot_id e s1 s2 Hs). exact IH.
Qed.

(** ** Latency samples are never NaN *)

Lemma round_aux_not_nan p em s m ex lx :
  0 <= m -> is_nan (binary_round_aux p em s m ex lx) = false.
Proof.
  intro Hm. unfold binary_round_aux.
  pose proof (shr_fexp_mantissa p em m ex lx Hm) as [Hm1 _]. cbn zeta in Hm1.
  destruct (shr_fexp p em m ex lx) as [mrs' e'] eqn:E1. cbn [fst snd] in *.
  set (m2 := round_nearest_even (shr_m mrs') (loc_of_shr_record mrs')).
  pose proof (rne_range (shr_m mrs') (loc_of_shr_record mrs') Hm1) as Hm2. fold m2 in Hm2.
  pose proof (shr_fexp_mantissa p em m2 e' loc_Exact ltac:(lia)) as [Hm3 _]. cbn zeta in Hm3.
  destruct (shr_fexp p em m2 e' loc_Exact) as [mrs'' e''] eqn:E2. cbn [fst snd] in *.
  destruct (shr_m mrs'') as [| q | q]; [reflexivity | | lia].
  destruct (e'' <=? em - p); reflexivity.
Qed.

Lemma binary_normalize_not_nan p em m e sz :
  is_nan (binary_normalize p em m e sz) = false.
Proof.
  unfold binary_normalize. destruct m as [| q | q]; [reflexivity | |];
    unfold binary_round;
    destruct (shl_align q e (fexp p em (Z.pos (digits2_pos q) + e))) as [mz ez];
    apply round_aux_not_nan; lia.
Qed.

Lemma fsub_finite x y :
  is_finite x = true -> is_finite y = true -> is_nan (fsub x y) = false.
Proof.
  destruct x as [sx | sx | | sx mx ex], y as [sy | sy | | sy my ey];
    try discriminate; intros _ _; unfold fsub, SFsub.
  - destruct sx, sy; reflexivity.
  - reflexivity.
  - reflexivity.
  - apply binary_normalize_not_nan.
Qed.

Lemma float_mul_int_1000 x y :
  is_nan x = false -> float_mul_int x 1000 = Ok y -> is_nan y = false.
Proof.
  intros Hx H. unfold float_mul_int in H.
  assert (E : float_of_int 1000 = Ok (S754_finite false 8796093022208000 (-43)))
    by (vm_compute; reflexivity).
  rewrite E in H. cbn [bind] in H. injection H as <-.
  destruct x as [sx | sx | | sx mx ex]; try discriminate; unfold fmul, SFmul;
    try reflexivity.
  apply round_aux_not_nan. lia.
Qed.

Lemma timed_step e s s' :
  finite_clocks e = true -> timed s -> step e s = Some s' -> timed s'.
Proof.
  unfold timed, no_nan.
  destruct s as [b pc rc dur et st pd w cn sc]. destruct b as [id u ws rn co sp la stt ps pr].
  cbn [bot send_time latencies].
  intros Hc [Hst Hla] H.
  destruct e as [o d | o |]; cbn [finite_clocks] in Hc;
    [apply andb_prop in Hc; destruct Hc as [Hc Hc3];
     apply andb_prop in Hc; destruct Hc as [Hc1 Hc2] | |];
    step_cases H; try (split; assumption).
  all: split; try assumption.
  all: try (apply Forall_app; split; [assumption |]; constructor; [| constructor];
    eapply float_mul_int_1000; [| eassumption]; apply fsub_finite; assumption).
Qed.

Lemma timed_run evs s s' :
  forallb finite_clocks evs = true -> timed s -> run evs s = Some s' -> timed s'.
Proof.
  revert s. induction evs as [| e evs IH]; intros s Hc Hs Hrun; cbn [run] in Hrun.
  - injection Hrun as <-. exact Hs.
  - cbn [forallb] in Hc. apply andb_prop in Hc. destruct Hc as [He Hc].
    destruct (step e s) as [s1 |] eqn:E; [| discriminate].
    apply (IH s1 Hc); [exact (timed_step e s s1 He Hs E) | exact Hrun].
Qed.

Lemma session_bot_no_nan b : session_bot b -> no_nan (latencies b).
Proof.
  intros [id [u [dur [evs [s [Hc [Hrun <-]]]]]]].
  apply (timed_run evs (initial (BenchmarkBot_init id u) dur) s Hc); [| exact Hrun].
  split; [reflexivity | constructor].
Qed.

Lemma pool_no_nan bots :
  Forall session_bot bots -> no_nan (List.concat (map latencies bots)).
Proof.
  induction 1 as [| b bots Hb _ IH]; cbn [map List.concat].
  - constructor.
  - apply Forall_app. split; [apply session_bot_no_nan; exact Hb | exact IH].
Qed.

Lemma session_bot_after evs id :
  forallb finite_clocks evs = true -> run evs (session_of id) <> None ->
  session_bot (bot_after evs id).
Proof.
  intros Hc Hrun. unfold bot_after, final_of.
  destruct (run evs (session_of id)) as [s |] eqn:E; [| congruence].
  exists id, benchmark_url, 120, evs, s. repeat split; assumption.
Qed.

Lemma sample_level_sessions : Forall session_bot sample_level.
Proof.
  unfold sample_level.
  repeat (apply Forall_cons;
          [apply session_bot_after; vm_compute; [reflexivity | discriminate] |]).
  apply Forall_nil.
Qed.

Lemma uneven_level_sessions : Forall session_bot uneven_level.
Proof.
  unfold uneven_level.
  repeat (apply Forall_cons;
          [apply session_bot_after; vm_compute; [reflexivity | discriminate] |]).
  apply Forall_nil.
Qed.

(** * The claims *)

(** ** Wire codec *)

(** C1, as stated, fails: the claim lays the Input frame out as a tag
    byte, ONE flags byte and four 4-byte floats.  For the command
    (Up, 1.0, 1.0, 0.5, 0.5) the encoder returns a frame that is not of
    that layout for any choice of the four float fields: it is 21 bytes
    long, the flags taking bytes 1 to 4. *)
Lemma input_frame_not_one_flag_byte :
  exists frame,
    input_packet (Some Up) f1 f1 f0_5 f0_5 = Ok frame /\
    List.length frame = 21%nat /\
    firstn 5 frame = [x01; x02; x00; x00; x00] /\
    forall fa fb fc fd,
      pack_f f1 = Ok fa -> pack_f f1 = Ok fb ->
      pack_f f0_5 = Ok fc -> pack_f f0_5 = Ok fd ->
      frame <> table_input_frame (Some Up) fa fb fc fd.
Proof.
  eexists. split; [vm_compute; reflexivity |].
  split; [reflexivity |]. split; [reflexivity |].
  intros fa fb fc fd Ha Hb Hc Hd.
  vm_compute in Ha, Hb, Hc, Hd.
  injection Ha as <-. injection Hb as <-. injection Hc as <-. injection Hd as <-.
  vm_compute. discriminate.
Qed.

(** C1, amended: every encoded Input message consists of a one-byte tag
    equal to 1, followed by a FOUR-byte little-endian flags field (the
    flag value in its first byte, then three zero bytes), followed by
    four little-endian 4-byte floats (axis1x, axis1y, axis2x, axis2y),
    in that order: 21 bytes in all.  The encoder returns such a frame
    for every generated flag value and all axes of moderate magnitude. *)
Theorem input_frame_layout (fl : option InputFlags) (a b c d : float) :
  (forall frame,
     input_packet fl a b c d = Ok frame ->
     exists fa fb fc fd,
       pack_f a = Ok fa /\ pack_f b = Ok fb /\ pack_f c = Ok fc /\ pack_f d = Ok fd /\
       List.length fa = 4%nat /\ List.length fb = 4%nat /\
       List.length fc = 4%nat /\ List.length fd = 4%nat /\
       frame = [x01] ++ [byte_of_Z (flags_value fl); x00; x00; x00]
                     ++ fa ++ fb ++ fc ++ fd /\
       0 <= flags_value fl < 256 /\
       List.length frame = 21%nat) /\
  (moderate a -> moderate b -> moderate c -> moderate d ->
   exists frame, input_packet fl a b c d = Ok frame).
Proof.
  assert (Hlen : forall x bs, pack_f x = Ok bs -> List.length bs = 4%nat).
  { intros x bs. unfold pack_f.
    destruct (is_inf (to_binary32 x) && negb (is_inf x)); [discriminate |].
    intro H. injection H as <-. reflexivity. }
  assert (Hfl : pack_i (flags_value fl) = Ok [byte_of_Z (flags_value fl); x00; x00; x00]
                /\ 0 <= flags_value fl < 256).
  { destruct fl as [[] |]; (split; [reflexivity | cbn; lia]). }
  destruct Hfl as [Hpi Hrange].
  split.
  - intros frame H. unfold input_packet, pack_Biffff in H.
    change (pack_B (ServerBound_value Input)) with (@Ok (list byte) [x01]) in H.
    rewrite Hpi in H. cbn [bind] in H.
    destruct (pack_f a) as [fa |] eqn:Pa; [| discriminate H].
    destruct (pack_f b) as [fb |] eqn:Pb; [| discriminate H].
    destruct (pack_f c) as [fc |] eqn:Pc; [| discriminate H].
    destruct (pack_f d) as [fd |] eqn:Pd; [| discriminate H].
    cbn [bind] in H. injection H as <-.
    exists fa, fb, fc, fd.
    pose proof (Hlen a fa Pa) as La. pose proof (Hlen b fb Pb) as Lb.
    pose proof (Hlen c fc Pc) as Lc. pose proof (Hlen d fd Pd) as Ld.
    repeat (split; [first [reflexivity | assumption] |]).
    cbn [app List.length]. rewrite !length_app, La, Lb, Lc, Ld. reflexivity.
  - intros Ha Hb Hc Hd.
    destruct (pack_f_moderate a Ha) as [fa [Pa _]].
    destruct (pack_f_moderate b Hb) as [fb [Pb _]].
    destruct (pack_f_moderate c Hc) as [fc [Pc _]].
    destruct (pack_f_moderate d Hd) as [fd [Pd _]].
    unfold input_packet, pack_Biffff.
    change (pack_B (ServerBound_value Input)) with (@Ok (list byte) [x01]).
    rewrite Hpi, Pa, Pb, Pc, Pd. cbn [bind]. eexists. reflexivity.
Qed.

Lemma input_frame_layout_witness :
  (moderate f1 /\ moderate f0_5) /\
  exists frame,
    input_packet (Some Up) f1 f1 f0_5 f0_5 = Ok frame /\
    exists fa fb fc fd,
      pack_f f1 = Ok fa /\ pack_f f1 = Ok fb /\
      pack_f f0_5 = Ok fc /\ pack_f f0_5 = Ok fd /\
      List.length fa = 4%nat /\ List.length fb = 4%nat /\
      List.length fc = 4%nat /\ List.length fd = 4%nat /\
      frame = [x01] ++ [byte_of_Z (flags_value (Some Up)); x00; x00; x00]
                    ++ fa ++ fb ++ fc ++ fd /\
      0 <= flags_value (Some Up) < 256 /\
      List.length frame = 21%nat.
Proof.
  assert (H1 : moderate f1) by (cbn; lia).
  assert (H2 : moderate f0_5) by (cbn; lia).
  split; [split; assumption |].
  destruct (proj2 (input_frame_layout (Some Up) f1 f1 f0_5 f0_5) H1 H1 H2 H2)
    as [frame Hframe].
  exists frame. split; [exact Hframe |].
  exact (proj1 (input_frame_layout (Some Up) f1 f1 f0_5 f0_5) frame Hframe).
Defined.

(** ** Connection session *)

(** C2, as stated, fails: there is an execution that sets
    [spawned = true] with zero Spawn frames sent.  The session connects,
    sends Init and is accepted; both [spawn_bot] calls fail in their
    send and swallow the failure; the receive task, started before the
    first of them, then reads a frame tagged 2. *)
Lemma spawned_without_spawn_frame :
  exists s,
    reachable fresh_session s /\
    spawned (bot s) = true /\
    spawn_frames_sent s = 0%nat /\
    packets_sent (bot s) = 1.
Proof.
  exists (final_of failed_spawns_trace fresh_session).
  split; [exists failed_spawns_trace; vm_compute; reflexivity |].
  repeat split; vm_compute; reflexivity.
Qed.

(** C2, amended: for every session, the [spawned] flag may only become
    true after [connected] is true and after the background receive task
    was started, that is after the session has called [spawn_bot] at
    least once; in every reachable interleaving of the session's send
    loop and receive task, no execution sets [spawned = true] before the
    first Spawn send was attempted.  (The attempt need not have
    succeeded.) *)
Theorem spawned_after_connect_and_spawn_attempt (id : Z) (u : string) (dur : Z) (s : state) :
  reachable (initial (BenchmarkBot_init id u) dur) s ->
  spawned (bot s) = true ->
  connected (bot s) = true /\ (1 <= spawn_calls s)%nat /\ receive_task s <> RIdle.
Proof.
  intros Hr Hs.
  assert (Hinv : session_inv s).
  { apply (reachable_ind session_inv session_inv_step _ _ (initial_session_inv id u dur) Hr). }
  destruct Hinv as [H1 [H2 H3]].
  assert (Hrc : receive_task s <> RIdle).
  { intro Hc. apply H1 in Hc. congruence. }
  destruct (H2 Hrc) as [Hc Hn]. auto.
Qed.

Lemma spawned_after_connect_and_spawn_attempt_witness :
  let s := final_of spawned_trace fresh_session in
  (reachable fresh_session s /\ spawned (bot s) = true /\ spawn_frames_sent s = 2%nat) /\
  (connected (bot s) = true /\ (1 <= spawn_calls s)%nat /\ receive_task s <> RIdle).
Proof.
  assert (Hr : reachable fresh_session (final_of spawned_trace fresh_session))
    by (exists spawned_trace; vm_compute; reflexivity).
  split.
  - split; [exact Hr |]. split; vm_compute; reflexivity.
  - apply (spawned_after_connect_and_spawn_attempt 0 benchmark_url 120 _ Hr).
    vm_compute; reflexivity.
Defined.

(** ** Metrics aggregator *)

(** C3: for every non-empty pooled latency sequence (the samples of a
    level's sessions, which hold no NaN; fewer than [max_samples] of
    them), percentile p is selected at zero-based index floor(p * N) of
    the sorted pooled samples: the sorted list is the pool rearranged
    in ascending order, the index the code computes in floating point is
    exactly 95N/100, 99N/100 and 995N/1000 rounded down, the median is
    taken at N // 2, and the statistics of the block, which are those of
    every result record of the level, are the sorted samples at these
    positions.  In particular for the pooled samples 10, 20, 30, 40, 100
    (N = 5), in whatever order they were pooled, the sorted list is
    [10, 20, 30, 40, 100], p95 = 100, p99.5 = 100 and the median = 30. *)
Theorem percentile_selection (py_sum : list float -> float) (bots : list BenchmarkBot) :
  Forall session_bot bots ->
  List.concat (map latencies bots) <> [] ->
  Z.of_nat (List.length (List.concat (map latencies bots))) < max_samples ->
  let l := List.concat (map latencies bots) in
  let n := Z.of_nat (List.length l) in
  let s := list_sort l in
  (no_nan l /\ Permutation l s /\ sorted s) /\
  (percentile_index n lit_0_95 = Ok (95 * n / 100) /\
   percentile_index n lit_0_99 = Ok (99 * n / 100) /\
   percentile_index n lit_0_995 = Ok (995 * n / 1000)) /\
  (exists st,
     latency_stats py_sum l = Ok st /\
     (forall num_users dur settled r,
         run_benchmark py_sum num_users dur settled bots = Ok r -> stats r = st) /\
     option_map PFloat (nth_error s (Z.to_nat (n / 2))) = Some (median_latency st) /\
     option_map PFloat (nth_error s (Z.to_nat (95 * n / 100))) = Some (p95_latency st) /\
     option_map PFloat (nth_error s (Z.to_nat (99 * n / 100))) = Some (p99_latency st) /\
     option_map PFloat (nth_error s (Z.to_nat (995 * n / 1000))) = Some (p99_5_latency st)) /\
  (forall l5,
     Permutation l5 [f10; f20; f30; f40; f100] ->
     list_sort l5 = [f10; f20; f30; f40; f100] /\
     exists st5,
       latency_stats py_sum l5 = Ok st5 /\
       p95_latency st5 = PFloat f100 /\
       p99_5_latency st5 = PFloat f100 /\
       median_latency st5 = PFloat f30).
Proof.
  intros Hb Hne Hlen l n s.
  assert (Hnan : no_nan l) by (apply pool_no_nan; exact Hb).
  assert (Hn : 1 <= n < max_samples).
  { subst n. split; [| exact Hlen]. fold l in Hne.
    destruct l; [congruence | cbn [List.length]; lia]. }
  split; [| split; [| split]].
  - split; [exact Hnan |].
    split; [apply list_sort_perm | apply list_sort_sorted; exact Hnan].
  - split; [apply percentile_index_0_95 | split;
      [apply percentile_index_0_99 | apply percentile_index_0_995]]; exact Hn.
  - destruct (latency_stats_nonempty py_sum l Hne Hlen)
      as [avg [md [p95 [p99 [p995 [mn [mx [Hst [Nmd [N95 [N99 [N995 _]]]]]]]]]]]].
    cbn zeta in Nmd, N95, N99, N995. fold n s in Nmd, N95, N99, N995.
    eexists. split; [exact Hst |]. split.
    + intros num_users dur settled r Hr.
      destruct (run_benchmark_fields py_sum num_users dur settled bots r Hr)
        as [_ [_ [_ [_ [_ Hs]]]]].
      fold l in Hs. rewrite Hst in Hs. injection Hs as <-. reflexivity.
    + cbn [median_latency p95_latency p99_latency p99_5_latency].
      rewrite Nmd, N95, N99, N995. repeat split; reflexivity.
  - intros l5 Hp.
    pose proof (scenario_sorted l5 Hp) as Hs5.
    split; [exact Hs5 |].
    pose proof (Permutation_length Hp) as Hl5. cbn [List.length] in Hl5.
    assert (Hne5 : l5 <> []) by (intro E; rewrite E in Hl5; discriminate).
    assert (Hlen5 : Z.of_nat (List.length l5) < max_samples)
      by (rewrite Hl5; vm_compute; reflexivity).
    destruct (latency_stats_nonempty py_sum l5 Hne5 Hlen5)
      as [avg [md [p95 [p99 [p995 [mn [mx [Hst [Nmd [N95 [N99 [N995 _]]]]]]]]]]]].
    cbn zeta in Nmd, N95, N995. rewrite Hs5, Hl5 in Nmd, N95, N995.
    vm_compute in Nmd, N95, N995.
    injection Nmd as <-. injection N95 as <-. injection N995 as <-.
    eexists. split; [exact Hst |]. repeat split; reflexivity.
Qed.

Lemma percentile_selection_witness :
  let l := List.concat (map latencies uneven_level) in
  let n := Z.of_nat (List.length l) in
  let s := list_sort l in
  (Forall session_bot uneven_level /\ l <> [] /\ n < max_samples) /\
  (n = 5 /\ s <> l /\ nth_error s 4 <> nth_error l 4) /\
  (no_nan l /\ Permutation l s /\ sorted s) /\
  (percentile_index n lit_0_95 = Ok (95 * n / 100) /\
   percentile_index n lit_0_99 = Ok (99 * n / 100) /\
   percentile_index n lit_0_995 = Ok (995 * n / 1000)) /\
  (exists st,
     latency_stats naive_sum l = Ok st /\
     (forall num_users dur settled r,
         run_benchmark naive_sum num_users dur settled uneven_level = Ok r -> stats r = st) /\
     option_map PFloat (nth_error s (Z.to_nat (n / 2))) = Some (median_latency st) /\
     option_map PFloat (nth_error s (Z.to_nat (95 * n / 100))) = Some (p95_latency st) /\
     option_map PFloat (nth_error s (Z.to_nat (99 * n / 100))) = Some (p99_latency st) /\
     option_map PFloat (nth_error s (Z.to_nat (995 * n / 1000))) = Some (p99_5_latency st)) /\
  (forall l5,
     Permutation l5 [f10; f20; f30; f40; f100] ->
     list_sort l5 = [f10; f20; f30; f40; f100] /\
     exists st5,
       latency_stats naive_sum l5 = Ok st5 /\
       p95_latency st5 = PFloat f100 /\
       p99_5_latency st5 = PFloat f100 /\
       median_latency st5 = PFloat f30).
Proof.
  cbv zeta.
  assert (H1 : List.concat (map latencies uneven_level) <> [])
    by (vm_compute; discriminate).
  assert (H2 : Z.of_nat (List.length (List.concat (map latencies uneven_level)))
               < max_samples)
    by (vm_compute; reflexivity).
  split; [split; [exact uneven_level_sessions | split; [exact H1 | exact H2]] |].
  split; [split; [vm_compute; reflexivity | split; vm_compute; discriminate] |].
  exact (percentile_selection naive_sum uneven_level uneven_level_sessions H1 H2).
Defined.

(** C4: when the pooled latency sample sequence of a load level is
    empty (N = 0), summarization does not fail: all latency statistics
    (avg, median, min, max, p95, p99, p99.5) are reported as exactly the
    int 0, and a level of at least one user whose bots recorded no
    sample returns its result record with these statistics. *)
Theorem empty_pool_statistics (py_sum : list float -> float) (num_users : Z)
    (dur : float) (settled final : list BenchmarkBot) :
  1 <= num_users ->
  Z.of_nat (List.length settled) = num_users ->
  List.concat (map latencies final) = [] ->
  latency_stats py_sum [] = Ok zero_stats /\
  exists r,
    run_benchmark py_sum num_users dur settled final = Ok r /\
    stats r = zero_stats /\
    avg_latency (stats r) = PInt 0 /\ median_latency (stats r) = PInt 0 /\
    min_latency (stats r) = PInt 0 /\ max_latency (stats r) = PInt 0 /\
    p95_latency (stats r) = PInt 0 /\ p99_latency (stats r) = PInt 0 /\
    p99_5_latency (stats r) = PInt 0.
Proof.
  intros Hn Hlen Hempty. split; [reflexivity |].
  destruct (run_benchmark_ok py_sum num_users dur settled final Hn ltac:(lia))
    as [st [rate [Hst [_ Hrun]]]].
  { rewrite Hempty. vm_compute. discriminate. }
  rewrite Hempty in Hst. cbn [latency_stats] in Hst. injection Hst as <-.
  eexists. split; [exact Hrun |]. repeat split; reflexivity.
Qed.

Lemma empty_pool_statistics_witness :
  (1 <= 3 /\ Z.of_nat (List.length (make_bots 3)) = 3 /\
   List.concat (map latencies (make_bots 3)) = []) /\
  latency_stats naive_sum [] = Ok zero_stats /\
  exists r,
    run_benchmark naive_sum 3 f0 (make_bots 3) (make_bots 3) = Ok r /\
    stats r = zero_stats /\
    avg_latency (stats r) = PInt 0 /\ median_latency (stats r) = PInt 0 /\
    min_latency (stats r) = PInt 0 /\ max_latency (stats r) = PInt 0 /\
    p95_latency (stats r) = PInt 0 /\ p99_latency (stats r) = PInt 0 /\
    p99_5_latency (stats r) = PInt 0.
Proof.
  split.
  - repeat split; try reflexivity. lia.
  - apply (empty_pool_statistics naive_sum 3 f0 (make_bots 3) (make_bots 3));
      [lia | reflexivity | reflexivity].
Defined.

(** On a list without NaN the statistics come out in order. *)
Lemma latency_stats_ordered (py_sum : list float -> float) (l : list float) :
  l <> [] -> no_nan l -> Z.of_nat (List.length l) <= max_len ->
  exists avg mn md p95 p99 p995 mx,
    latency_stats py_sum l
    = Ok (mkStats (PFloat avg) (PFloat md) (PFloat p95) (PFloat p99)
                  (PFloat p995) (PFloat mn) (PFloat mx)) /\
    fle mn md = true /\ fle md p95 = true /\ fle p95 p99 = true /\
    fle p99 p995 = true /\ fle p995 mx = true.
Proof.
  intros Hne Hnan Hlen.
  assert (Hn : 1 <= Z.of_nat (List.length l) < 2 ^ 1023).
  { split; [destruct l; [congruence | cbn [List.length]; lia] |].
    unfold max_len in Hlen.
    assert (2 ^ 63 <= 2 ^ 1023) by (apply Z.pow_le_mono_r; lia). lia. }
  destruct (float_of_int_positive_ok _ Hn) as [pw [e Hf]].
  destruct (latency_stats_general py_sum l _ Hne Hf)
    as [avg [md [p95 [p99 [p995 [mn [mx [i95 [i99 [i995
       [Hst [_ [[H0 [H1 [H2 [H3 H4]]]] [_ [[Nmd [N95 [N99 N995]]] [Hmn Hmx]]]]]]]]]]]]]]]].
  cbn zeta in *.
  set (n := Z.of_nat (List.length l)) in *. set (s := list_sort l) in *.
  assert (Hsn : no_nan s) by (apply list_sort_no_nan; exact Hnan).
  assert (Hss : sorted s) by (apply list_sort_sorted; exact Hnan).
  assert (Hsne : s <> []).
  { intro E. rewrite E in Nmd. destruct (Z.to_nat (n / 2)); discriminate. }
  destruct (py_min_spec s Hsne Hsn) as [mn' [Hmn' Hlow]].
  destruct (py_max_spec s Hsne Hsn) as [mx' [Hmx' Hhigh]].
  rewrite Hmn in Hmn'. injection Hmn' as <-.
  rewrite Hmx in Hmx'. injection Hmx' as <-.
  rewrite Forall_forall in Hlow, Hhigh.
  exists avg, mn, md, p95, p99, p995, mx.
  split; [exact Hst |].
  split; [apply Hlow; eapply nth_error_In; exact Nmd |].
  split; [eapply (sorted_nth s); [exact Hsn | exact Hss | | exact Nmd | exact N95]; lia |].
  split; [eapply (sorted_nth s); [exact Hsn | exact Hss | | exact N95 | exact N99]; lia |].
  split; [eapply (sorted_nth s); [exact Hsn | exact Hss | | exact N99 | exact N995]; lia |].
  apply Hhigh. eapply nth_error_In. exact N995.
Qed.

(** C5: for every load level with N > 0 pooled latency samples, the
    reported statistics satisfy
    min <= median <= p95 <= p99 <= p99.5 <= max.  The level's bots are
    those of sessions that ran with finite clock readings; the statistics
    are the ones the statistics block computes on the pooled samples and
    the ones every result record of the level carries. *)
Theorem statistics_ordered (py_sum : list float -> float) (bots : list BenchmarkBot) :
  Forall session_bot bots ->
  List.concat (map latencies bots) <> [] ->
  Z.of_nat (List.length (List.concat (map latencies bots))) <= max_len ->
  exists avg mn md p95 p99 p995 mx,
    latency_stats py_sum (List.concat (map latencies bots))
    = Ok (mkStats (PFloat avg) (PFloat md) (PFloat p95) (PFloat p99)
                  (PFloat p995) (PFloat mn) (PFloat mx)) /\
    (forall num_users dur settled r,
        run_benchmark py_sum num_users dur settled bots = Ok r ->
        stats r = mkStats (PFloat avg) (PFloat md) (PFloat p95) (PFloat p99)
                          (PFloat p995) (PFloat mn) (PFloat mx)) /\
    fle mn md = true /\ fle md p95 = true /\ fle p95 p99 = true /\
    fle p99 p995 = true /\ fle p995 mx = true.
Proof.
  intros Hb Hne Hlen.
  destruct (latency_stats_ordered py_sum _ Hne (pool_no_nan bots Hb) Hlen)
    as [avg [mn [md [p95 [p99 [p995 [mx [Hst Hord]]]]]]]].
  exists avg, mn, md, p95, p99, p995, mx.
  split; [exact Hst |]. split; [| exact Hord].
  intros num_users dur settled r Hr.
  destruct (run_benchmark_fields py_sum num_users dur settled bots r Hr)
    as [_ [_ [_ [_ [_ Hs]]]]].
  rewrite Hst in Hs. injection Hs as <-. reflexivity.
Qed.

Lemma statistics_ordered_witness :
  (Forall session_bot sample_level /\
   List.concat (map latencies sample_level) <> [] /\
   Z.of_nat (List.length (List.concat (map latencies sample_level))) <= max_len) /\
  exists avg mn md p95 p99 p995 mx,
    latency_stats naive_sum (List.concat (map latencies sample_level))
    = Ok (mkStats (PFloat avg) (PFloat md) (PFloat p95) (PFloat p99)
                  (PFloat p995) (PFloat mn) (PFloat mx)) /\
    (forall num_users dur settled r,
        run_benchmark naive_sum num_users dur settled sample_level = Ok r ->
        stats r = mkStats (PFloat avg) (PFloat md) (PFloat p95) (PFloat p99)
                          (PFloat p995) (PFloat mn) (PFloat mx)) /\
    fle mn md = true /\ fle md p95 = true /\ fle p95 p99 = true /\
    fle p99 p995 = true /\ fle p995 mx = true.
Proof.
  assert (H1 : List.concat (map latencies sample_level) <> [])
    by (vm_compute; discriminate).
  assert (H2 : Z.of_nat (List.length (List.concat (map latencies sample_level))) <= max_len)
    by (vm_compute; discriminate).
  split.
  - split; [exact sample_level_sessions |]. split; assumption.
  - exact (statistics_ordered naive_sum sample_level sample_level_sessions H1 H2).
Defined.

(** C10: for every non-empty pooled sample list of length N >= 1, every
    percentile index the aggregator computes (N // 2, int(N * 0.95),
    int(N * 0.99), int(N * 0.995)) is non-negative and strictly less
    than N, so indexing the sorted pooled list succeeds, and the
    statistics block never raises an out-of-bounds error on any list; at
    N = 0 every index is 0, which is out of bounds for the empty list,
    and the empty-list guard keeps the block away from it. *)
Theorem percentile_indices_in_range (py_sum : list float -> float) (l : list float) :
  let n := Z.of_nat (List.length l) in
  latency_stats py_sum l <> Raise IndexError /\
  (1 <= n -> n <= max_len ->
   exists i95 i99 i995,
     percentile_index n lit_0_95 = Ok i95 /\
     percentile_index n lit_0_99 = Ok i99 /\
     percentile_index n lit_0_995 = Ok i995 /\
     0 <= n / 2 < n /\ 0 <= i95 < n /\ 0 <= i99 < n /\ 0 <= i995 < n /\
     (exists a b c d,
        index (list_sort l) (n / 2) = Ok a /\ index (list_sort l) i95 = Ok b /\
        index (list_sort l) i99 = Ok c /\ index (list_sort l) i995 = Ok d) /\
     (exists st, latency_stats py_sum l = Ok st)) /\
  (percentile_index 0 lit_0_95 = Ok 0 /\ percentile_index 0 lit_0_99 = Ok 0 /\
   percentile_index 0 lit_0_995 = Ok 0 /\ index [] 0 = Raise IndexError /\
   latency_stats py_sum [] = Ok zero_stats).
Proof.
  intro n. split; [| split].
  - destruct (latency_stats_total py_sum l) as [[st H] | [H _]]; rewrite H; discriminate.
  - intros Hn Hlen.
    assert (Hne : l <> []) by (intro E; subst l; cbn in n; lia).
    assert (Hn' : 1 <= n < 2 ^ 1023).
    { split; [exact Hn |]. unfold max_len in Hlen.
      assert (2 ^ 63 <= 2 ^ 1023) by (apply Z.pow_le_mono_r; lia). lia. }
    destruct (float_of_int_positive_ok _ Hn') as [pw [e Hf]].
    destruct (latency_stats_general py_sum l _ Hne Hf)
      as [avg [md [p95 [p99 [p995 [mn [mx [i95 [i99 [i995
         [Hst [[P95 [P99 P995]] [[H0 [H1 [H2 [H3 H4]]]] [[Imd [I95 [I99 I995]]] _]]]]]]]]]]]]]].
    cbn zeta in *. fold n in P95, P99, P995, H0, H1, H2, H3, H4, Imd, I95, I99, I995.
    exists i95, i99, i995.
    repeat (split; [first [assumption | lia] |]).
    split; [exists md, p95, p99, p995; auto |].
    eexists. exact Hst.
  - repeat split; reflexivity.
Qed.

Lemma percentile_indices_in_range_witness :
  let l := [f100; f20; f10; f40; f30] in
  (1 <= 5 /\ 5 <= max_len) /\
  latency_stats naive_sum l <> Raise IndexError /\
  (exists i95 i99 i995,
     percentile_index 5 lit_0_95 = Ok i95 /\
     percentile_index 5 lit_0_99 = Ok i99 /\
     percentile_index 5 lit_0_995 = Ok i995 /\
     0 <= 5 / 2 < 5 /\ 0 <= i95 < 5 /\ 0 <= i99 < 5 /\ 0 <= i995 < 5 /\
     (exists a b c d,
        index (list_sort l) (5 / 2) = Ok a /\ index (list_sort l) i95 = Ok b /\
        index (list_sort l) i99 = Ok c /\ index (list_sort l) i995 = Ok d) /\
     (exists st, latency_stats naive_sum l = Ok st)).
Proof.
  cbv zeta.
  assert (H1 : 1 <= 5) by lia.
  assert (H2 : 5 <= max_len) by (vm_compute; discriminate).
  split; [split; assumption |]. split.
  - exact (proj1 (percentile_indices_in_range naive_sum [f100; f20; f10; f40; f30])).
  - exact (proj1 (proj2 (percentile_indices_in_range naive_sum [f100; f20; f10; f40; f30]))
             H1 H2).
Defined.

Lemma observed_ids num_users dur bots :
  observed num_users dur bots ->
  map bot_id bots = map Z.of_nat (seq 0 (Z.to_nat num_users)).
Proof.
  unfold observed, make_bots. intro H.
  assert (G : map bot_id bots
              = map bot_id (map (fun i => BenchmarkBot_init (Z.of_nat i) benchmark_url)
                                (seq 0 (Z.to_nat num_users)))).
  { induction H as [| b0 b l0 l [s [Hr Hb]] _ IH]; cbn [map]; [reflexivity |].
    rewrite IH. f_equal. subst b. rewrite (reachable_bot_id _ _ Hr). reflexivity. }
  rewrite G, map_map. reflexivity.
Qed.

(** C6: aggregation is lossless: for every session set, the level's
    totalPacketsSent equals the sum over sessions of each session's
    packetsSent (and likewise totalPacketsReceived), and the pooled
    latency sequence is exactly the concatenation of all sessions'
    per-session sample sequences in session-id order (the bots are held
    in the order of their ids 0, 1, ..., userCount - 1); the statistics
    of the result are those of that sequence. *)
Theorem aggregation_lossless (py_sum : list float -> float) (num_users dur : Z)
    (d : float) (settled final : list BenchmarkBot) (r : LevelResult) :
  observed num_users dur final ->
  run_benchmark py_sum num_users d settled final = Ok r ->
  pool final = (List.concat (map latencies final),
                sum_Z (map packets_sent final),
                sum_Z (map packets_received final)) /\
  total_packets_sent r = sum_Z (map packets_sent final) /\
  total_packets_received r = sum_Z (map packets_received final) /\
  latency_stats py_sum (List.concat (map latencies final)) = Ok (stats r) /\
  map bot_id final = map Z.of_nat (seq 0 (Z.to_nat num_users)).
Proof.
  intros Hobs Hrun.
  destruct (run_benchmark_fields _ _ _ _ _ _ Hrun) as [_ [_ [_ [Hs [Hr Hst]]]]].
  split; [apply pool_spec |].
  repeat (split; [assumption |]).
  apply (observed_ids _ _ _ Hobs).
Qed.

Lemma reachable_final_of evs s0 : run evs s0 <> None -> reachable s0 (final_of evs s0).
Proof.
  intro H. exists evs. unfold final_of. destruct (run evs s0); [reflexivity | congruence].
Qed.

Lemma observed_sample_level :
  observed 3 120 [bot_after active_trace 0; bot_after connect_timeout_trace 1;
                  bot_after spawned_trace 2].
Proof.
  unfold observed.
  change (make_bots 3) with [BenchmarkBot_init 0 benchmark_url;
                             BenchmarkBot_init 1 benchmark_url;
                             BenchmarkBot_init 2 benchmark_url].
  apply Forall2_cons; [| apply Forall2_cons; [| apply Forall2_cons; [| apply Forall2_nil]]].
  - exists (final_of active_trace (session_of 0)).
    split; [apply reachable_final_of; vm_compute; discriminate | unfold bot_after; reflexivity].
  - exists (final_of connect_timeout_trace (session_of 1)).
    split; [apply reachable_final_of; vm_compute; discriminate | unfold bot_after; reflexivity].
  - exists (final_of spawned_trace (session_of 2)).
    split; [apply reachable_final_of; vm_compute; discriminate | unfold bot_after; reflexivity].
Qed.

Lemma aggregation_lossless_witness :
  let final := [bot_after active_trace 0; bot_after connect_timeout_trace 1;
                bot_after spawned_trace 2] in
  exists r,
    (observed 3 120 final /\ run_benchmark naive_sum 3 f0 final final = Ok r) /\
    pool final = (List.concat (map latencies final),
                  sum_Z (map packets_sent final),
                  sum_Z (map packets_received final)) /\
    total_packets_sent r = sum_Z (map packets_sent final) /\
    total_packets_received r = sum_Z (map packets_received final) /\
    latency_stats naive_sum (List.concat (map latencies final)) = Ok (stats r) /\
    map bot_id final = map Z.of_nat (seq 0 (Z.to_nat 3)).
Proof.
  cbv zeta.
  destruct (run_benchmark_ok naive_sum 3 f0
              [bot_after active_trace 0; bot_after connect_timeout_trace 1;
               bot_after spawned_trace 2]
              [bot_after active_trace 0; bot_after connect_timeout_trace 1;
               bot_after spawned_trace 2])
    as [st [rate [Hst [Hrate Hrun]]]];
    [lia | vm_compute; discriminate | vm_compute; discriminate |].
  eexists. split; [split; [exact observed_sample_level | exact Hrun] |].
  exact (aggregation_lossless naive_sum 3 120 f0 _ _ _ observed_sample_level Hrun).
Defined.

Lemma connect_failure_state s0 o d s1 :
  connecting_inv s0 -> main_task s0 = MConnect -> o <> Done ->
  step (MainResumes o d) s0 = Some s1 -> connect_failed s1.
Proof.
  intros [_ HC] Hpc Ho H. destruct (HC Hpc) as [Hu Hcn].
  unfold connect_failed, untouched in *.
  destruct s0 as [b pc rc dur et st pd w cn sc].
  destruct b as [id u ws rn co sp la stt ps pr].
  cbn [bot main_task receive_task wire connects websocket connected spawned
       latencies packets_sent packets_received] in *.
  subst pc. destruct o; try congruence; step_cases H; intuition congruence.
Qed.

Lemma count_cons pred b l :
  count pred (b :: l) = (if pred b then 1 else 0) + count pred l.
Proof.
  rewrite !count_filter. cbn [filter]. destruct (pred b); cbn [List.length]; lia.
Qed.

Lemma sum_Z_app l1 l2 : sum_Z (l1 ++ l2) = sum_Z l1 + sum_Z l2.
Proof.
  unfold sum_Z. induction l1 as [| x l1 IH]; cbn [app fold_right]; lia.
Qed.

(** C7: for every session whose connect attempt fails (timeout or
    refusal), the session records zero latency samples, has
    connected = false and spawned = false at every later moment, is never
    retried (one connect call, the main task finished, no step of it
    enabled), and its failure does not abort the load level: with at
    least one user and at most [max_len] pooled samples the level
    returns its result, in which the failed session is counted in
    neither [connected] nor [spawned] and adds nothing to the samples or
    the packet totals. *)
Theorem connect_failure_is_local (py_sum : list float -> float)
    (id : Z) (u : string) (dur : Z) (s0 s1 sa sb : state) (o : outcome) (d : draws)
    (num_users : Z) (t : float) (pre post pre' post' : list BenchmarkBot) :
  reachable (initial (BenchmarkBot_init id u) dur) s0 ->
  main_task s0 = MConnect -> o <> Done ->
  step (MainResumes o d) s0 = Some s1 ->
  reachable s1 sa -> reachable s1 sb ->
  1 <= num_users ->
  Z.of_nat (List.length (pre ++ bot sa :: post)) = num_users ->
  Z.of_nat (List.length (List.concat (map latencies (pre' ++ post')))) <= max_len ->
  (latencies (bot sb) = [] /\ connected (bot sb) = false /\ spawned (bot sb) = false /\
   packets_sent (bot sb) = 0 /\ packets_received (bot sb) = 0 /\ wire sb = []) /\
  (connects sb = 1%nat /\ main_task sb = MDone /\
   forall o' d', measure_latency o' d' sb = None) /\
  exists r,
    run_benchmark py_sum num_users t (pre ++ bot sa :: post) (pre' ++ bot sb :: post') = Ok r /\
    connected_count r = count connected (pre ++ post) /\
    spawned_count r = count spawned (pre ++ post) /\
    latency_stats py_sum (List.concat (map latencies (pre' ++ post'))) = Ok (stats r) /\
    total_packets_sent r = sum_Z (map packets_sent (pre' ++ post')) /\
    total_packets_received r = sum_Z (map packets_received (pre' ++ post')).
Proof.
  intros Hr0 Hpc Ho Hstep Hra Hrb Hn Hlen Hsamples.
  assert (Hc0 : connecting_inv s0).
  { apply (reachable_ind connecting_inv connecting_inv_step _ _
             (initial_connecting_inv id u dur) Hr0). }
  assert (Hf1 : connect_failed s1) by (eapply connect_failure_state; eauto).
  assert (Hfa : connect_failed sa)
    by (apply (reachable_ind connect_failed connect_failed_step _ _ Hf1 Hra)).
  assert (Hfb : connect_failed sb)
    by (apply (reachable_ind connect_failed connect_failed_step _ _ Hf1 Hrb)).
  destruct Hfa as [_ [[_ [_ [Hca [Hsa _]]]] _]].
  destruct Hfb as [Hpb [[_ [_ [Hcb [Hsb [Hlb [Hpsb [Hprb Hwb]]]]]]] Hcnb]].
  split; [repeat split; assumption |].
  split.
  { repeat split; try assumption.
    intros o' d'. unfold measure_latency. rewrite Hpb. destruct o'; reflexivity. }
  assert (Epool : List.concat (map latencies (pre' ++ bot sb :: post'))
                  = List.concat (map latencies (pre' ++ post'))).
  { rewrite !map_app, !concat_app. cbn [map List.concat]. rewrite Hlb. reflexivity. }
  destruct (run_benchmark_ok py_sum num_users t (pre ++ bot sa :: post)
              (pre' ++ bot sb :: post') Hn ltac:(lia))
    as [st [rate [Hst [_ Hrun]]]].
  { rewrite Epool. exact Hsamples. }
  eexists. split; [exact Hrun |].
  cbn [connected_count spawned_count stats total_packets_sent total_packets_received].
  rewrite <- Epool.
  repeat split.
  - rewrite !count_app, count_cons, Hca. lia.
  - rewrite !count_app, count_cons, Hsa. lia.
  - exact Hst.
  - rewrite !map_app, !sum_Z_app. cbn [map]. unfold sum_Z. cbn [fold_right]. rewrite Hpsb. lia.
  - rewrite !map_app, !sum_Z_app. cbn [map]. unfold sum_Z. cbn [fold_right]. rewrite Hprb. lia.
Qed.

Lemma connect_failure_is_local_witness :
  let pre := [bot_after active_trace 0] in
  let post := [bot_after spawned_trace 2] in
  let sa := failed_session in
  let sb := stopped_failed_session in
  (reachable (initial (BenchmarkBot_init 1 benchmark_url) 120) connecting_session /\
   main_task connecting_session = MConnect /\ Timeout <> Done /\
   step (MainResumes Timeout no_draws) connecting_session = Some failed_session /\
   reachable failed_session sa /\ reachable failed_session sb /\
   1 <= 3 /\
   Z.of_nat (List.length (pre ++ bot sa :: post)) = 3 /\
   Z.of_nat (List.length (List.concat (map latencies (pre ++ post)))) <= max_len) /\
  (latencies (bot sb) = [] /\ connected (bot sb) = false /\ spawned (bot sb) = false /\
   packets_sent (bot sb) = 0 /\ packets_received (bot sb) = 0 /\ wire sb = []) /\
  (connects sb = 1%nat /\ main_task sb = MDone /\
   forall o' d', measure_latency o' d' sb = None) /\
  exists r,
    run_benchmark naive_sum 3 f0 (pre ++ bot sa :: post) (pre ++ bot sb :: post) = Ok r /\
    connected_count r = count connected (pre ++ post) /\
    spawned_count r = count spawned (pre ++ post) /\
    latency_stats naive_sum (List.concat (map latencies (pre ++ post))) = Ok (stats r) /\
    total_packets_sent r = sum_Z (map packets_sent (pre ++ post)) /\
    total_packets_received r = sum_Z (map packets_received (pre ++ post)).
Proof.
  cbv zeta.
  assert (H0 : reachable (initial (BenchmarkBot_init 1 benchmark_url) 120) connecting_session)
    by (apply (reachable_final_of connecting_trace (session_of 1)); vm_compute; discriminate).
  assert (H1 : main_task connecting_session = MConnect) by (vm_compute; reflexivity).
  assert (H2 : Timeout <> Done) by discriminate.
  assert (H3 : step (MainResumes Timeout no_draws) connecting_session = Some failed_session)
    by (vm_compute; reflexivity).
  assert (H4 : reachable failed_session failed_session) by apply reachable_refl.
  assert (H5 : reachable failed_session stopped_failed_session)
    by (exists [DriverStops]; vm_compute; reflexivity).
  assert (H6 : 1 <= 3) by lia.
  assert (H7 : Z.of_nat (List.length ([bot_after active_trace 0]
                                      ++ bot failed_session :: [bot_after spawned_trace 2])) = 3)
    by reflexivity.
  assert (H8 : Z.of_nat (List.length (List.concat (map latencies
                 ([bot_after active_trace 0] ++ [bot_after spawned_trace 2])))) <= max_len)
    by (vm_compute; discriminate).
  split.
  - repeat (split; [assumption |]). assumption.
  - exact (connect_failure_is_local naive_sum 1 benchmark_url 120
             connecting_session failed_session failed_session stopped_failed_session
             Timeout no_draws 3 f0
             [bot_after active_trace 0] [bot_after spawned_trace 2]
             [bot_after active_trace 0] [bot_after spawned_trace 2]
             H0 H1 H2 H3 H4 H5 H6 H7 H8).
Defined.

(** ** Benchmark orchestrator *)

Lemma test_cases_positive n : In n test_cases -> 1 <= n.
Proof.
  intro H. vm_compute in H.
  repeat (destruct H as [H | H]; [subst n; lia |]). contradiction.
Qed.

Lemma sweep_completes py_sum op env cases results :
  (forall n, interrupts op n = false) ->
  (forall n, In n cases ->
     1 <= n /\
     Z.of_nat (List.length (env_settled (env n))) = n /\
     Z.of_nat (List.length (List.concat (map latencies (env_final (env n))))) <= max_len) ->
  exists rs,
    sweep py_sum op env cases results = (results ++ rs, None) /\ map users rs = cases.
Proof.
  intros Hop. revert results.
  induction cases as [| n cases IH]; intros results Hen; cbn [sweep].
  - exists []. rewrite app_nil_r. split; reflexivity.
  - rewrite Hop.
    destruct (Hen n (or_introl eq_refl)) as [Hn [Hlen Hs]].
    destruct (run_benchmark_ok py_sum n (env_duration (env n)) (env_settled (env n))
                (env_final (env n)) Hn ltac:(lia) Hs) as [st [rate [_ [_ Hrun]]]].
    rewrite Hrun.
    destruct (IH (results ++ [mkResult n (env_duration (env n))
                                (count connected (env_settled (env n)))
                                (count spawned (env_settled (env n)))
                                (sum_Z (map packets_sent (env_final (env n))))
                                (sum_Z (map packets_received (env_final (env n))))
                                st rate]))
      as [rs [Hsw Hus]].
    { intros m Hm. apply Hen. right. exact Hm. }
    eexists (_ :: rs). split.
    + rewrite Hsw, <- app_assoc. reflexivity.
    + cbn [map users]. rewrite Hus. reflexivity.
Qed.

Lemma idle_env_plausible : plausible idle_env.
Proof.
  intros n H. vm_compute in H.
  repeat (destruct H as [H | H];
          [subst n; split; [vm_compute; reflexivity | vm_compute; discriminate] |]).
  contradiction.
Qed.

(** C8, as stated, fails in its last clause: pre-flight unreachability
    is not the only condition that aborts the whole run.  With a
    reachable server (the probe succeeds) the operator's Ctrl-C at the
    start prompt ends the run before any load level: zero levels
    execute, no result rows are produced, and the entry point prints its
    interrupt notice, not the pre-flight diagnostic. *)
Lemma operator_interrupt_aborts_run :
  let r := entry_point naive_sum ProbeOk impatient idle_env in
  plausible idle_env /\
  levels_run r = [] /\ rows r = [] /\ charts r = false /\
  raised r = Some KeyboardInterrupt /\
  In interrupt_notice (printed r) /\ ~ In abort_notice (printed r).
Proof.
  cbv zeta. split; [exact idle_env_plausible |].
  repeat (split; [vm_compute; reflexivity |]).
  split.
  - vm_compute. auto 10.
  - vm_compute. intros [H | [H | [H | [H | []]]]]; discriminate H.
Qed.

(** C8, amended: if the orchestrator's pre-flight reachability probe
    fails, the entire benchmark aborts before any load level runs: zero
    levels execute, no result rows are produced, and a diagnostic is
    emitted.  Once the probe has succeeded, no failure of a session or
    of a level aborts the run: whenever the operator confirms the start
    prompt and does not interrupt, every configured level executes and
    yields its row (apart from the operator at the terminal, pre-flight
    unreachability is the only condition that aborts the whole run). *)
Theorem preflight_abort_and_sweep (py_sum : list float -> float) (p : probe)
    (op : operator) (env : Z -> level_env) :
  let r := entry_point py_sum p op env in
  (p <> ProbeOk ->
   levels_run r = [] /\ rows r = [] /\ charts r = false /\ raised r = None /\
   In abort_notice (printed r) /\ (4 <= List.length (printed r))%nat) /\
  (p = ProbeOk -> at_prompt op = Enter -> (forall n, interrupts op n = false) ->
   plausible env ->
   levels_run r = test_cases /\ map users (rows r) = test_cases /\
   List.length (rows r) = 11%nat /\ charts r = true /\ raised r = None /\
   ~ In abort_notice (printed r)).
Proof.
  cbv zeta. split.
  - intro Hp. destruct p as [| | | e]; try congruence;
      cbn; (repeat (split; [reflexivity |])); (split; [auto 20 | lia]).
  - intros -> Hprompt Hint Hpl.
    unfold entry_point, main. cbn [check_server_connection negb].
    rewrite Hprompt.
    destruct (sweep_completes py_sum op env test_cases [] Hint) as [rs [Hsw Hus]].
    { intros n Hn. split; [apply test_cases_positive; exact Hn | apply Hpl; exact Hn]. }
    rewrite Hsw. cbn [app raised printed levels_run rows charts].
    repeat split; try assumption.
    + rewrite <- (length_map users), Hus. reflexivity.
    + vm_compute. intros [H | [H | [H | []]]]; discriminate H.
Qed.

Lemma preflight_abort_and_sweep_witness :
  (ProbeTimeout <> ProbeOk /\ at_prompt patient = Enter /\
   (forall n, interrupts patient n = false) /\ plausible idle_env) /\
  (let r := entry_point naive_sum ProbeTimeout patient idle_env in
   levels_run r = [] /\ rows r = [] /\ charts r = false /\ raised r = None /\
   In abort_notice (printed r) /\ (4 <= List.length (printed r))%nat) /\
  (let r := entry_point naive_sum ProbeOk patient idle_env in
   levels_run r = test_cases /\ map users (rows r) = test_cases /\
   List.length (rows r) = 11%nat /\ charts r = true /\ raised r = None /\
   ~ In abort_notice (printed r)).
Proof.
  cbv zeta.
  assert (H1 : ProbeTimeout <> ProbeOk) by discriminate.
  assert (H2 : at_prompt patient = Enter) by reflexivity.
  assert (H3 : forall n, interrupts patient n = false) by (intro n; reflexivity).
  split; [| split].
  - repeat (split; [assumption |]). exact idle_env_plausible.
  - exact (proj1 (preflight_abort_and_sweep naive_sum ProbeTimeout patient idle_env) H1).
  - exact (proj2 (preflight_abort_and_sweep naive_sum ProbeOk patient idle_env)
             eq_refl H2 H3 idle_env_plausible).
Defined.

(** C9 (implicit): running a load level has the unstated precondition
    userCount >= 1.  For userCount = 0 the level has no bot and no
    sample, the statistics block yields the all-zero statistics, and
    [run_benchmark] then raises ZeroDivisionError when it computes the
    success rate connected / userCount, instead of returning a zeroed
    result record; for userCount >= 1 (with as many observed bots as
    users and at most [max_len] samples) it returns its record. *)
Theorem zero_users_raise_division_by_zero (py_sum : list float -> float) (d : float) :
  make_bots 0 = [] /\
  latency_stats py_sum (List.concat (map latencies (make_bots 0))) = Ok zero_stats /\
  percent (count connected (make_bots 0)) 0 = Raise ZeroDivisionError /\
  run_benchmark py_sum 0 d (make_bots 0) (make_bots 0) = Raise ZeroDivisionError /\
  forall num_users settled final,
    1 <= num_users ->
    Z.of_nat (List.length settled) = num_users ->
    Z.of_nat (List.length (List.concat (map latencies final))) <= max_len ->
    exists r, run_benchmark py_sum num_users d settled final = Ok r /\ users r = num_users.
Proof.
  repeat (split; [reflexivity |]).
  intros num_users settled final Hn Hlen Hs.
  destruct (run_benchmark_ok py_sum num_users d settled final Hn ltac:(lia) Hs)
    as [st [rate [_ [_ Hrun]]]].
  eexists. split; [exact Hrun | reflexivity].
Qed.

Lemma zero_users_raise_division_by_zero_witness :
  run_benchmark naive_sum 0 f0 (make_bots 0) (make_bots 0) = Raise ZeroDivisionError /\
  (1 <= 1 /\ Z.of_nat (List.length (make_bots 1)) = 1 /\
   Z.of_nat (List.length (List.concat (map latencies (make_bots 1)))) <= max_len) /\
  exists r, run_benchmark naive_sum 1 f0 (make_bots 1) (make_bots 1) = Ok r /\ users r = 1.
Proof.
  assert (H1 : 1 <= 1) by lia.
  assert (H2 : Z.of_nat (List.length (make_bots 1)) = 1) by reflexivity.
  assert (H3 : Z.of_nat (List.length (List.concat (map latencies (make_bots 1)))) <= max_len)
    by (vm_compute; discriminate).
  split; [| split].
  - exact (proj1 (proj2 (proj2 (proj2 (zero_users_raise_division_by_zero naive_sum f0))))).
  - repeat split; assumption.
  - exact (proj2 (proj2 (proj2 (proj2 (zero_users_raise_division_by_zero naive_sum f0))))
             1 (make_bots 1) (make_bots 1) H1 H2 H3).
Defined.

(** * Further properties of the code *)

(** ** Session: what is sent, and when *)

Lemma init_packet_ok : exists i, init_packet = Ok i /\ frame_tag i = Some 0 /\ List.length i = 43%nat.
Proof. eexists. split; [vm_compute; reflexivity |]. split; reflexivity. Qed.

Lemma spawn_packet_ok id :
  spawn_packet id = Ok (x02 :: encode_utf8 ("bot" ++ str_of_int id) ++ [x00]).
Proof. reflexivity. Qed.

Lemma input_packet_frame fl a b c d pkt :
  input_packet fl a b c d = Ok pkt -> input_frame pkt.
Proof.
  assert (Hlen : forall x bs, pack_f x = Ok bs -> List.length bs = 4%nat).
  { intros x bs. unfold pack_f.
    destruct (is_inf (to_binary32 x) && negb (is_inf x)); [discriminate |].
    intro H. injection H as <-. reflexivity. }
  intro H. unfold input_packet, pack_Biffff in H.
  change (pack_B (ServerBound_value Input)) with (@Ok (list byte) [x01]) in H.
  assert (Hpi : exists bf, pack_i (flags_value fl) = Ok bf /\ List.length bf = 4%nat).
  { destruct fl as [[] |]; eexists; (split; [reflexivity | reflexivity]). }
  destruct Hpi as [bf [Hpi Lf]]. rewrite Hpi in H. cbn [bind] in H.
  destruct (pack_f a) as [fa |] eqn:Pa; [| discriminate H].
  destruct (pack_f b) as [fb |] eqn:Pb; [| discriminate H].
  destruct (pack_f c) as [fc |] eqn:Pc; [| discriminate H].
  destruct (pack_f d) as [fd |] eqn:Pd; [| discriminate H].
  cbn [bind] in H. injection H as <-.
  split; [reflexivity |].
  cbn [app List.length]. rewrite !length_app, Lf, (Hlen a fa Pa), (Hlen b fb Pb),
    (Hlen c fc Pc), (Hlen d fd Pd). reflexivity.
Qed.

Lemma float_mul_int_1000_ok x : exists y, float_mul_int x 1000 = Ok y.
Proof. eexists. unfold float_mul_int.
  change (float_of_int 1000) with (@Ok float (S754_finite false 8796093022208000 (-43))).
  reflexivity.
Qed.

Lemma shape_init i : init_packet = Ok i -> forall id, sent_shape id 0 0 [i].
Proof.
  intros Hi id. exists i, (x02 :: encode_utf8 ("bot" ++ str_of_int id) ++ [x00]), [].
  repeat split; [exact Hi | constructor].
Qed.

Lemma shape_spawn id k w f :
  sent_shape id k 0 w -> spawn_packet id = Ok f -> sent_shape id (S k) 0 (w ++ [f]).
Proof.
  intros [i [sn [ins [Hi [Hs [Hn [Hf Hw]]]]]]] Hp.
  rewrite Hs in Hp. injection Hp as <-.
  destruct ins; [| discriminate].
  exists i, sn, []. repeat split; try assumption.
  rewrite Hw, !app_nil_r. cbn [app]. f_equal.
  change (sn :: repeat sn k) with (repeat sn (S k)).
  rewrite <- repeat_cons. reflexivity.
Qed.

Lemma shape_input id k n w f :
  sent_shape id k n w -> input_frame f -> sent_shape id k (S n) (w ++ [f]).
Proof.
  intros [i [sn [ins [Hi [Hs [Hn [Hf Hw]]]]]]] Hp.
  exists i, sn, (ins ++ [f]). repeat split; try assumption.
  - rewrite length_app, Hn. cbn. lia.
  - apply Forall_app. split; [exact Hf | constructor; [exact Hp | constructor]].
  - rewrite Hw. cbn [app]. rewrite <- app_assoc. reflexivity.
Qed.

Lemma initial_wire_inv id u dur : wire_inv (initial (BenchmarkBot_init id u) dur).
Proof. cbv. auto. Qed.

Ltac split_hyps :=
  repeat match goal with
         | H : _ /\ _ |- _ => destruct H
         | H : exists _, _ |- _ => destruct H
         | H : _ \/ _ |- _ => destruct H
         end.

Ltac shape_step :=
  first [ eassumption
        | eapply shape_init; eassumption
        | eapply shape_spawn; eassumption
        | eapply shape_input; [eassumption | first [assumption | eapply input_packet_frame; eassumption]] ].

Ltac wire_case :=
  split_hyps; subst;
  repeat match goal with
         | H : List.length ?l = 0%nat |- _ => rewrite H in *; clear H
         end;
  rewrite ?length_app; cbn [List.length]; rewrite ?Nat.add_1_r;
  try match goal with
      | H : float_mul_int ?x 1000 = Raise _ |- _ =>
          exfalso; destruct (float_mul_int_1000_ok x) as [? E];
          rewrite E in H; discriminate H
      end;
  first
    [ solve [repeat split; first [assumption | reflexivity | lia
                                 | eapply input_packet_frame; eassumption
                                 | shape_step
                                 | eexists; split; [| shape_step]; lia]]
    | solve [left; repeat split; first [assumption | reflexivity | lia]]
    | solve [right; repeat split; first [assumption | reflexivity | lia
                                         | eexists; split; [| shape_step]; lia]]
    | idtac ].

Lemma wire_inv_step e s s' : wire_inv s -> step e s = Some s' -> wire_inv s'.
Proof.
  unfold wire_inv.
  destruct s as [b pc rc dur et st pd w cn sc]. destruct b as [id u ws rn co sp la stt ps pr].
  cbn [bot main_task wire spawn_calls pending bot_id latencies].
  intros Hinv H.
  destruct e as [o d | o |]; step_cases H.
  all: try exact Hinv.
  all: wire_case.
Qed.

Lemma wire_inv_reachable id u dur s :
  reachable (initial (BenchmarkBot_init id u) dur) s -> wire_inv s.
Proof.
  apply (reachable_ind wire_inv wire_inv_step). apply initial_wire_inv.
Qed.

Lemma initial_lifecycle_inv id u dur : lifecycle_inv (initial (BenchmarkBot_init id u) dur).
Proof. cbv. intuition (try congruence; try discriminate). Qed.

Lemma lifecycle_inv_step e s s' : lifecycle_inv s -> step e s = Some s' -> lifecycle_inv s'.
Proof.
  unfold lifecycle_inv.
  destruct s as [b pc rc dur et st pd w cn sc]. destruct b as [id u ws rn co sp la stt ps pr].
  cbn [bot main_task receive_task wire websocket connected running packets_sent
       latencies spawned].
  intros [H1 [H2 [H3 [H4 [H4' [H5 H6]]]]]] H.
  destruct e as [o d | o |]; step_cases H; cbn [in_protocol finished connecting] in *;
    rewrite ?length_app; cbn [List.length];
    try (assert (co = true) by (first [apply H3; reflexivity | apply H4; reflexivity]); subst co);
    try (assert (co = false) by (apply H4'; reflexivity); subst co);
    intuition (try discriminate; try congruence; try lia).
Qed.

Lemma lifecycle_inv_reachable id u dur s :
  reachable (initial (BenchmarkBot_init id u) dur) s -> lifecycle_inv s.
Proof.
  apply (reachable_ind lifecycle_inv lifecycle_inv_step). apply initial_lifecycle_inv.
Qed.

Lemma running_inv_step e s s' :
  undisturbed e = true -> running_inv s -> step e s = Some s' -> running_inv s'.
Proof.
  unfold running_inv.
  destruct s as [b pc rc dur et st pd w cn sc]. destruct b as [id u ws rn co sp la stt ps pr].
  cbn [bot main_task websocket connected running].
  intros He [H1 [H2 [H2' H3]]] H.
  destruct e as [o d | o |]; [| | discriminate He]; step_cases H;
    cbn [in_protocol finished connecting negb andb] in *;
    try (assert (co = true) by (apply H2; reflexivity); subst co);
    try (assert (co = false) by (apply H2'; reflexivity); subst co);
    rewrite ?andb_false_r, ?andb_true_r in *; cbn [negb andb] in *;
    intuition (try discriminate; try congruence; try (subst; reflexivity)).
Qed.

Lemma running_inv_run evs s s' :
  forallb undisturbed evs = true -> running_inv s -> run evs s = Some s' -> running_inv s'.
Proof.
  revert s. induction evs as [| e evs IH]; intros s Hc Hs Hrun; cbn [run] in Hrun.
  - injection Hrun as <-. exact Hs.
  - cbn [forallb] in Hc. apply andb_prop in Hc. destruct Hc as [He Hc].
    destruct (step e s) as [s1 |] eqn:E; [| discriminate].
    apply (IH s1 Hc); [exact (running_inv_step e s s1 He Hs E) | exact Hrun].
Qed.

Lemma extends_refl s : extends s s.
Proof.
  unfold extends. repeat split; try tauto; try lia; exists []; rewrite app_nil_r; reflexivity.
Qed.

Lemma extends_trans s1 s2 s3 : extends s1 s2 -> extends s2 s3 -> extends s1 s3.
Proof.
  unfold extends.
  intros [A1 [A2 [A3 [A4 [A5 [A6 [A7 [[l1 A8] [w1 A9]]]]]]]]]
         [B1 [B2 [B3 [B4 [B5 [B6 [B7 [[l2 B8] [w2 B9]]]]]]]]].
  repeat split; try congruence; try tauto; try lia.
  - exists (l1 ++ l2). rewrite B8, A8, app_assoc. reflexivity.
  - exists (w1 ++ w2). rewrite B9, A9, app_assoc. reflexivity.
Qed.

Lemma extends_step e s s' : step e s = Some s' -> extends s s'.
Proof.
  unfold extends.
  destruct s as [b pc rc dur et st pd w cn sc]. destruct b as [id u ws rn co sp la stt ps pr].
  cbn [bot wire bot_id url connected spawned running packets_sent packets_received latencies].
  intro H.
  destruct e as [o d | o |]; step_cases H;
    repeat split; try tauto; try lia; try congruence;
    first [ exists []; rewrite app_nil_r; reflexivity | eexists; reflexivity ].
Qed.

Lemma extends_reachable s s' : reachable s s' -> extends s s'.
Proof.
  intros [evs Hrun]. revert s Hrun.
  induction evs as [| e evs IH]; intros s Hrun; cbn [run] in Hrun.
  - injection Hrun as <-. apply extends_refl.
  - destruct (step e s) as [s1 |] eqn:E; [| discriminate].
    apply (extends_trans s s1 s'); [exact (extends_step e s s1 E) | exact (IH s1 Hrun)].
Qed.

Lemma winding_down_step bound e s s' :
  winding_down bound s -> step e s = Some s' -> winding_down bound s'.
Proof.
  unfold winding_down.
  destruct s as [b pc rc dur et st pd w cn sc]. destruct b as [id u ws rn co sp la stt ps pr].
  cbn [bot main_task running latencies].
  intros [Hr Hb] H. subst rn.
  destruct e as [o d | o |]; step_cases H; cbn [finished] in *;
    rewrite ?andb_false_r in *; try discriminate;
    rewrite ?length_app; cbn [List.length];
    (split; [reflexivity | try lia]).
Qed.

Lemma delivers_step e s s' :
  step e s = Some s' ->
  packets_received (bot s') = packets_received (bot s) + Z.of_nat (delivers e).
Proof.
  destruct s as [b pc rc dur et st pd w cn sc]. destruct b as [id u ws rn co sp la stt ps pr].
  cbn [bot packets_received].
  intro H.
  destruct e as [o d | o |]; step_cases H; cbn [delivers Z.of_nat]; lia.
Qed.

Lemma shape_counts id k n w :
  sent_shape id k n w ->
  List.length w = (1 + k + n)%nat /\
  List.length (filter (fun f => match frame_tag f with
                                | Some t => t =? ServerBound_value Input
                                | None => false
                                end) w) = n.
Proof.
  intros [i [sn [ins [Hi [Hs [Hn [Hf Hw]]]]]]]. subst w.
  vm_compute in Hi. injection Hi as <-.
  rewrite spawn_packet_ok in Hs. injection Hs as <-.
  split.
  - cbn [List.length]. rewrite length_app, repeat_length, Hn. lia.
  - cbn [filter frame_tag]. change (Z.of_N (Byte.to_N x00) =? ServerBound_value Input) with false.
    cbv iota. rewrite filter_app.
    set (sn := x02 :: encode_utf8 ("bot" ++ str_of_int id) ++ [x00]).
    assert (E1 : forall k, filter (fun f => match frame_tag f with
                                | Some t => t =? ServerBound_value Input
                                | None => false
                                end) (repeat sn k) = []).
    { intro j. induction j as [| j IH]; [reflexivity |]. cbn [repeat filter]. exact IH. }
    rewrite E1. cbn [app].
    assert (E2 : filter (fun f => match frame_tag f with
                                | Some t => t =? ServerBound_value Input
                                | None => false
                                end) ins = ins).
    { clear Hn. induction Hf as [| f ins [Ht _] _ IH]; [reflexivity |].
      cbn [filter]. rewrite Ht, Z.eqb_refl, IH. reflexivity. }
    rewrite E2. exact Hn.
Qed.

Lemma wire_inv_shape s :
  wire_inv s ->
  wire s = [] \/
  exists k n, (k <= 2)%nat /\ (k <= spawn_calls s)%nat /\ sent_shape (bot_id (bot s)) k n (wire s) /\
              n = (List.length (latencies (bot s))
                   + match main_task s with MTick => 1 | _ => 0 end)%nat.
Proof.
  unfold wire_inv. cbv zeta.
  destruct (main_task s); intro H; split_hyps; subst;
    first [ left; assumption
          | right; eexists; eexists;
            (split; [| split; [| split; [eassumption |]]]); lia ].
Qed.

(** X2: in every reachable state of a session, [packets_sent] equals the
    number of frames handed to the websocket so far (Init, Spawn and Input
    alike): the counter moves once per completed send and never otherwise. *)
Theorem packets_sent_counts_frames (id : Z) (u : string) (dur : Z) (s : state) :
  reachable (initial (BenchmarkBot_init id u) dur) s ->
  packets_sent (bot s) = Z.of_nat (List.length (wire s)).
Proof.
  intro Hr. destruct (lifecycle_inv_reachable id u dur s Hr) as [_ [H _]]. exact H.
Qed.

Lemma packets_sent_counts_frames_witness :
  let s := final_of active_trace (session_of 0) in
  reachable (initial (BenchmarkBot_init 0 benchmark_url) 120) s /\
  packets_sent (bot s) = Z.of_nat (List.length (wire s)).
Proof.
  assert (Hr : reachable (initial (BenchmarkBot_init 0 benchmark_url) 120)
                         (final_of active_trace (session_of 0)))
    by (apply (reachable_final_of active_trace (session_of 0)); vm_compute; discriminate).
  split; [exact Hr |].
  exact (packets_sent_counts_frames 0 benchmark_url 120 _ Hr).
Defined.

(** X3: the frames a session has sent are, in order, the Init frame, then
    at most two Spawn frames naming this bot (no more than [spawn_bot] was
    called), then Input frames only (tag 1, 21 bytes); nothing is sent
    before Init. *)
Theorem frames_in_protocol_order (id : Z) (u : string) (dur : Z) (s : state) :
  reachable (initial (BenchmarkBot_init id u) dur) s ->
  wire s = [] \/
  exists i sn k ins,
    init_packet = Ok i /\ spawn_packet id = Ok sn /\
    (k <= 2)%nat /\ (k <= spawn_calls s)%nat /\ Forall input_frame ins /\
    wire s = [i] ++ repeat sn k ++ ins.
Proof.
  intro Hr.
  destruct (wire_inv_shape s (wire_inv_reachable id u dur s Hr))
    as [H | [k [n [Hk [Hsc [[i [sn [ins [Hi [Hs [_ [Hf Hw]]]]]]] _]]]]]]; [left; exact H |].
  rewrite (reachable_bot_id _ _ Hr) in Hs. cbn [initial bot BenchmarkBot_init bot_id] in Hs.
  right. exists i, sn, k, ins. repeat split; assumption.
Qed.

Lemma frames_in_protocol_order_witness :
  let s := final_of active_trace (session_of 0) in
  reachable (initial (BenchmarkBot_init 0 benchmark_url) 120) s /\
  (wire s = [] \/
   exists i sn k ins,
     init_packet = Ok i /\ spawn_packet 0 = Ok sn /\
     (k <= 2)%nat /\ (k <= spawn_calls s)%nat /\ Forall input_frame ins /\
     wire s = [i] ++ repeat sn k ++ ins).
Proof.
  assert (Hr : reachable (initial (BenchmarkBot_init 0 benchmark_url) 120)
                         (final_of active_trace (session_of 0)))
    by (apply (reachable_final_of active_trace (session_of 0)); vm_compute; discriminate).
  split; [exact Hr |].
  exact (frames_in_protocol_order 0 benchmark_url 120 _ Hr).
Defined.

(** The frames on the wire, counted. *)
Lemma frames_on_wire (id : Z) (u : string) (dur : Z) (s : state) :
  reachable (initial (BenchmarkBot_init id u) dur) s ->
  (wire s = [] /\ latencies (bot s) = [] /\ main_task s <> MTick) \/
  exists k n,
    (k <= 2)%nat /\ (k <= spawn_calls s)%nat /\
    List.length (wire s) = (1 + k + n)%nat /\ input_frames_sent s = n /\
    n = (List.length (latencies (bot s))
         + match main_task s with MTick => 1 | _ => 0 end)%nat.
Proof.
  intro Hr. pose proof (wire_inv_reachable id u dur s Hr) as Hw.
  destruct (wire_inv_shape s Hw) as [H | [k [n [Hk [Hsc [Hsh Hn]]]]]].
  - left. split; [exact H |].
    unfold wire_inv in Hw. cbv zeta in Hw. rewrite H in Hw.
    destruct (main_task s); split_hyps;
      try match goal with
          | H : sent_shape _ _ _ [] |- _ =>
              destruct H as [? [? [? [_ [_ [_ [_ H]]]]]]]; discriminate H
          end;
      (split; [apply length_zero_iff_nil; assumption | discriminate]).
  - right. destruct (shape_counts _ k n _ Hsh) as [Hlen Hin].
    exists k, n. repeat split; assumption.
Qed.

(** X4: every latency sample follows an Input frame of its own: the number
    of Input frames sent is the number of samples, plus one while the tick
    of the current round is pending.  So [packets_sent] exceeds the number
    of samples by at most 4, and a session with a sample is connected, has
    called [spawn_bot] twice and has sent at least one frame more than it
    has samples. *)
Theorem samples_follow_input_frames (id : Z) (u : string) (dur : Z) (s : state) :
  reachable (initial (BenchmarkBot_init id u) dur) s ->
  input_frames_sent s
  = (List.length (latencies (bot s)) + match main_task s with MTick => 1 | _ => 0 end)%nat /\
  Z.of_nat (List.length (latencies (bot s))) <= packets_sent (bot s)
    <= Z.of_nat (List.length (latencies (bot s))) + 4 /\
  (latencies (bot s) <> [] ->
   connected (bot s) = true /\ spawn_calls s = 2%nat /\
   Z.of_nat (List.length (latencies (bot s))) + 1 <= packets_sent (bot s)).
Proof.
  intro Hr.
  pose proof (wire_inv_reachable id u dur s Hr) as Hw.
  destruct (lifecycle_inv_reachable id u dur s Hr) as [_ [Hps [_ [_ [_ [_ Hnc]]]]]].
  rewrite Hps.
  destruct (frames_on_wire id u dur s Hr)
    as [[Hwire [Hl Hpc]] | [k [n [Hk [Hsc [Hlen [Hin Hn]]]]]]].
  - unfold input_frames_sent. rewrite Hwire, Hl. cbn [filter List.length].
    split; [destruct (main_task s); try reflexivity; congruence |].
    split; [cbn; lia | congruence].
  - rewrite Hin, Hlen. split; [exact Hn |].
    split; [destruct (main_task s); lia |].
    intro Hne. split; [| split].
    + destruct (connected (bot s)) eqn:Ec; [reflexivity |].
      destruct (Hnc eq_refl) as [Hl _]. congruence.
    + unfold wire_inv in Hw. cbv zeta in Hw.
      assert (Hpos : List.length (latencies (bot s)) <> 0%nat).
      { intro Hz. apply length_zero_iff_nil in Hz. congruence. }
      destruct (main_task s); split_hyps; try congruence; lia.
    + destruct (main_task s); lia.
Qed.

Lemma samples_follow_input_frames_witness :
  let s := final_of active_trace (session_of 0) in
  reachable (initial (BenchmarkBot_init 0 benchmark_url) 120) s /\
  input_frames_sent s
  = (List.length (latencies (bot s)) + match main_task s with MTick => 1 | _ => 0 end)%nat /\
  Z.of_nat (List.length (latencies (bot s))) <= packets_sent (bot s)
    <= Z.of_nat (List.length (latencies (bot s))) + 4 /\
  (latencies (bot s) <> [] ->
   connected (bot s) = true /\ spawn_calls s = 2%nat /\
   Z.of_nat (List.length (latencies (bot s))) + 1 <= packets_sent (bot s)).
Proof.
  assert (Hr : reachable (initial (BenchmarkBot_init 0 benchmark_url) 120)
                         (final_of active_trace (session_of 0)))
    by (apply (reachable_final_of active_trace (session_of 0)); vm_compute; discriminate).
  split; [exact Hr |].
  exact (samples_follow_input_frames 0 benchmark_url 120 _ Hr).
Defined.

(** X5: [packets_received] equals the number of frames delivered to the
    session, by the handshake poll and by the receive loop together: every
    frame is counted once, whatever its tag, and a timeout or a failure is
    not counted. *)
Theorem packets_received_counts_deliveries (id : Z) (u : string) (dur : Z)
    (evs : list event) (s : state) :
  run evs (initial (BenchmarkBot_init id u) dur) = Some s ->
  packets_received (bot s) = Z.of_nat (list_sum (map delivers evs)).
Proof.
  assert (G : forall evs s0 s,
             run evs s0 = Some s ->
             packets_received (bot s)
             = packets_received (bot s0) + Z.of_nat (list_sum (map delivers evs))).
  { clear. intro evs. induction evs as [| e evs IH]; intros s0 s Hrun; cbn [run] in Hrun.
    - injection Hrun as <-. unfold list_sum. cbn [map fold_right Z.of_nat]. lia.
    - destruct (step e s0) as [s1 |] eqn:E; [| discriminate].
      rewrite (IH s1 s Hrun), (delivers_step e s0 s1 E).
      unfold list_sum. cbn [map fold_right]. lia. }
  intro Hrun. rewrite (G evs _ s Hrun). reflexivity.
Qed.

Lemma packets_received_counts_deliveries_witness :
  run spawned_trace (session_of 2) = Some (final_of spawned_trace (session_of 2)) /\
  packets_received (bot (final_of spawned_trace (session_of 2)))
  = Z.of_nat (list_sum (map delivers spawned_trace)).
Proof.
  assert (Hrun : run spawned_trace (initial (BenchmarkBot_init 2 benchmark_url) 120)
                 = Some (final_of spawned_trace (session_of 2)))
    by (vm_compute; reflexivity).
  split; [exact Hrun |].
  exact (packets_received_counts_deliveries 2 benchmark_url 120 spawned_trace _ Hrun).
Defined.

(** X8: along every execution of a session [connected] and [spawned] are
    never reset, [running] is never set again once it is cleared, the two
    packet counters never decrease, and the sample list and the frames
    sent are only appended to. *)
Theorem session_only_grows (s s' : state) :
  reachable s s' ->
  (connected (bot s) = true -> connected (bot s') = true) /\
  (spawned (bot s) = true -> spawned (bot s') = true) /\
  (running (bot s) = false -> running (bot s') = false) /\
  packets_sent (bot s) <= packets_sent (bot s') /\
  packets_received (bot s) <= packets_received (bot s') /\
  (exists more, latencies (bot s') = latencies (bot s) ++ more) /\
  (exists more, wire s' = wire s ++ more).
Proof.
  intro Hr. destruct (extends_reachable s s' Hr) as [_ [_ H]]. exact H.
Qed.

Lemma session_only_grows_witness :
  let s := final_of spawned_trace (session_of 0) in
  let s' := final_of active_trace (session_of 0) in
  reachable s s' /\
  (connected (bot s) = true -> connected (bot s') = true) /\
  (spawned (bot s) = true -> spawned (bot s') = true) /\
  (running (bot s) = false -> running (bot s') = false) /\
  packets_sent (bot s) <= packets_sent (bot s') /\
  packets_received (bot s) <= packets_received (bot s') /\
  (exists more, latencies (bot s') = latencies (bot s) ++ more) /\
  (exists more, wire s' = wire s ++ more).
Proof.
  assert (Hr : reachable (final_of spawned_trace (session_of 0))
                         (final_of active_trace (session_of 0))).
  { exists (skipn (List.length spawned_trace) active_trace). vm_compute. reflexivity. }
  split; [exact Hr |].
  exact (session_only_grows _ _ Hr).
Defined.

(** X9: once [running] is false (by the driver's stop or by the session's
    own [disconnect]), the session records at most one more sample, the
    one of the round in flight, and none once its main task has reached
    [disconnect]. *)
Theorem stopped_session_winds_down (s s' : state) :
  running (bot s) = false -> reachable s s' ->
  running (bot s') = false /\
  (List.length (latencies (bot s')) <= List.length (latencies (bot s)) + 1)%nat /\
  (finished (main_task s) = true -> latencies (bot s') = latencies (bot s)).
Proof.
  intros Hstop Hr.
  assert (W : forall bound, winding_down bound s -> winding_down bound s').
  { intros bound Hw.
    exact (reachable_ind (winding_down bound) (winding_down_step bound) s s' Hw Hr). }
  split; [| split].
  - apply (W (List.length (latencies (bot s)) + 1)%nat).
    split; [exact Hstop |]. destruct (finished (main_task s)); lia.
  - destruct (W (List.length (latencies (bot s)) + 1)%nat) as [_ H].
    { split; [exact Hstop |]. destruct (finished (main_task s)); lia. }
    destruct (finished (main_task s')); lia.
  - intro Hf.
    destruct (W (List.length (latencies (bot s)))) as [_ H].
    { split; [exact Hstop |]. rewrite Hf. lia. }
    destruct (extends_reachable s s' Hr) as [_ [_ [_ [_ [_ [_ [_ [[more Hm] _]]]]]]]].
    rewrite Hm in H |- *. rewrite length_app in H.
    destruct more as [| x more]; [apply app_nil_r |].
    cbn [List.length] in H. destruct (finished (main_task s')); lia.
Qed.

Lemma stopped_session_winds_down_witness :
  let s := final_of (firstn 15 active_trace) (session_of 0) in
  let s' := final_of active_trace (session_of 0) in
  (running (bot s) = false /\ reachable s s') /\
  running (bot s') = false /\
  (List.length (latencies (bot s')) <= List.length (latencies (bot s)) + 1)%nat /\
  (finished (main_task s) = true -> latencies (bot s') = latencies (bot s)).
Proof.
  assert (H1 : running (bot (final_of (firstn 15 active_trace) (session_of 0))) = false)
    by (vm_compute; reflexivity).
  assert (Hr : reachable (final_of (firstn 15 active_trace) (session_of 0))
                         (final_of active_trace (session_of 0))).
  { exists (skipn 15 active_trace). vm_compute. reflexivity. }
  split; [split; assumption |].
  exact (stopped_session_winds_down _ _ H1 Hr).
Defined.

(** X10: the [websocket] attribute is set exactly when [connected] is; a
    connected session whose main task is in [disconnect] or has returned
    has [running] false (the [finally] clause always runs); and as long as
    the driver has not stopped the bots, [running] is false for exactly
    these sessions: a bot whose connect failed keeps [running] true. *)
Theorem running_cleared_by_disconnect (id : Z) (u : string) (dur : Z)
    (evs : list event) (s : state) :
  run evs (initial (BenchmarkBot_init id u) dur) = Some s ->
  websocket (bot s) = connected (bot s) /\
  (connected (bot s) = true -> finished (main_task s) = true -> running (bot s) = false) /\
  (forallb undisturbed evs = true ->
   running (bot s) = negb (connected (bot s) && finished (main_task s))).
Proof.
  intro Hrun.
  assert (Hr : reachable (initial (BenchmarkBot_init id u) dur) s) by (exists evs; exact Hrun).
  destruct (lifecycle_inv_reachable id u dur s Hr) as [Hws [_ [_ [_ [_ [Hfin _]]]]]].
  split; [exact Hws |]. split; [intros Hc Hf; exact (Hfin Hf Hc) |].
  intro Hu.
  destruct (running_inv_run evs (initial (BenchmarkBot_init id u) dur) s Hu) as [H _];
    [| exact Hrun | exact H].
  cbv. intuition discriminate.
Qed.

Lemma running_cleared_by_disconnect_witness :
  let s := final_of connect_timeout_trace (session_of 1) in
  (run connect_timeout_trace (initial (BenchmarkBot_init 1 benchmark_url) 120) = Some s /\
   forallb undisturbed connect_timeout_trace = true) /\
  websocket (bot s) = connected (bot s) /\
  (connected (bot s) = true -> finished (main_task s) = true -> running (bot s) = false) /\
  running (bot s) = negb (connected (bot s) && finished (main_task s)).
Proof.
  assert (Hrun : run connect_timeout_trace (initial (BenchmarkBot_init 1 benchmark_url) 120)
                 = Some (final_of connect_timeout_trace (session_of 1)))
    by (vm_compute; reflexivity).
  assert (Hu : forallb undisturbed connect_timeout_trace = true) by reflexivity.
  split; [split; assumption |].
  destruct (running_cleared_by_disconnect 1 benchmark_url 120 connect_timeout_trace _ Hrun)
    as [A [B C]].
  split; [exact A |]. split; [exact B |]. exact (C Hu).
Defined.

Lemma handshake_inv_step e s s' : handshake_inv s -> step e s = Some s' -> handshake_inv s'.
Proof.
  unfold handshake_inv.
  destruct s as [b pc rc dur et st pd w cn sc]. destruct b as [id u ws rn co sp la stt ps pr].
  cbn [bot main_task receive_task packets_received].
  intros Hinv H.
  destruct e as [o d | o |]; step_cases H;
    try exact Hinv;
    try (destruct pc; intuition (try discriminate; try congruence; lia));
    intuition (try discriminate; try congruence; try lia).
Qed.

Lemma handshake_inv_reachable id u dur s :
  reachable (initial (BenchmarkBot_init id u) dur) s -> handshake_inv s.
Proof.
  apply (reachable_ind handshake_inv handshake_inv_step). cbv. auto.
Qed.

(** X6: the handshake poll reads at most ten frames: as long as the
    receive task does not exist, [packets_received] lies between 0 and 10,
    and with k iterations of the poll left it is at most 9 - k. *)
Theorem handshake_reads_at_most_ten_frames (id : Z) (u : string) (dur : Z) (s : state) :
  reachable (initial (BenchmarkBot_init id u) dur) s ->
  (receive_task s = RIdle -> 0 <= packets_received (bot s) <= 10) /\
  (forall k, main_task s = MAccept k ->
             (k <= 9)%nat /\ packets_received (bot s) <= 9 - Z.of_nat k).
Proof.
  intro Hr. pose proof (handshake_inv_reachable id u dur s Hr) as H.
  unfold handshake_inv in H.
  split.
  - destruct (main_task s); intuition lia.
  - intros k Hk. rewrite Hk in H. intuition lia.
Qed.

Lemma handshake_reads_at_most_ten_frames_witness :
  let s := final_of (firstn 4 spawned_trace) (session_of 0) in
  reachable (initial (BenchmarkBot_init 0 benchmark_url) 120) s /\
  (receive_task s = RIdle -> 0 <= packets_received (bot s) <= 10) /\
  (forall k, main_task s = MAccept k ->
             (k <= 9)%nat /\ packets_received (bot s) <= 9 - Z.of_nat k).
Proof.
  assert (Hr : reachable (initial (BenchmarkBot_init 0 benchmark_url) 120)
                         (final_of (firstn 4 spawned_trace) (session_of 0)))
    by (apply (reachable_final_of (firstn 4 spawned_trace) (session_of 0));
        vm_compute; discriminate).
  split; [exact Hr |].
  exact (handshake_reads_at_most_ten_frames 0 benchmark_url 120 _ Hr).
Defined.

Lemma observed_sessions n dur bots :
  observed n dur bots ->
  List.length bots = Z.to_nat n /\
  Forall (fun b => exists id s,
              reachable (initial (BenchmarkBot_init id benchmark_url) dur) s /\ bot s = b)
         bots.
Proof.
  unfold observed, make_bots. intro H.
  split.
  - rewrite <- (Forall2_length H), length_map, length_seq. reflexivity.
  - remember (map (fun i => BenchmarkBot_init (Z.of_nat i) benchmark_url)
                  (seq 0 (Z.to_nat n))) as inits eqn:Ei.
    assert (Hi : Forall (fun b0 => exists id, b0 = BenchmarkBot_init id benchmark_url) inits).
    { subst inits. apply Forall_forall. intros b0 Hin. apply in_map_iff in Hin.
      destruct Hin as [i [<- _]]. eexists. reflexivity. }
    clear Ei. induction H as [| b0 b l0 l [s [Hr Hb]] _ IH]; [constructor |].
    apply Forall_cons_iff in Hi. destruct Hi as [[id Eid] Hi']. rewrite Eid in Hr.
    constructor; [exists id, s; split; assumption | apply IH; exact Hi'].
Qed.

Lemma count_le p q (bots : list BenchmarkBot) :
  Forall (fun b => p b = true -> q b = true) bots -> count p bots <= count q bots.
Proof.
  induction 1 as [| b bots Hb _ IH].
  - reflexivity.
  - change (b :: bots) with ([b] ++ bots). rewrite !count_app.
    assert (count p [b] <= count q [b]); [| lia].
    unfold count. cbn [fold_left].
    destruct (p b) eqn:Ep; [rewrite (Hb eq_refl); lia | destruct (q b); lia].
Qed.

Lemma sum_Z_cons x l : sum_Z (x :: l) = x + sum_Z l.
Proof. reflexivity. Qed.

(** X14: for a level of at least one user whose bots are those of its
    sessions, [run_benchmark] returns a record with 0 <= spawned <=
    connected <= users. *)
Theorem result_counts_ordered (py_sum : list float -> float) (num_users dur : Z)
    (d : float) (settled final : list BenchmarkBot) :
  1 <= num_users -> observed num_users dur settled ->
  Z.of_nat (List.length (List.concat (map latencies final))) <= max_len ->
  exists r,
    run_benchmark py_sum num_users d settled final = Ok r /\
    0 <= spawned_count r /\ spawned_count r <= connected_count r /\
    connected_count r <= users r.
Proof.
  intros Hn Hobs Hlen.
  destruct (observed_sessions num_users dur settled Hobs) as [Hl Hs].
  destruct (run_benchmark_ok py_sum num_users d settled final Hn ltac:(lia) Hlen)
    as [st [rate [_ [_ Hrun]]]].
  eexists. split; [exact Hrun |].
  cbn [spawned_count connected_count users].
  split; [apply count_bounds |]. split.
  - apply count_le. eapply Forall_impl; [| exact Hs].
    intros b [id [s [Hr <-]]] Hsp.
    pose proof (reachable_ind session_inv session_inv_step _ _
                  (initial_session_inv id benchmark_url dur) Hr) as [H1 [H2 _]].
    apply H2. intro Hc. apply H1 in Hc. congruence.
  - pose proof (count_bounds connected settled). lia.
Qed.

(** X15: in the record of a level the number of pooled samples is at most
    the total of [packets_sent], and that total exceeds it by at most four
    frames per user. *)
Theorem samples_bounded_by_packets (py_sum : list float -> float) (num_users dur : Z)
    (d : float) (settled final : list BenchmarkBot) :
  1 <= num_users -> Z.of_nat (List.length settled) <= num_users ->
  observed num_users dur final ->
  Z.of_nat (List.length (List.concat (map latencies final))) <= max_len ->
  exists r,
    run_benchmark py_sum num_users d settled final = Ok r /\
    Z.of_nat (List.length (List.concat (map latencies final))) <= total_packets_sent r /\
    total_packets_sent r
    <= Z.of_nat (List.length (List.concat (map latencies final))) + 4 * users r.
Proof.
  intros Hn Hset Hobs Hlen.
  destruct (observed_sessions num_users dur final Hobs) as [Hl Hs].
  destruct (run_benchmark_ok py_sum num_users d settled final Hn Hset Hlen)
    as [st [rate [_ [_ Hrun]]]].
  eexists. split; [exact Hrun |].
  cbn [total_packets_sent users].
  assert (G : Z.of_nat (List.length (List.concat (map latencies final)))
              <= sum_Z (map packets_sent final)
              <= Z.of_nat (List.length (List.concat (map latencies final)))
                 + 4 * Z.of_nat (List.length final)).
  { clear Hl Hobs Hlen Hrun. induction Hs as [| b bots [id [s [Hr <-]]] _ IH].
    - cbn. lia.
    - cbn [map List.concat List.length]. rewrite sum_Z_cons, length_app.
      destruct (lifecycle_inv_reachable id benchmark_url dur s Hr) as [_ [Hps _]].
      rewrite Hps.
      destruct (frames_on_wire id benchmark_url dur s Hr)
        as [[Hwire [Hlat _]] | [k [n [Hk [_ [Hlen' [_ Hn']]]]]]].
      + rewrite Hwire, Hlat. cbn [List.length]. lia.
      + rewrite Hlen'. destruct (main_task s); lia. }
  rewrite Hl in G. lia.
Qed.

Lemma result_counts_ordered_witness :
  (1 <= 3 /\ observed 3 120 sample_level /\
   Z.of_nat (List.length (List.concat (map latencies sample_level))) <= max_len) /\
  exists r,
    run_benchmark naive_sum 3 f0 sample_level sample_level = Ok r /\
    0 <= spawned_count r /\ spawned_count r <= connected_count r /\
    connected_count r <= users r.
Proof.
  assert (H1 : 1 <= 3) by lia.
  assert (H2 : Z.of_nat (List.length (List.concat (map latencies sample_level))) <= max_len)
    by (vm_compute; discriminate).
  split; [split; [exact H1 | split; [exact observed_sample_level | exact H2]] |].
  exact (result_counts_ordered naive_sum 3 120 f0 sample_level sample_level
           H1 observed_sample_level H2).
Defined.

Lemma samples_bounded_by_packets_witness :
  (1 <= 3 /\ Z.of_nat (List.length sample_level) <= 3 /\ observed 3 120 sample_level /\
   Z.of_nat (List.length (List.concat (map latencies sample_level))) <= max_len) /\
  exists r,
    run_benchmark naive_sum 3 f0 sample_level sample_level = Ok r /\
    Z.of_nat (List.length (List.concat (map latencies sample_level)))
    <= total_packets_sent r /\
    total_packets_sent r
    <= Z.of_nat (List.length (List.concat (map latencies sample_level))) + 4 * users r.
Proof.
  assert (H1 : 1 <= 3) by lia.
  assert (H0 : Z.of_nat (List.length sample_level) <= 3) by (vm_compute; discriminate).
  assert (H2 : Z.of_nat (List.length (List.concat (map latencies sample_level))) <= max_len)
    by (vm_compute; discriminate).
  split; [split; [exact H1 | split; [exact H0 | split; [exact observed_sample_level | exact H2]]] |].
  exact (samples_bounded_by_packets naive_sum 3 120 f0 sample_level sample_level
           H1 H0 observed_sample_level H2).
Defined.

(** ** Aggregator: samples and rates *)

Lemma fold_pick_In (pick : float -> float -> bool) l m0 :
  In (fold_left (fun m y => if pick m y then y else m) l m0) (m0 :: l).
Proof.
  revert m0. induction l as [| y l IH]; intro m0; cbn [fold_left].
  - left. reflexivity.
  - destruct (pick m0 y).
    + right. apply IH.
    + destruct (IH m0) as [H | H]; [left; exact H | right; right; exact H].
Qed.

Lemma py_min_In l m : py_min l = Ok m -> In m l.
Proof.
  destruct l as [| x l]; [discriminate |]. cbn [py_min]. intro H. injection H as <-.
  exact (fold_pick_In (fun m y => flt y m) l x).
Qed.

Lemma py_max_In l m : py_max l = Ok m -> In m l.
Proof.
  destruct l as [| x l]; [discriminate |]. cbn [py_max]. intro H. injection H as <-.
  exact (fold_pick_In (fun m y => flt m y) l x).
Qed.

(** X16: the sorted copy is a permutation of the pooled samples, and the
    median, p95, p99, p99.5, the minimum and the maximum are each one of
    the pooled samples (nothing is interpolated). *)
Theorem statistics_are_samples (py_sum : list float -> float) (l : list float) :
  l <> [] -> Z.of_nat (List.length l) <= max_len ->
  Permutation l (list_sort l) /\
  exists avg md p95 p99 p995 mn mx,
    latency_stats py_sum l
    = Ok (mkStats (PFloat avg) (PFloat md) (PFloat p95) (PFloat p99)
                  (PFloat p995) (PFloat mn) (PFloat mx)) /\
    In md l /\ In p95 l /\ In p99 l /\ In p995 l /\ In mn l /\ In mx l.
Proof.
  intros Hne Hlen. split; [apply list_sort_perm |].
  assert (Hn : 1 <= Z.of_nat (List.length l) < 2 ^ 1023).
  { split; [destruct l; [congruence | cbn [List.length]; lia] |].
    unfold max_len in Hlen.
    assert (2 ^ 63 <= 2 ^ 1023) by (apply Z.pow_le_mono_r; lia). lia. }
  destruct (float_of_int_positive_ok _ Hn) as [pw [e Hf]].
  destruct (latency_stats_general py_sum l _ Hne Hf)
    as (avg & md & p95 & p99 & p995 & mn & mx & i95 & i99 & i995
        & Hst & _ & _ & _ & (Nmd & N95 & N99 & N995) & Hmn & Hmx).
  cbn zeta in *.
  assert (Back : forall x, In x (list_sort l) -> In x l).
  { intros x Hx. apply (Permutation_in x (Permutation_sym (list_sort_perm l)) Hx). }
  exists avg, md, p95, p99, p995, mn, mx.
  split; [exact Hst |].
  repeat split; apply Back;
    first [ eapply nth_error_In; eassumption
          | apply py_min_In; assumption
          | apply py_max_In; assumption ].
Qed.

Lemma statistics_are_samples_witness :
  let l := [f100; f20; f10; f40; f30] in
  (l <> [] /\ Z.of_nat (List.length l) <= max_len) /\
  Permutation l (list_sort l) /\
  exists avg md p95 p99 p995 mn mx,
    latency_stats naive_sum l
    = Ok (mkStats (PFloat avg) (PFloat md) (PFloat p95) (PFloat p99)
                  (PFloat p995) (PFloat mn) (PFloat mx)) /\
    In md l /\ In p95 l /\ In p99 l /\ In p995 l /\ In mn l /\ In mx l.
Proof.
  assert (H1 : [f100; f20; f10; f40; f30] <> []) by discriminate.
  assert (H2 : Z.of_nat (List.length [f100; f20; f10; f40; f30]) <= max_len)
    by (vm_compute; discriminate).
  split; [split; assumption |].
  exact (statistics_are_samples naive_sum [f100; f20; f10; f40; f30] H1 H2).
Defined.

Lemma div_core_same p :
  SFdiv_core_binary prec emax (Z.pos p) 0 (Z.pos p) 0 = (2 ^ 53, -53, loc_Exact).
Proof.
  unfold SFdiv_core_binary.
  replace (Zdigits2 (Z.pos p) + 0 - (Zdigits2 (Z.pos p) + 0)) with 0 by lia.
  change (Z.min (fexp prec emax 0) (0 - 0)) with (-53).
  change (0 - 0 - -53) with 53. cbv iota.
  rewrite Z.shiftl_mul_pow2 by lia.
  destruct (Z.div_eucl (Z.pos p * 2 ^ 53) (Z.pos p)) as [q r] eqn:E.
  assert (Hq : q = Z.pos p * 2 ^ 53 / Z.pos p) by (unfold Z.div; rewrite E; reflexivity).
  assert (Hr : r = (Z.pos p * 2 ^ 53) mod Z.pos p) by (unfold Z.modulo; rewrite E; reflexivity).
  rewrite (Z.mul_comm (Z.pos p)) in Hq, Hr.
  rewrite Z.div_mul in Hq by lia. rewrite Z.mod_mul in Hr by lia.
  subst q r. unfold new_location.
  destruct (Z.even (Z.pos p)); reflexivity.
Qed.

Lemma percent_all n : 1 <= n -> percent n n = Ok f100.
Proof.
  intro Hn. unfold percent, int_truediv.
  replace (n =? 0) with false by (symmetry; apply Z.eqb_neq; lia).
  destruct n as [| p |]; try lia.
  cbn [exact_int]. unfold fdiv. cbn [SFdiv xorb].
  rewrite div_core_same.
  vm_compute. reflexivity.
Qed.

Lemma percent_none n : 1 <= n -> percent 0 n = Ok f0.
Proof.
  intro Hn. unfold percent, int_truediv.
  replace (n =? 0) with false by (symmetry; apply Z.eqb_neq; lia).
  destruct n as [| p |]; try lia.
  vm_compute. reflexivity.
Qed.

Lemma count_all (p : BenchmarkBot -> bool) bots :
  Forall (fun b => p b = true) bots -> count p bots = Z.of_nat (List.length bots).
Proof.
  intro H. rewrite count_filter. f_equal. f_equal.
  induction H as [| b bots Hb _ IH]; [reflexivity |].
  cbn [filter]. rewrite Hb, IH. reflexivity.
Qed.

Lemma count_none (p : BenchmarkBot -> bool) bots :
  Forall (fun b => p b = false) bots -> count p bots = 0.
Proof.
  intro H. rewrite count_filter.
  induction H as [| b bots Hb _ IH]; [reflexivity |].
  cbn [filter]. rewrite Hb. exact IH.
Qed.

(** X17: the success rate of a level is exactly 100.0 when every bot is
    connected at the moment the driver counts, and exactly 0.0 when none
    is. *)
Theorem success_rate_endpoints (py_sum : list float -> float) (num_users : Z)
    (d : float) (settled final : list BenchmarkBot) :
  1 <= num_users -> Z.of_nat (List.length settled) = num_users ->
  Z.of_nat (List.length (List.concat (map latencies final))) <= max_len ->
  exists r,
    run_benchmark py_sum num_users d settled final = Ok r /\
    (Forall (fun b => connected b = true) settled -> success_rate r = f100) /\
    (Forall (fun b => connected b = false) settled -> success_rate r = f0).
Proof.
  intros Hn Hlen Hs.
  destruct (run_benchmark_ok py_sum num_users d settled final Hn ltac:(lia) Hs)
    as [st [rate [_ [Hrate Hrun]]]].
  eexists. split; [exact Hrun |]. cbn [success_rate].
  split; intro Hall.
  - rewrite (count_all connected settled Hall), Hlen, (percent_all num_users Hn) in Hrate.
    congruence.
  - rewrite (count_none connected settled Hall), (percent_none num_users Hn) in Hrate.
    congruence.
Qed.

Lemma success_rate_endpoints_witness :
  (1 <= 3 /\ Z.of_nat (List.length (make_bots 3)) = 3 /\
   Z.of_nat (List.length (List.concat (map latencies (make_bots 3)))) <= max_len) /\
  exists r,
    run_benchmark naive_sum 3 f0 (make_bots 3) (make_bots 3) = Ok r /\
    (Forall (fun b => connected b = true) (make_bots 3) -> success_rate r = f100) /\
    (Forall (fun b => connected b = false) (make_bots 3) -> success_rate r = f0).
Proof.
  assert (H1 : 1 <= 3) by lia.
  assert (H2 : Z.of_nat (List.length (make_bots 3)) = 3) by reflexivity.
  assert (H3 : Z.of_nat (List.length (List.concat (map latencies (make_bots 3)))) <= max_len)
    by (vm_compute; discriminate).
  split; [repeat split; assumption |].
  exact (success_rate_endpoints naive_sum 3 f0 (make_bots 3) (make_bots 3) H1 H2 H3).
Defined.

(** ** Driver and orchestrator *)

Lemma firstn_add_skipn {A : Type} (a b : nat) (l : list A) :
  firstn (a + b) l = firstn a l ++ firstn b (skipn a l).
Proof.
  revert l. induction a as [| a IH]; intro l; [reflexivity |].
  destruct l as [| x l]; cbn [Nat.add firstn skipn app].
  - rewrite firstn_nil. reflexivity.
  - rewrite IH. reflexivity.
Qed.

(** Cutting a list into consecutive chunks of [c] elements. *)
Lemma chunks_concat {A : Type} (c : nat) (l : list A) (m : nat) :
  List.concat (map (fun j => firstn c (skipn (c * j) l)) (seq 0 m)) = firstn (c * m) l.
Proof.
  induction m as [| m IH].
  - rewrite Nat.mul_0_r. reflexivity.
  - rewrite seq_S, map_app, concat_app, IH. cbn [Nat.add map List.concat].
    rewrite app_nil_r. replace (c * S m)%nat with (c * m + c)%nat by lia.
    rewrite firstn_add_skipn. reflexivity.
Qed.

Lemma slice_chunk {A : Type} (l : list A) (j : nat) :
  (50 * j < List.length l)%nat ->
  slice l (0 + batch_size * Z.of_nat j)
          (Z.min (0 + batch_size * Z.of_nat j + batch_size) (Z.of_nat (List.length l)))
  = firstn 50 (skipn (50 * j) l).
Proof.
  intro Hj. unfold slice, slice_bound, batch_size.
  set (n := Z.of_nat (List.length l)).
  assert (Hn : 50 * Z.of_nat j < n) by (subst n; lia).
  replace (0 + 50 * Z.of_nat j <? 0) with false by (symmetry; apply Z.ltb_ge; lia).
  replace (Z.min (0 + 50 * Z.of_nat j + 50) n <? 0) with false
    by (symmetry; apply Z.ltb_ge; lia).
  replace (Z.min (0 + 50 * Z.of_nat j) n) with (50 * Z.of_nat j) by lia.
  replace (Z.min (Z.min (0 + 50 * Z.of_nat j + 50) n) n)
    with (Z.min (50 * Z.of_nat j + 50) n) by lia.
  replace (Z.to_nat (50 * Z.of_nat j)) with (50 * j)%nat by lia.
  destruct (Z_le_gt_dec (50 * Z.of_nat j + 50) n) as [Hle | Hgt].
  - replace (Z.to_nat (Z.min (50 * Z.of_nat j + 50) n - 50 * Z.of_nat j)) with 50%nat by lia.
    reflexivity.
  - replace (Z.min (50 * Z.of_nat j + 50) n) with n by lia.
    assert (Hlen : List.length (skipn (50 * j) l) = Z.to_nat (n - 50 * Z.of_nat j)).
    { rewrite length_skipn. subst n. lia. }
    rewrite <- Hlen. rewrite firstn_all. symmetry. apply firstn_all2. lia.
Qed.

Lemma skipn_of_seq k a n : skipn k (seq a n) = seq (a + k) (n - k).
Proof.
  revert a n. induction k as [| k IH]; intros a n.
  - rewrite Nat.add_0_r, Nat.sub_0_r. reflexivity.
  - destruct n as [| n]; [reflexivity |]. cbn [seq skipn Nat.sub].
    rewrite IH. f_equal. lia.
Qed.

Lemma firstn_of_seq k a n : firstn k (seq a n) = seq a (Nat.min k n).
Proof.
  revert a n. induction k as [| k IH]; intros a n; [reflexivity |].
  destruct n as [| n]; [reflexivity |]. cbn [seq firstn Nat.min].
  rewrite IH. reflexivity.
Qed.

Lemma map_shift_seq (a m : nat) :
  map Z.of_nat (seq a m) = map (fun k => Z.of_nat a + Z.of_nat k) (seq 0 m).
Proof.
  revert a. induction m as [| m IH]; intro a; [reflexivity |].
  cbn [seq map]. f_equal; [lia |].
  rewrite IH, <- (seq_shift m 0), map_map. apply map_ext. intro k. lia.
Qed.

Lemma batch_count (n : Z) :
  0 <= n -> (50 * Z.to_nat ((n - 0 + batch_size - 1) / batch_size) >= Z.to_nat n)%nat /\
            forall j, (j < Z.to_nat ((n - 0 + batch_size - 1) / batch_size))%nat ->
                      50 * Z.of_nat j < n.
Proof.
  intro Hn. unfold batch_size.
  replace (n - 0 + 50 - 1) with (n + 49) by lia.
  pose proof (Z.div_mod (n + 49) 50 ltac:(lia)) as Hd.
  pose proof (Z.mod_pos_bound (n + 49) 50 ltac:(lia)) as Hm.
  assert (Hq : 0 <= (n + 49) / 50) by (apply Z.div_pos; lia).
  split; [lia |]. intros j Hj. lia.
Qed.

Lemma launch_batches_spec (n : Z) (bots : list BenchmarkBot) :
  Z.of_nat (List.length bots) = Z.max n 0 ->
  map snd (launch_batches n bots)
  = map (fun j => firstn 50 (skipn (50 * j) bots))
        (seq 0 (Z.to_nat ((n + 49) / 50))).
Proof.
  intro Hlen. unfold launch_batches, range. rewrite !map_map. cbn [snd].
  replace (n - 0 + batch_size - 1) with (n + 49) by (unfold batch_size; lia).
  change ((n + 49) / batch_size) with ((n + 49) / 50).
  apply map_ext_in. intros j Hj. apply in_seq in Hj.
  assert (Hn : 0 <= n).
  { destruct (Z_lt_le_dec n 0) as [Hneg |]; [| assumption].
    assert ((n + 49) / 50 < 1) by (apply Z.div_lt_upper_bound; lia). lia. }
  destruct (batch_count n Hn) as [_ Hb].
  assert (Hj' : 50 * Z.of_nat j < n).
  { apply Hb. unfold batch_size. replace (n - 0 + 50 - 1) with (n + 49) by lia. lia. }
  assert (En : n = Z.of_nat (List.length bots)) by lia.
  rewrite En at 1. apply slice_chunk. lia.
Qed.

(** X12: the launch loop cuts the bot list into ceil(num_users / 50)
    consecutive batches of 1 to 50 bots; concatenated in order the batches
    are the bot list (every bot is started once, in the order of the ids),
    and a batch holds the bots numbered as printed, batch_start + 1 to
    batch_end. *)
Theorem launch_starts_every_bot_once (num_users : Z) :
  let batches := launch_batches num_users (make_bots num_users) in
  List.concat (map snd batches) = make_bots num_users /\
  Z.of_nat (List.length batches) = Z.max ((num_users + 49) / 50) 0 /\
  Forall (fun b => let '(first, last, started) := b in
                   1 <= first /\ last <= num_users /\
                   1 <= Z.of_nat (List.length started) <= 50 /\
                   Z.of_nat (List.length started) = last - first + 1 /\
                   map bot_id started
                   = map (fun k => first - 1 + Z.of_nat k) (seq 0 (List.length started)))
         batches.
Proof.
  cbv zeta.
  assert (Hlen : Z.of_nat (List.length (make_bots num_users)) = Z.max num_users 0).
  { unfold make_bots. rewrite length_map, length_seq. lia. }
  pose proof (launch_batches_spec num_users (make_bots num_users) Hlen) as Hspec.
  split; [| split].
  - rewrite Hspec, (chunks_concat 50). apply firstn_all2.
    destruct (Z_lt_le_dec num_users 0) as [Hneg | Hpos].
    + unfold make_bots. rewrite length_map, length_seq. lia.
    + destruct (batch_count num_users Hpos) as [Hc _].
      unfold batch_size in Hc. replace (num_users - 0 + 50 - 1) with (num_users + 49) in Hc by lia.
      lia.
  - unfold launch_batches, range. rewrite length_map, length_map, length_seq.
    replace (num_users - 0 + batch_size - 1) with (num_users + 49) by (unfold batch_size; lia).
    change ((num_users + 49) / batch_size) with ((num_users + 49) / 50). lia.
  - unfold launch_batches, range. apply Forall_forall. intros b Hb.
    apply in_map_iff in Hb. destruct Hb as [bs [<- Hbs]].
    apply in_map_iff in Hbs. destruct Hbs as [j [<- Hj]]. apply in_seq in Hj.
    assert (Hn : 0 <= num_users).
    { destruct (Z_lt_le_dec num_users 0) as [Hneg |]; [| assumption].
      assert ((num_users - 0 + batch_size - 1) / batch_size < 1)
        by (apply Z.div_lt_upper_bound; unfold batch_size; lia). lia. }
    destruct (batch_count num_users Hn) as [_ Hbc].
    assert (Hj' : 50 * Z.of_nat j < num_users) by (apply Hbc; lia).
    assert (En : num_users = Z.of_nat (List.length (make_bots num_users))) by lia.
    assert (Hsl : slice (make_bots num_users) (0 + batch_size * Z.of_nat j)
                    (Z.min (0 + batch_size * Z.of_nat j + batch_size) num_users)
                  = firstn 50 (skipn (50 * j) (make_bots num_users))).
    { rewrite En at 2. apply slice_chunk. lia. }
    rewrite Hsl.
    assert (Hl : List.length (firstn 50 (skipn (50 * j) (make_bots num_users)))
                 = Nat.min 50 (Z.to_nat num_users - 50 * j)).
    { rewrite length_firstn, length_skipn. unfold make_bots.
      rewrite length_map, length_seq. reflexivity. }
    unfold batch_size. rewrite Hl.
    split; [lia |]. split; [lia |]. split; [lia |]. split; [lia |].
    unfold make_bots. rewrite skipn_map, firstn_map, map_map. cbn [bot_id BenchmarkBot_init].
    rewrite skipn_of_seq, firstn_of_seq, Nat.add_0_l, map_shift_seq.
    apply map_ext. intro k. lia.
Qed.

(** X13: the progress loop runs ceil(duration / 10) rounds with remaining
    = duration, duration - 10, ..., all positive; at ten seconds a round
    it waits at least [duration] and less than [duration + 10] seconds,
    and it does not run at all for a duration of 0 or less. *)
Theorem progress_loop_covers_duration (duration : Z) :
  let rounds := progress_rounds duration in
  let k := Z.of_nat (List.length rounds) in
  rounds = map (fun i => duration - 10 * Z.of_nat i) (seq 0 (List.length rounds)) /\
  Forall (fun remaining => 0 < remaining <= duration) rounds /\
  (duration <= 0 -> rounds = []) /\
  (0 < duration -> duration <= 10 * k < duration + 10 /\ hd_error rounds = Some duration).
Proof.
  cbv zeta. unfold progress_rounds, range_down.
  replace (duration - 0 - -10 - 1) with (duration + 9) by lia.
  change (- -10) with 10.
  rewrite length_map, length_seq.
  pose proof (Z.div_mod (duration + 9) 10 ltac:(lia)) as Hd.
  pose proof (Z.mod_pos_bound (duration + 9) 10 ltac:(lia)) as Hm.
  split; [| split; [| split]].
  - apply map_ext. intro i. lia.
  - apply Forall_forall. intros r Hr. apply in_map_iff in Hr.
    destruct Hr as [i [<- Hi]]. apply in_seq in Hi. lia.
  - intro Hle. replace (Z.to_nat ((duration + 9) / 10)) with 0%nat; [reflexivity |].
    assert ((duration + 9) / 10 < 1) by (apply Z.div_lt_upper_bound; lia). lia.
  - intro Hpos.
    assert (Hq : 1 <= (duration + 9) / 10) by (apply Z.div_le_lower_bound; lia).
    split; [lia |].
    destruct (Z.to_nat ((duration + 9) / 10)) as [| q] eqn:E; [lia |].
    cbn [seq map hd_error]. f_equal. lia.
Qed.




(** ** Spawn frames, charts and the CSV file *)

Lemma string_of_uint_numeral d :
  string_forall numeral_char (NilEmpty.string_of_uint d) = true.
Proof. induction d; cbn; assumption || reflexivity. Qed.

Lemma str_of_int_numeral n : string_forall numeral_char (str_of_int n) = true.
Proof.
  unfold str_of_int, NilZero.string_of_int, NilZero.string_of_uint.
  destruct (Z.to_int n) as [d | d]; destruct d;
    try reflexivity; cbn [string_forall numeral_char andb];
    apply (string_of_uint_numeral (_ d)) || apply string_of_uint_numeral.
Qed.

Lemma numeral_bytes_nonzero s :
  string_forall numeral_char s = true -> ~ In x00 (list_byte_of_string s).
Proof.
  induction s as [| c s IH]; cbn [string_forall list_byte_of_string]; [intros _ [] |].
  intro H. apply andb_prop in H. destruct H as [Hc Hs].
  intros [E | Hin]; [| exact (IH Hs Hin)].
  destruct c as [[] [] [] [] [] [] [] []]; cbn in Hc; try discriminate Hc;
    cbn in E; discriminate E.
Qed.

Lemma to_int_not_nil z : Z.to_int z <> Decimal.Pos Decimal.Nil /\ Z.to_int z <> Decimal.Neg Decimal.Nil.
Proof.
  destruct z as [| p | p]; cbn [Z.to_int]; split; try discriminate;
    intro H; injection H as H;
    pose proof (DecimalPos.Unsigned.of_to p) as Hp; rewrite H in Hp; discriminate Hp.
Qed.

Lemma str_of_int_inj a b : str_of_int a = str_of_int b -> a = b.
Proof.
  unfold str_of_int. intro H.
  destruct (to_int_not_nil a) as [A1 A2]. destruct (to_int_not_nil b) as [B1 B2].
  pose proof (NilZero.isi (Z.to_int a) A1 A2) as Ha.
  pose proof (NilZero.isi (Z.to_int b) B1 B2) as Hb.
  rewrite H in Ha. rewrite Ha in Hb. injection Hb as Hab.
  rewrite <- (DecimalZ.of_to a), <- (DecimalZ.of_to b), Hab. reflexivity.
Qed.

(** X1: the Spawn frame of a bot is the tag byte 2, the UTF-8 bytes of the
    name bot<id> and one terminating zero byte; the name holds no zero
    byte, and two bots get the same frame only if they have the same id. *)
Theorem spawn_frame_names_the_bot (id id' : Z) :
  spawn_packet id = Ok ([x02] ++ encode_utf8 ("bot" ++ str_of_int id) ++ [x00]) /\
  ~ In x00 (encode_utf8 ("bot" ++ str_of_int id)) /\
  (spawn_packet id = spawn_packet id' <-> id = id').
Proof.
  split; [reflexivity |]. split.
  - unfold encode_utf8. cbn [String.append list_byte_of_string].
    intros [E | [E | [E | Hin]]]; try discriminate E.
    exact (numeral_bytes_nonzero _ (str_of_int_numeral id) Hin).
  - split; [| intros ->; reflexivity].
    rewrite !spawn_packet_ok. intro H.
    assert (E : encode_utf8 ("bot" ++ str_of_int id)
                = encode_utf8 ("bot" ++ str_of_int id')).
    { apply (app_inv_tail [x00]). congruence. }
    unfold encode_utf8 in E.
    apply (f_equal string_of_list_byte) in E.
    rewrite !string_of_list_byte_of_string in E.
    cbn [String.append] in E. injection E as E.
    apply str_of_int_inj. exact E.
Qed.

Lemma subscript_map {A B : Type} (f : A -> B) (l : list A) (i : Z) :
  subscript (map f l) i = match subscript l i with
                          | Ok x => Ok (f x)
                          | Raise e => Raise e
                          end.
Proof.
  unfold subscript. rewrite length_map.
  destruct ((0 <=? (if i <? 0 then i + Z.of_nat (List.length l) else i))
            && ((if i <? 0 then i + Z.of_nat (List.length l) else i)
                <? Z.of_nat (List.length l))); [| reflexivity].
  rewrite nth_error_map.
  destruct (nth_error l (Z.to_nat (if i <? 0 then i + Z.of_nat (List.length l) else i)));
    reflexivity.
Qed.

Lemma subscript_in_range {A : Type} (l : list A) (i : Z) :
  0 <= i < Z.of_nat (List.length l) ->
  exists x, subscript l i = Ok x /\ nth_error l (Z.to_nat i) = Some x.
Proof.
  intro Hi. unfold subscript.
  replace (i <? 0) with false by (symmetry; apply Z.ltb_ge; lia).
  replace (0 <=? i) with true by (symmetry; apply Z.leb_le; lia).
  replace (i <? Z.of_nat (List.length l)) with true by (symmetry; apply Z.ltb_lt; lia).
  cbn [andb].
  destruct (nth_error l (Z.to_nat i)) as [x |] eqn:E; [eauto |].
  apply nth_error_None in E. lia.
Qed.

Lemma nth_error_last {A : Type} (l : list A) (d : A) :
  l <> [] -> nth_error l (List.length l - 1) = Some (last l d).
Proof.
  induction l as [| x l IH]; [congruence |]. intros _.
  destruct l as [| y l]; [reflexivity |].
  replace (List.length (x :: y :: l) - 1)%nat with (S (List.length (y :: l) - 1))
    by (cbn [List.length]; lia).
  cbn [nth_error]. rewrite IH by discriminate. reflexivity.
Qed.

Lemma subscript_last {A : Type} (l : list A) (d : A) :
  l <> [] -> subscript l (-1) = Ok (last l d).
Proof.
  intro Hne. unfold subscript. change (-1 <? 0) with true. cbv iota.
  assert (Hn : 1 <= Z.of_nat (List.length l))
    by (destruct l; [congruence | cbn [List.length]; lia]).
  replace (0 <=? -1 + Z.of_nat (List.length l)) with true by (symmetry; apply Z.leb_le; lia).
  replace (-1 + Z.of_nat (List.length l) <? Z.of_nat (List.length l)) with true
    by (symmetry; apply Z.ltb_lt; lia).
  cbn [andb].
  replace (Z.to_nat (-1 + Z.of_nat (List.length l))) with (List.length l - 1)%nat by lia.
  rewrite (nth_error_last l d Hne). reflexivity.
Qed.

(** X20: [generate_charts] needs a result: on an empty list the key index
    -1 passes the guard [i < len(users)] and the subscript raises
    IndexError; on a non-empty list the three annotations are those of the
    first result, of the one at index len // 2 and of the last one. *)
Theorem chart_annotations_need_results (results : list LevelResult) :
  let point := fun r : LevelResult =>
                 (avg_latency (stats r), (users r, avg_latency (stats r))) in
  (results = [] -> annotations results = Raise IndexError) /\
  (forall first rest,
      results = first :: rest ->
      exists middle,
        nth_error results (Z.to_nat (Z.of_nat (List.length results) / 2)) = Some middle /\
        annotations results = Ok [point first; point middle; point (last results first)]).
Proof.
  cbv zeta. split; [intros ->; reflexivity |].
  intros first rest Hres.
  assert (Hne : results <> []) by (rewrite Hres; discriminate).
  set (n := Z.of_nat (List.length results)).
  assert (Hn : 1 <= n) by (subst n; rewrite Hres; cbn [List.length]; lia).
  assert (Hmid : 0 <= n / 2 < n).
  { split; [apply Z.div_pos; lia | apply Z.div_lt_upper_bound; lia]. }
  destruct (subscript_in_range results (n / 2) Hmid) as [middle [Smid Nmid]].
  exists middle. split; [exact Nmid |].
  assert (S0 : subscript results 0 = Ok first) by (rewrite Hres; reflexivity).
  pose proof (subscript_last results first Hne) as Slast.
  unfold annotations, key_indices. rewrite !length_map. fold n.
  cbn [annotate]. rewrite !length_map. fold n.
  replace (0 <? n) with true by (symmetry; apply Z.ltb_lt; lia).
  replace (n / 2 <? n) with true by (symmetry; apply Z.ltb_lt; lia).
  replace (-1 <? n) with true by (symmetry; apply Z.ltb_lt; lia).
  rewrite !subscript_map, S0, Smid, Slast. reflexivity.
Qed.

(** X19: each result dict has a value for every one of the 14 columns of
    the CSV file and no key outside them: [writerow] never raises for an
    unknown key and leaves no cell to the empty default, and the cells
    come in the order of [fieldnames] (success_rate fifth), not in the
    order of the dict. *)
Theorem csv_rows_are_complete (results : list LevelResult) :
  write_rows results
  = Ok (map (fun r =>
               map Some [ PInt (users r); PFloat (total_duration r);
                          PInt (connected_count r); PInt (spawned_count r);
                          PFloat (success_rate r);
                          PInt (total_packets_sent r); PInt (total_packets_received r);
                          avg_latency (stats r); median_latency (stats r);
                          min_latency (stats r); max_latency (stats r);
                          p95_latency (stats r); p99_latency (stats r);
                          p99_5_latency (stats r) ])
            results).
Proof.
  induction results as [| r results IH]; [reflexivity |].
  cbn [write_rows map]. rewrite IH.
  assert (Hrow : writerow fieldnames (result_dict r)
                 = Ok (map Some [ PInt (users r); PFloat (total_duration r);
                          PInt (connected_count r); PInt (spawned_count r);
                          PFloat (success_rate r);
                          PInt (total_packets_sent r); PInt (total_packets_received r);
                          avg_latency (stats r); median_latency (stats r);
                          min_latency (stats r); max_latency (stats r);
                          p95_latency (stats r); p99_latency (stats r);
                          p99_5_latency (stats r) ]))
    by reflexivity.
  rewrite Hrow. reflexivity.
Qed.

(** ** Samples under a steady clock *)

Lemma round_aux_nonneg p em m ex lx :
  0 <= m -> nonneg (binary_round_aux p em false m ex lx) = true.
Proof.
  intro Hm. unfold binary_round_aux.
  pose proof (shr_fexp_mantissa p em m ex lx Hm) as [Hm1 _]. cbn zeta in Hm1.
  destruct (shr_fexp p em m ex lx) as [mrs' e'] eqn:E1. cbn [fst snd] in *.
  set (m2 := round_nearest_even (shr_m mrs') (loc_of_shr_record mrs')).
  pose proof (rne_range (shr_m mrs') (loc_of_shr_record mrs') Hm1) as Hm2. fold m2 in Hm2.
  pose proof (shr_fexp_mantissa p em m2 e' loc_Exact ltac:(lia)) as [Hm3 _]. cbn zeta in Hm3.
  destruct (shr_fexp p em m2 e' loc_Exact) as [mrs'' e''] eqn:E2. cbn [fst snd] in *.
  destruct (shr_m mrs'') as [| q | q]; [reflexivity | | lia].
  destruct (e'' <=? em - p); reflexivity.
Qed.

Lemma normalize_nonneg p em z e : 0 <= z -> nonneg (binary_normalize p em z e false) = true.
Proof.
  intro Hz. unfold binary_normalize. destruct z as [| q | q]; [reflexivity | | lia].
  unfold binary_round.
  destruct (shl_align q e (fexp p em (Z.pos (digits2_pos q) + e))) as [mz ez].
  apply round_aux_nonneg. lia.
Qed.

Lemma shl_align_value m e ez :
  ez <= e -> Z.pos (fst (shl_align m e ez)) = Z.pos m * 2 ^ (e - ez).
Proof.
  intro Hle. unfold shl_align.
  destruct (ez - e) as [| d | d] eqn:E; cbn [fst]; try lia.
  - replace (e - ez) with 0 by lia. lia.
  - rewrite iter_xO_pow. f_equal. f_equal. lia.
Qed.

Lemma canonical_digits m e :
  bounded prec emax m e = true ->
  Z.pos m < 2 ^ 53 /\ -1074 <= e /\ (-1074 < e -> 2 ^ 52 <= Z.pos m).
Proof.
  unfold bounded, canonical_mantissa, fexp, emin, prec, emax. intro H.
  apply andb_prop in H. destruct H as [H _]. apply Z.eqb_eq in H.
  pose proof (digits2_pos_bounds m) as [Hlo Hhi].
  assert (Hd : Z.pos (digits2_pos m) <= 53) by lia.
  split.
  - apply Z.lt_le_trans with (2 ^ Z.pos (digits2_pos m)); [exact Hhi |].
    apply Z.pow_le_mono_r; lia.
  - split; [lia |]. intro He.
    replace (Z.pos (digits2_pos m)) with 53 in Hlo by lia. exact Hlo.
Qed.

(** Of two canonical mantissas the one with the larger exponent is the
    larger number. *)
Lemma aligned_lt m1 e1 m2 e2 :
  bounded prec emax m1 e1 = true -> bounded prec emax m2 e2 = true ->
  e1 < e2 -> Z.pos m1 < Z.pos m2 * 2 ^ (e2 - e1).
Proof.
  intros H1 H2 He.
  destruct (canonical_digits m1 e1 H1) as [A1 [A2 _]].
  destruct (canonical_digits m2 e2 H2) as [_ [_ B3]].
  specialize (B3 ltac:(lia)).
  assert (Hp : 2 ^ 1 <= 2 ^ (e2 - e1)) by (apply Z.pow_le_mono_r; lia).
  change (2 ^ 1) with 2 in Hp.
  assert (2 ^ 52 * 2 <= Z.pos m2 * 2 ^ (e2 - e1)) by (apply Z.mul_le_mono_nonneg; lia).
  change (2 ^ 53) with (2 ^ 52 * 2) in A1. lia.
Qed.

Lemma fsub_nonneg x y :
  clock_reading x = true -> clock_reading y = true -> fle y x = true ->
  nonneg (fsub x y) = true.
Proof.
  unfold clock_reading. intros Hx Hy Hle.
  apply andb_prop in Hx. destruct Hx as [Fx Vx].
  apply andb_prop in Hy. destruct Hy as [Fy Vy].
  destruct x as [sx | sx | | sx mx ex]; try discriminate Fx;
    destruct y as [sy | sy | | sy my ey]; try discriminate Fy;
    unfold fsub, SFsub; unfold fle, SFleb, SFcompare in Hle;
    try change (Pos.compare_cont Eq my mx) with (Pos.compare my mx) in Hle.
  - destruct sx, sy; reflexivity.
  - destruct sy; [reflexivity | discriminate Hle].
  - destruct sx; [discriminate Hle | reflexivity].
  - cbn [valid_binary] in Vx, Vy.
    apply normalize_nonneg.
    assert (Ex : Z.min ex ey <= ex) by lia. assert (Ey : Z.min ex ey <= ey) by lia.
    rewrite (shl_align_value mx ex _ Ex), (shl_align_value my ey _ Ey).
    assert (Px : 0 < 2 ^ (ex - Z.min ex ey)) by (apply Z.pow_pos_nonneg; lia).
    assert (Py : 0 < 2 ^ (ey - Z.min ex ey)) by (apply Z.pow_pos_nonneg; lia).
    destruct sx, sy; cbn [cond_Zopp]; try discriminate Hle.
    + (* both negative: y <= x means |x| <= |y| *)
      destruct (Z.compare_spec ey ex) as [E | E | E]; try discriminate Hle.
      * subst ey. rewrite Z.min_id, Z.sub_diag in *. change (2 ^ 0) with 1.
        destruct (Pos.compare_spec my mx) as [E' | E' | E']; cbn [CompOpp] in Hle;
          try discriminate Hle; lia.
      * replace (Z.min ex ey) with ex by lia. rewrite Z.sub_diag. change (2 ^ 0) with 1.
        pose proof (aligned_lt mx ex my ey Vx Vy E). lia.
    + lia.
    + destruct (Z.compare_spec ey ex) as [E | E | E]; try discriminate Hle.
      * subst ey. rewrite Z.min_id, Z.sub_diag in *. change (2 ^ 0) with 1.
        destruct (Pos.compare_spec my mx) as [E' | E' | E']; try discriminate Hle; lia.
      * replace (Z.min ex ey) with ey by lia. rewrite Z.sub_diag. change (2 ^ 0) with 1.
        pose proof (aligned_lt my ey mx ex Vy Vx E). lia.
Qed.

Lemma fmul_1000_nonneg x lat :
  nonneg x = true -> float_mul_int x 1000 = Ok lat -> nonneg lat = true.
Proof.
  intros Hx H. unfold float_mul_int in H.
  change (float_of_int 1000) with (@Ok float (S754_finite false 8796093022208000 (-43))) in H.
  cbn [bind] in H. injection H as <-.
  destruct x as [sx | [] | | [] mx ex]; try discriminate Hx; unfold fmul, SFmul;
    try reflexivity.
  apply round_aux_nonneg. lia.
Qed.

Lemma nonneg_fle x : nonneg x = true -> fle f0 x = true.
Proof. destruct x as [sx | [] | | [] mx ex]; try discriminate; reflexivity. Qed.

Lemma clocked_step e s s' future :
  forallb clock_reading (readings e) = true ->
  ascending (readings e ++ future) = true ->
  clocked (readings e ++ future) s -> step e s = Some s' -> clocked future s'.
Proof.
  unfold clocked.
  destruct s as [b pc rc dur et st pd w cn sc]. destruct b as [id u ws rn co sp la stt ps pr].
  cbn [bot main_task send_time latencies].
  intros Hr Ha [Hl Hs] H.
  destruct e as [o d | o |]; cbn [readings app] in *.
  - cbn [forallb ascending] in Hr, Ha.
    repeat (apply andb_prop in Hr; destruct Hr as [? Hr]).
    repeat match goal with
           | H : _ && _ = true |- _ => apply andb_prop in H; destruct H
           end.
    step_cases H;
      (split;
       [ first [ exact Hl
               | apply Forall_app; split; [exact Hl |]; constructor; [| constructor];
                 destruct Hs as [Hst Hf]; [exact I |];
                 cbn [forallb] in Hf; apply andb_prop in Hf; destruct Hf as [Hf1 _];
                 eapply fmul_1000_nonneg; [| eassumption];
                 apply fsub_nonneg; assumption ]
       | intro Hpc; first [ solve [destruct Hpc]
                          | solve [split; assumption]
                          | destruct Hs as [Hst Hf]; [exact I |];
                            cbn [forallb] in Hf;
                            repeat (apply andb_prop in Hf; destruct Hf as [? Hf]);
                            split; assumption ] ]).
  - step_cases H; (split; [exact Hl | exact Hs]).
  - step_cases H. split; [exact Hl | exact Hs].
Qed.

Lemma ascending_app l1 l2 : ascending (l1 ++ l2) = true -> ascending l2 = true.
Proof.
  induction l1 as [| x l1 IH]; cbn [app ascending]; [auto |].
  intro H. apply andb_prop in H. destruct H as [_ H]. exact (IH H).
Qed.

Lemma clocked_run evs s s' :
  steady_clock evs = true -> clocked (flat_map readings evs) s ->
  run evs s = Some s' -> clocked [] s'.
Proof.
  unfold steady_clock. revert s.
  induction evs as [| e evs IH]; intros s Hc Hs Hrun; cbn [run] in Hrun.
  - injection Hrun as <-. exact Hs.
  - cbn [flat_map] in Hc, Hs. apply andb_prop in Hc. destruct Hc as [Hr Ha].
    rewrite forallb_app in Hr. apply andb_prop in Hr. destruct Hr as [Hr1 Hr2].
    destruct (step e s) as [s1 |] eqn:E; [| discriminate].
    apply (IH s1); [| | exact Hrun].
    + rewrite Hr2, (ascending_app _ _ Ha). reflexivity.
    + exact (clocked_step e s s1 _ Hr1 Ha Hs E).
Qed.

(** X11: if the clock readings of an execution are finite doubles that
    never step back, every latency sample is a number (not NaN) and is
    zero or above. *)
Theorem samples_nonnegative_under_steady_clock (id : Z) (u : string) (dur : Z)
    (evs : list event) (s : state) :
  steady_clock evs = true ->
  run evs (initial (BenchmarkBot_init id u) dur) = Some s ->
  Forall (fun x => is_nan x = false /\ fle f0 x = true) (latencies (bot s)).
Proof.
  intros Hc Hrun.
  destruct (clocked_run evs (initial (BenchmarkBot_init id u) dur) s Hc) as [H _];
    [| exact Hrun |].
  - split; [constructor | intros []].
  - eapply Forall_impl; [| exact H].
    intros x Hx. split; [destruct x as [| [] | |]; try discriminate Hx; reflexivity |].
    apply nonneg_fle. exact Hx.
Qed.

Lemma samples_nonnegative_under_steady_clock_witness :
  let s := final_of steady_trace (session_of 0) in
  (steady_clock steady_trace = true /\
   run steady_trace (initial (BenchmarkBot_init 0 benchmark_url) 120) = Some s) /\
  Forall (fun x => is_nan x = false /\ fle f0 x = true) (latencies (bot s)).
Proof.
  assert (H1 : steady_clock steady_trace = true) by (vm_compute; reflexivity).
  assert (H2 : run steady_trace (initial (BenchmarkBot_init 0 benchmark_url) 120)
               = Some (final_of steady_trace (session_of 0))) by (vm_compute; reflexivity).
  split; [split; assumption |].
  exact (samples_nonnegative_under_steady_clock 0 benchmark_url 120 steady_trace _ H1 H2).
Defined.

(** ** The handshake without an answer *)

Lemma unanswered_poll (d : draws) (o : outcome) (k : nat) (s : state) :
  main_task s = MAccept k -> unanswered o = true ->
  exists s1,
    step (MainResumes o d) s = Some s1 /\
    main_task s1 = poll_next k /\
    packets_received (bot s1)
    = packets_received (bot s) + Z.of_nat (frames_among [o]) /\
    wire s1 = wire s /\ receive_task s1 = receive_task s /\
    packets_sent (bot s1) = packets_sent (bot s) /\
    connected (bot s1) = connected (bot s) /\ running (bot s1) = running (bot s).
Proof.
  destruct s as [b pc rc dur et st pd w cn sc]. destruct b as [id u ws rn co sp la stt ps pr].
  cbn [main_task]. intros -> Ho.
  destruct o as [| msg | |]; try discriminate Ho.
  - cbn [unanswered] in Ho. apply negb_true_iff in Ho.
    cbv beta iota zeta delta [step measure_latency with_bot with_main incr_received bot
      main_task receive_task duration end_time send_time pending wire connects spawn_calls
      bot_id url websocket running connected spawned latencies start_time packets_sent
      packets_received].
    rewrite Ho. eexists. split; [reflexivity |].
    cbn [bot main_task receive_task wire packets_received packets_sent connected running].
    unfold frames_among. cbn [filter List.length]. repeat split; lia.
  - eexists. split; [reflexivity |].
    cbn [with_main bot main_task receive_task wire packets_received packets_sent connected
         running].
    unfold frames_among. cbn [filter List.length]. repeat split; lia.
Qed.

Lemma frames_among_cons o os :
  frames_among (o :: os) = (frames_among [o] + frames_among os)%nat.
Proof. unfold frames_among. cbn [filter]. destruct o; reflexivity. Qed.

(** X7: an Accept frame is not required: when the polls left to the
    handshake all end in a timeout or in a frame that is not tagged 7, the
    session goes on to the settle sleep, and from there to spawning, with
    nothing changed but [packets_received], which grows by the number of
    frames read. *)
Theorem unanswered_handshake_is_skipped (d : draws) (os : list outcome) (k : nat) (s : state) :
  main_task s = MAccept k -> List.length os = S k ->
  forallb unanswered os = true ->
  exists s',
    run (map (fun o => MainResumes o d) os) s = Some s' /\
    main_task s' = MSettle /\
    packets_received (bot s') = packets_received (bot s) + Z.of_nat (frames_among os) /\
    wire s' = wire s /\ receive_task s' = receive_task s /\
    packets_sent (bot s') = packets_sent (bot s) /\
    connected (bot s') = connected (bot s) /\ running (bot s') = running (bot s).
Proof.
  revert k s.
  induction os as [| o os IH]; intros k s Hpc Hlen Hun; [discriminate Hlen |].
  cbn [forallb] in Hun. apply andb_prop in Hun. destruct Hun as [Ho Hos].
  cbn [List.length] in Hlen. injection Hlen as Hlen.
  destruct (unanswered_poll d o k s Hpc Ho)
    as [s1 [Hstep [Hpc1 [Hr1 [Hw1 [Hrc1 [Hs1 [Hc1 Hrn1]]]]]]]].
  cbn [map run]. rewrite Hstep, frames_among_cons.
  destruct k as [| k]; cbn [poll_next] in Hpc1.
  - destruct os; [| discriminate Hlen]. cbn [map run].
    exists s1. split; [reflexivity |]. split; [exact Hpc1 |].
    change (frames_among []) with 0%nat.
    repeat split; try assumption. lia.
  - destruct (IH k s1 Hpc1 Hlen Hos)
      as [s' [Hrun [A [Hr [Hw [Hrc [Hs [Hc Hrn]]]]]]]].
    exists s'. split; [exact Hrun |]. split; [exact A |].
    repeat split; try congruence. lia.
Qed.

Lemma unanswered_handshake_is_skipped_witness :
  let s := final_of (firstn 3 spawned_trace) (session_of 0) in
  let os := [Timeout; Frame [x02]; Timeout; Timeout; Timeout;
             Timeout; Timeout; Timeout; Timeout; Timeout] in
  (main_task s = MAccept 9 /\ List.length os = 10%nat /\ forallb unanswered os = true) /\
  exists s',
    run (map (fun o => MainResumes o no_draws) os) s = Some s' /\
    main_task s' = MSettle /\
    packets_received (bot s') = packets_received (bot s) + Z.of_nat (frames_among os) /\
    wire s' = wire s /\ receive_task s' = receive_task s /\
    packets_sent (bot s') = packets_sent (bot s) /\
    connected (bot s') = connected (bot s) /\ running (bot s') = running (bot s).
Proof.
  assert (H1 : main_task (final_of (firstn 3 spawned_trace) (session_of 0)) = MAccept 9)
    by (vm_compute; reflexivity).
  assert (H2 : List.length [Timeout; Frame [x02]; Timeout; Timeout; Timeout;
                            Timeout; Timeout; Timeout; Timeout; Timeout] = 10%nat)
    by reflexivity.
  assert (H3 : forallb unanswered [Timeout; Frame [x02]; Timeout; Timeout; Timeout;
                                   Timeout; Timeout; Timeout; Timeout; Timeout] = true)
    by reflexivity.
  split; [repeat split; assumption |].
  exact (unanswered_handshake_is_skipped no_draws _ 9 _ H1 H2 H3).
Defined.

(** ** Spawn confirmation and early failures *)

Lemma announces_step e s s' :
  step e s = Some s' -> spawned (bot s') = spawned (bot s) || announces e.
Proof.
  destruct s as [b pc rc dur et st pd w cn sc]. destruct b as [id u ws rn co sp la stt ps pr].
  cbn [bot spawned]. intro H.
  destruct e as [o d | o |]; step_cases H; subst; cbn [announces];
    repeat match goal with
           | H : is_spawn_or_update _ = _ |- _ => rewrite H
           | H : negb ?b = _ |- _ => destruct b; cbn [negb] in H; try discriminate H
           end;
    rewrite ?orb_false_r, ?orb_true_r; reflexivity.
Qed.

(** X21: [spawned] is true exactly when the receive loop has read a
    frame tagged 0 or 2: no other step of the session sets it, no step
    clears it, and a frame with such a tag that the handshake poll reads
    does not count. *)
Theorem spawned_iff_announced (id : Z) (u : string) (dur : Z) (evs : list event) (s : state) :
  run evs (initial (BenchmarkBot_init id u) dur) = Some s ->
  spawned (bot s) = existsb announces evs.
Proof.
  assert (G : forall evs s0 s,
             run evs s0 = Some s -> spawned (bot s) = spawned (bot s0) || existsb announces evs).
  { clear. intro evs. induction evs as [| e evs IH]; intros s0 s Hrun; cbn [run] in Hrun.
    - injection Hrun as <-. cbn [existsb]. rewrite orb_false_r. reflexivity.
    - destruct (step e s0) as [s1 |] eqn:E; [| discriminate].
      rewrite (IH s1 s Hrun), (announces_step e s0 s1 E). cbn [existsb].
      rewrite orb_assoc. reflexivity. }
  intro Hrun. rewrite (G evs _ s Hrun). reflexivity.
Qed.

Lemma spawned_iff_announced_witness :
  run failed_spawns_trace (initial (BenchmarkBot_init 0 benchmark_url) 120)
  = Some (final_of failed_spawns_trace fresh_session) /\
  spawned (bot (final_of failed_spawns_trace fresh_session))
  = existsb announces failed_spawns_trace.
Proof.
  assert (Hrun : run failed_spawns_trace (initial (BenchmarkBot_init 0 benchmark_url) 120)
                 = Some (final_of failed_spawns_trace fresh_session))
    by (vm_compute; reflexivity).
  split; [exact Hrun |].
  exact (spawned_iff_announced 0 benchmark_url 120 failed_spawns_trace _ Hrun).
Defined.

Lemma gave_up_step w e s s' : gave_up w s -> step e s = Some s' -> gave_up w s'.
Proof.
  unfold gave_up.
  destruct s as [b pc rc dur et st pd w0 cn sc]. destruct b as [id u ws rn co sp la stt ps pr].
  cbn [bot main_task receive_task connected running spawned latencies spawn_calls wire].
  intros [Hf [Hrc [Hc [Hr [Hs [Hl [Hsc Hw]]]]]]] H. subst rc co rn sp la sc w0.
  destruct e as [o d | o |]; step_cases H; cbn [finished] in *;
    try discriminate Hf; repeat split; solve [reflexivity | assumption].
Qed.

(** X22: when the send of the Init frame or a read of the handshake
    poll fails with an exception, the session disconnects at once and
    stays as it is: [connected] is True although the handshake never
    completed, [running] is False, nothing was spawned, no sample exists,
    and at most the Init frame was sent. *)
Theorem early_failure_counts_as_connected (id : Z) (u : string) (dur : Z)
    (s0 s1 s : state) (d : draws) :
  reachable (initial (BenchmarkBot_init id u) dur) s0 ->
  main_task s0 = MSendInit \/ (exists k, main_task s0 = MAccept k) ->
  step (MainResumes Failed d) s0 = Some s1 ->
  reachable s1 s ->
  connected (bot s) = true /\ running (bot s) = false /\
  spawned (bot s) = false /\ latencies (bot s) = [] /\
  spawn_calls s = 0%nat /\ finished (main_task s) = true /\
  wire s = wire s0 /\ 0 <= packets_sent (bot s) <= 1.
Proof.
  intros Hr0 Hpc Hstep Hr.
  pose proof (wire_inv_reachable id u dur s0 Hr0) as Hw0.
  destruct (lifecycle_inv_reachable id u dur s0 Hr0) as [Hws [_ [Hin [_ [_ [_ _]]]]]].
  pose proof (handshake_inv_reachable id u dur s0 Hr0) as Hh0.
  pose proof (reachable_ind session_inv session_inv_step _ _
                (initial_session_inv id u dur) Hr0) as [Hsp _].
  assert (Hr1 : reachable (initial (BenchmarkBot_init id u) dur) s).
  { apply (reachable_trans _ s1); [| exact Hr].
    apply (reachable_trans _ s0); [exact Hr0 |]. exists [MainResumes Failed d].
    cbn [run]. rewrite Hstep. reflexivity. }
  destruct (lifecycle_inv_reachable id u dur s Hr1) as [_ [Hps _]].
  assert (Hg : gave_up (wire s0) s1 /\ (List.length (wire s0) <= 1)%nat).
  { unfold gave_up, wire_inv, handshake_inv in *. cbv zeta in Hw0.
    destruct s0 as [b pc rc dur0 et st pd w cn sc].
    destruct b as [id0 u0 ws rn co sp la stt ps pr].
    cbn [bot main_task receive_task connected running spawned latencies spawn_calls wire
         websocket bot_id pending packets_received] in *.
    destruct Hpc as [-> | [k ->]]; cbn [in_protocol] in Hin;
      specialize (Hin eq_refl); subst co; subst ws;
      cbv beta iota zeta delta [step measure_latency disconnect with_bot with_main
        set_running bot main_task receive_task duration end_time send_time pending wire
        connects spawn_calls bot_id url websocket running connected spawned latencies
        start_time packets_sent packets_received] in Hstep;
      injection Hstep as <-;
      cbn [bot main_task receive_task connected running spawned latencies spawn_calls wire
           finished];
      split_hyps; subst.
    - repeat split; try reflexivity; try (apply Hsp; reflexivity);
        try (apply length_zero_iff_nil; assumption). cbn [List.length]. lia.
    - repeat split; try reflexivity; try (apply Hsp; reflexivity);
        try (apply length_zero_iff_nil; assumption).
      match goal with
      | H : sent_shape _ 0 0 _ |- _ => destruct (shape_counts _ _ _ _ H) as [Hlen _]
      end.
      lia. }
  destruct Hg as [Hg Hlen].
  pose proof (reachable_ind (gave_up (wire s0)) (gave_up_step (wire s0)) s1 s Hg Hr)
    as [Hf [Hrc [Hc [Hrn [Hs [Hl [Hsc Hw]]]]]]].
  repeat split; try assumption; rewrite Hps, Hw; lia.
Qed.

Lemma early_failure_counts_as_connected_witness :
  let s0 := init_pending_session in
  let s1 := final_of [MainResumes Failed no_draws] init_pending_session in
  (reachable (initial (BenchmarkBot_init 0 benchmark_url) 120) s0 /\
   (main_task s0 = MSendInit \/ (exists k, main_task s0 = MAccept k)) /\
   step (MainResumes Failed no_draws) s0 = Some s1 /\
   reachable s1 s1) /\
  connected (bot s1) = true /\ running (bot s1) = false /\
  spawned (bot s1) = false /\ latencies (bot s1) = [] /\
  spawn_calls s1 = 0%nat /\ finished (main_task s1) = true /\
  wire s1 = wire s0 /\ 0 <= packets_sent (bot s1) <= 1.
Proof.
  assert (H0 : reachable (initial (BenchmarkBot_init 0 benchmark_url) 120)
                         init_pending_session)
    by (apply (reachable_final_of (firstn 2 spawned_trace) (session_of 0));
        vm_compute; discriminate).
  assert (H1 : main_task init_pending_session = MSendInit
               \/ (exists k, main_task init_pending_session = MAccept k))
    by (left; vm_compute; reflexivity).
  assert (H2 : step (MainResumes Failed no_draws) init_pending_session
               = Some (final_of [MainResumes Failed no_draws] init_pending_session))
    by (vm_compute; reflexivity).
  assert (H3 : reachable (final_of [MainResumes Failed no_draws] init_pending_session)
                         (final_of [MainResumes Failed no_draws] init_pending_session))
    by apply reachable_refl.
  split; [split; [exact H0 | split; [exact H1 | split; [exact H2 | exact H3]]] |].
  exact (early_failure_counts_as_connected 0 benchmark_url 120 _ _ _ no_draws H0 H1 H2 H3).
Defined.
